(** * docker-compose-bundler: a shallow embedding of [main.go]

    Definitions, in the order of the source:
    - [GoStrings] and [Regexp]: the functions of Go's [strings] and [regexp]
      packages the code calls, the second as a matcher by derivatives;
    - [sanitizeFilename] and [isValidSemver];
    - the manifest ([XBundle], [Service], [DockerCompose]);
    - file trees, [filepath.Walk], tar streams, and the two walk callbacks;
    - the container engine as an oracle over the history of calls, the host
      (paths, YAML, faults, order of map iteration) as a record, and the
      bundler as a state-and-error monad over a [World];
    - the grammar of versions in the words of the specification, and sample
      hosts, engines and manifests.

    Facts: the matcher decides the language of its expression and the
    pattern of [isValidSemver] is the grammar; then validation, cleanup, the
    resolver, the archive and the build context.

    Go strings are byte strings: they are modelled by [string], whose
    characters are the 256 bytes. *)

From Stdlib Require Import Ascii NArith.
From stdpp Require Import gmap strings list fin_maps.

Set Warnings "-register-all".

Local Open Scope stdpp_scope.

(** ** Package [strings] *)

Module GoStrings.

(** [strings.HasPrefix(s, prefix)]. *)
Definition HasPrefix (s prefix : string) : bool := String.prefix prefix s.

(** Every byte of [s] satisfies [p]. *)
Fixpoint all_bytes (p : ascii → bool) (s : string) : bool :=
  match s with
  | EmptyString => true
  | String c s' => p c && all_bytes p s'
  end.

(** [strings.NewReplacer(old1, new1, old2, new2, ...)] when every [old] and
    every [new] is one byte long (Go then builds its byte replacer): the
    table lists the pairs in argument order, and the first pair whose [old]
    is the byte at hand wins. *)
Definition Replacer : Type := list (ascii * ascii).

Fixpoint replace_byte (r : Replacer) (c : ascii) : ascii :=
  match r with
  | [] => c
  | (o, n) :: r' => if Ascii.eqb c o then n else replace_byte r' c
  end.

(** The method [Replace] of a [Replacer]. *)
Fixpoint Replace (r : Replacer) (s : string) : string :=
  match s with
  | EmptyString => EmptyString
  | String c s' => String (replace_byte r c) (Replace r s')
  end.

End GoStrings.

Import GoStrings.

(** ** Package [regexp], as far as [isValidSemver] needs it *)

Module Regexp.

(** Syntax of the expressions.  [Fail] matches nothing and only appears in
    derivatives. *)
Inductive regex : Type :=
| Fail
| Eps
| Byte (c : ascii)
| Class (p : ascii → bool)
| Cat (r s : regex)
| Alt (r s : regex)
| Star (r : regex).

(** [r?] and [r+]. *)
Definition Opt (r : regex) : regex := Alt r Eps.
Definition Plus (r : regex) : regex := Cat r (Star r).

(** A compiled pattern of the shape [^r$].  Without the [m] flag Go's [^]
    and [$] match only at the beginning and at the end of the text, so such
    a pattern matches a text exactly when [r] matches all of it. *)
Inductive pattern : Type := Anchored (r : regex).

Fixpoint nullable (r : regex) : bool :=
  match r with
  | Fail => false
  | Eps => true
  | Byte _ => false
  | Class _ => false
  | Cat r s => nullable r && nullable s
  | Alt r s => nullable r || nullable s
  | Star _ => true
  end.

(** Brzozowski derivative of [r] by the byte [c]. *)
Fixpoint deriv (c : ascii) (r : regex) : regex :=
  match r with
  | Fail => Fail
  | Eps => Fail
  | Byte d => if Ascii.eqb c d then Eps else Fail
  | Class p => if p c then Eps else Fail
  | Cat r s =>
      if nullable r then Alt (Cat (deriv c r) s) (deriv c s)
      else Cat (deriv c r) s
  | Alt r s => Alt (deriv c r) (deriv c s)
  | Star r => Cat (deriv c r) (Star r)
  end.

Fixpoint matches (r : regex) (s : string) : bool :=
  match s with
  | EmptyString => nullable r
  | String c s' => matches (deriv c r) s'
  end.

(** The method [MatchString] of a compiled pattern. *)
Definition MatchString (p : pattern) (s : string) : bool :=
  match p with Anchored r => matches r s end.

(** The language of an expression, as a relation. *)
Inductive Lang : regex → string → Prop :=
| L_Eps : Lang Eps ""
| L_Byte c : Lang (Byte c) (String c "")
| L_Class p c : p c = true → Lang (Class p) (String c "")
| L_Cat r s u v : Lang r u → Lang s v → Lang (Cat r s) (u +:+ v)
| L_AltL r s u : Lang r u → Lang (Alt r s) u
| L_AltR r s u : Lang s u → Lang (Alt r s) u
| L_Star0 r : Lang (Star r) ""
| L_StarS r u v : Lang r u → Lang (Star r) v → Lang (Star r) (u +:+ v).

(** Perl classes, ASCII only as in Go: digits, digits from 1 to 9, word
    bytes. *)
Definition between (lo hi : N) (c : ascii) : bool :=
  let n := N_of_ascii c in (lo <=? n)%N && (n <=? hi)%N.
Definition is_digit (c : ascii) : bool := between 48 57 c.
Definition is_digit19 (c : ascii) : bool := between 49 57 c.
Definition is_word (c : ascii) : bool :=
  is_digit c || between 65 90 c || between 97 122 c || Ascii.eqb c "_"%char.
(** Word bytes, dot and dash. *)
Definition is_ident (c : ascii) : bool :=
  is_word c || Ascii.eqb c "."%char || Ascii.eqb c "-"%char.

End Regexp.

(** ** [sanitizeFilename] (main.go, 616-630) *)

Definition sanitizeFilename (name : string) : string :=
  let replacer : Replacer :=
    [ ("/", "-"); (":", "-"); ("\", "-"); ("*", "-"); ("?", "-");
      ("034", "-"); ("<", "-"); (">", "-"); ("|", "-") ]%char in
  Replace replacer name.

(** ** [isValidSemver] (main.go, 207-211) *)

Import Regexp.

(** The numeric group of the pattern: a lone 0, or a digit from 1 to 9
    followed by any number of digits. *)
Definition numericRegex : regex :=
  Alt (Byte "0"%char) (Cat (Class is_digit19) (Star (Class is_digit))).

Definition dashIdent : regex := Cat (Byte "-"%char) (Plus (Class is_ident)).
Definition plusIdent : regex := Cat (Byte "+"%char) (Plus (Class is_ident)).

(** The pattern of line 209, piece by piece:
    [^ v? N \. N \. N (?:-I+)? (?:\+I+)? $], where [N] is the numeric group
    and [I] is the class of word bytes, dot and dash. *)
Definition semverRegex : pattern :=
  Anchored
    (Cat (Opt (Byte "v"%char))
    (Cat numericRegex (Cat (Byte "."%char)
    (Cat numericRegex (Cat (Byte "."%char)
    (Cat numericRegex
    (Cat (Opt dashIdent) (Opt plusIdent)))))))).

Definition isValidSemver (version : string) : bool :=
  MatchString semverRegex version.

(** ** The manifest (main.go, 22-56) *)

(** Go's [error] values.  The code builds its own with [fmt.Errorf]; the only
    sentinel it uses is [filepath.SkipDir]. *)
Inductive error : Type :=
| SkipDir
| Errorf (msg : string).

Definition Error (e : error) : string :=
  match e with
  | SkipDir => "skip this directory"
  | Errorf msg => msg
  end.

(** [fmt.Errorf(prefix + ": %w", err)]. *)
Definition wrap (prefix : string) (e : error) : error :=
  Errorf (prefix +:+ ": " +:+ Error e).

Inductive Result (A : Type) : Type :=
| OK (a : A)
| Err (e : error).
Arguments OK {A} a.
Arguments Err {A} e.

(** A value held in an [interface{}] after YAML decoding.  A nil interface is
    [None] at the type [option Any]. *)
Inductive Any : Type :=
| AString (s : string)
| AInt (z : Z)
| ABool (b : bool)
| ASeq (l : list Any)
| AMap (m : list (string * Any)).

Record XBundle : Type := {
  Name : string;
  Version : string
}.

Record Service : Type := {
  Image : string;
  Build : option Any;
  Environment : option Any;
  Volumes : list string;
  Ports : list string;
  Networks : list string;
  DependsOn : option Any;
  Command : option Any;
  Entrypoint : option Any;
  Restart : string;
  Extra : list (string * Any)
}.

(** The top-level sections named [version], [networks] and [volumes] get a
    prefix here, since [XBundle] and [Service] have fields of these names,
    and the field [XBundle] an underscore, since the type has the name. *)
Record DockerCompose : Type := {
  ComposeVersion : string;
  Services : gmap string Service;
  TopNetworks : list (string * Any);
  TopVolumes : list (string * Any);
  Configs : list (string * Any);
  Secrets : list (string * Any);
  XBundle_ : option XBundle
}.

Record BuildConfig : Type := {
  Context : string;
  Dockerfile : string;
  Args : gmap string string
}.

(** [service.Image = imageName; service.Build = nil] *)
Definition set_built (service : Service) (imageName : string) : Service :=
  {| Image := imageName; Build := None;
     Environment := Environment service; Volumes := Volumes service;
     Ports := Ports service; Networks := Networks service;
     DependsOn := DependsOn service; Command := Command service;
     Entrypoint := Entrypoint service; Restart := Restart service;
     Extra := Extra service |}.

(** [compose.Services[serviceName] = service] *)
Definition set_service (compose : DockerCompose) (serviceName : string)
    (service : Service) : DockerCompose :=
  {| ComposeVersion := ComposeVersion compose;
     Services := <[serviceName := service]> (Services compose);
     TopNetworks := TopNetworks compose; TopVolumes := TopVolumes compose;
     Configs := Configs compose; Secrets := Secrets compose;
     XBundle_ := XBundle_ compose |}.

(** ** Files, [filepath.Walk] and tar streams *)

(** A file tree of the host: regular files and directories, each with its
    mode bits and with a flag telling whether it can be opened for reading.
    Symbolic links and special files are left out. *)
Inductive Node : Type :=
| File (mode : N) (readable : bool) (content : string)
| Directory (mode : N) (readable : bool) (children : list (string * Node)).

Definition IsDir (n : Node) : bool :=
  match n with File _ _ _ => false | Directory _ _ _ => true end.

Definition Mode (n : Node) : N :=
  match n with File m _ _ => m | Directory m _ _ => m end.

(** [info.Size()] as [tar.FileInfoHeader] uses it: the length of a regular
    file, zero for a directory. *)
Definition Size (n : Node) : nat :=
  match n with File _ _ c => String.length c | Directory _ _ _ => 0 end.

(** A name is written in a directory: what the directory had under that
    name is replaced.  The order of a listing does not matter, since a walk
    sorts the names it reads. *)
Definition put_child (name : string) (n : Node) (cs : list (string * Node))
    : list (string * Node) :=
  (name, n) :: filter (λ p, p.1 ≠ name) cs.

(** Insertion in a listing sorted by the bytewise order of the names. *)
Fixpoint insert_sorted (p : string * Node) (cs : list (string * Node))
    : list (string * Node) :=
  match cs with
  | [] => [p]
  | q :: cs' =>
      if String.leb p.1 q.1 then p :: cs else q :: insert_sorted p cs'
  end.

(** [readDirNames]: the names of a directory, sorted.  [in_walk_order] sorts
    every listing of a tree, so that [walk] below can follow the stored
    order. *)
Fixpoint in_walk_order (n : Node) : Node :=
  match n with
  | File m r c => File m r c
  | Directory m r cs =>
      Directory m r
        (foldr insert_sorted []
           (map (λ p : string * Node, (p.1, in_walk_order p.2)) cs))
  end.

(** The separator of the host and the lexical functions of [path/filepath]
    the walk callbacks use.  A path below the root of a walk is kept as the
    list of its names; [Rel] renders it the way [filepath.Rel(root, path)]
    does for the paths [filepath.Walk] hands to its callback. *)
Definition Rel (sep : ascii) (names : list string) : string :=
  match names with
  | [] => "."
  | _ => String.concat (String sep "") names
  end.

(** [filepath.ToSlash] *)
Definition ToSlash (sep : ascii) (path : string) : string :=
  if Ascii.eqb sep "/"%char then path
  else Replace [(sep, "/"%char)] path.

(** One member of a tar stream: the header fields the code sets, and the
    bytes copied after it.  [trailer] tells whether the writer was closed in
    good order, which writes the end-of-archive blocks. *)
Record TarEntry : Type := {
  hdr_name : string;
  hdr_dir : bool;
  hdr_mode : N;
  hdr_size : nat;
  body : string
}.

Record TarStream : Type := {
  entries : list TarEntry;
  trailer : bool
}.

(** [tar.FileInfoHeader(info, "")] followed by [header.Name = name] and
    [tarWriter.WriteHeader(header)]: a member with no bytes yet. *)
Definition WriteHeader (tw : list TarEntry) (name : string) (info : Node)
    : list TarEntry :=
  tw ++ [ {| hdr_name := name; hdr_dir := IsDir info; hdr_mode := Mode info;
             hdr_size := Size info; body := "" |} ].

(** [io.Copy(tarWriter, file)]: the bytes go to the member written last. *)
Definition Copy (tw : list TarEntry) (content : string) : list TarEntry :=
  match reverse tw with
  | [] => []
  | e :: before =>
      reverse before ++
      [ {| hdr_name := hdr_name e; hdr_dir := hdr_dir e;
           hdr_mode := hdr_mode e; hdr_size := hdr_size e;
           body := body e +:+ content |} ]
  end.

(** [tarWriter.Close()]: the trailer is written unless bytes announced by the
    last header are missing. *)
Definition Close (tw : list TarEntry) : TarStream :=
  {| entries := tw;
     trailer := match last tw with
                | Some e => bool_decide (String.length (body e) = hdr_size e)
                | None => true
                end |}.

(** [os.Open(path)] on a node. *)
Definition Open (n : Node) : Result string :=
  match n with
  | File _ true c => OK c
  | File _ false _ => Err (Errorf "open: permission denied")
  | Directory _ _ _ => Err (Errorf "open: is a directory")
  end.

(** The callback of a walk: the path below the root, the file information
    (absent when [Lstat] failed), the error met on the way, and the state the
    closure writes to. *)
Definition WalkFunc (S : Type) : Type :=
  list string → option Node → option error → S → S * option error.

Definition is_SkipDir (e : error) : bool :=
  match e with SkipDir => true | Errorf _ => false end.

(** The loop of [walk] over the names of a directory: [SkipDir] coming back
    from a directory lets the loop go on; any error coming back from a
    file, [SkipDir] included, ends the loop and is returned. *)
Definition walk_names {S : Type}
    (walk : list string → Node → S → S * option error) (path : list string)
    : list (string * Node) → S → S * option error :=
  fix loop (names : list (string * Node)) (st : S) : S * option error :=
    match names with
    | [] => (st, None)
    | (name, fileInfo) :: rest =>
        let '(st', err) := walk (path ++ [name]) fileInfo st in
        match err with
        | Some e =>
            if negb (IsDir fileInfo) || negb (is_SkipDir e)
            then (st', Some e)
            else loop rest st'
        | None => loop rest st'
        end
    end.

(** The function [walk] of [path/filepath], over a tree whose listings are
    sorted.  The callback is called on the node; for a directory that could
    be read and on which the callback returned no error, the names follow. *)
Fixpoint walk {S : Type} (walkFn : WalkFunc S) (path : list string)
    (info : Node) (st : S) : S * option error :=
  match info with
  | File _ _ _ => walkFn path (Some info) None st
  | Directory _ readable names =>
      let err :=
        if readable then None else Some (Errorf "open: permission denied") in
      let '(st1, err1) := walkFn path (Some info) err st in
      match err, err1 with
      | None, None =>
          walk_names (λ path info st, walk walkFn path info st) path names st1
      | _, _ => (st1, err1)
      end
  end.

(** [filepath.Walk(root, fn)]; [root] is what the host has at the root path,
    if anything. *)
Definition Walk {S : Type} (root : option Node) (fn : WalkFunc S) (st : S)
    : S * option error :=
  let '(st', err) :=
    match root with
    | None => fn [] None (Some (Errorf "lstat: no such file or directory")) st
    | Some info => walk fn [] (in_walk_order info) st
    end in
  match err with
  | Some SkipDir => (st', None)
  | _ => (st', err)
  end.

(** The closure handed to [filepath.Walk] by [createTarGz]
    (main.go, 523-561). *)
Definition tarGzFn (sep : ascii) : WalkFunc (list TarEntry) :=
  λ path info err tarWriter,
    match err, info with
    | Some e, _ => (tarWriter, Some e)
    | None, None => (tarWriter, Some (Errorf "nil FileInfo"))
    | None, Some info =>
        let relPath := Rel sep path in
        if String.eqb relPath "." then (tarWriter, None)
        else
          let tarWriter := WriteHeader tarWriter (ToSlash sep relPath) info in
          if negb (IsDir info) then
            match Open info with
            | Err e => (tarWriter, Some e)
            | OK file => (Copy tarWriter file, None)
            end
          else (tarWriter, None)
    end.

(** The closure of the producer in [createBuildContextTar]
    (main.go, 572-610). *)
Definition buildContextFn (sep : ascii) : WalkFunc (list TarEntry) :=
  λ path info err tarWriter,
    match err, info with
    | Some e, _ => (tarWriter, Some e)
    | None, None => (tarWriter, Some (Errorf "nil FileInfo"))
    | None, Some info =>
        let relPath := Rel sep path in
        if HasPrefix relPath ".git" then (tarWriter, Some SkipDir)
        else
          let tarWriter := WriteHeader tarWriter (ToSlash sep relPath) info in
          if negb (IsDir info) then
            match Open info with
            | Err e => (tarWriter, Some e)
            | OK file => (Copy tarWriter file, None)
            end
          else (tarWriter, None)
    end.

(** [createBuildContextTar] (main.go, 564-614).  The goroutine writes the
    archive into a pipe and drops the result of [filepath.Walk]; the function
    hands back the reading end and a nil error at once.  The reading end is
    modelled by all the producer writes before it closes the pipe, and the
    dropped result of the walk is kept aside as [walkResult]. *)
Definition buildContextProducer (sep : ascii) (context : option Node)
    : TarStream * option error :=
  let '(tarWriter, walkResult) := Walk context (buildContextFn sep) [] in
  (Close tarWriter, walkResult).

Definition createBuildContextTar (sep : ascii) (context : option Node)
    : TarStream * option error :=
  let reader := fst (buildContextProducer sep context) in
  (reader, None).

(** ** The container engine and the host *)

Record ImageBuildOptions : Type := {
  opt_Dockerfile : string;
  Tags : list string;
  Remove : bool;
  BuildArgs : gmap string string
}.

Record RemoveOptions : Type := {
  Force : bool;
  PruneChildren : bool
}.

(** A frame of the JSON stream the engine answers a build or a pull with.
    The two anonymous structs of the code read [stream] and [error], and
    [status] and [error]; a field missing from a frame decodes as the empty
    string. *)
Record JSONMessage : Type := {
  Stream : string;
  Status : string;
  ErrorText : string
}.

(** A response body as [json.Decoder] sees it: frames, then [io.EOF]
    ([None]) or another error. *)
Record Body : Type := {
  messages : list JSONMessage;
  ending : option error
}.

(** The operations of the engine the bundler issues. *)
Inductive EngineCall : Type :=
| CallInspect (imageName : string)
| CallPull (imageName : string)
| CallBuild (buildContext : TarStream) (options : ImageBuildOptions)
| CallSave (imageNames : list string)
| CallRemove (imageName : string) (options : RemoveOptions).

(** The engine, as an oracle: every answer may depend on all the calls
    issued before. *)
Record Engine : Type := {
  engInspect : list EngineCall → string → option error;
  engPull : list EngineCall → string → Result Body;
  engBuild : list EngineCall → TarStream → ImageBuildOptions → Result Body;
  engSave : list EngineCall → list string → Result string;
  engRemove : list EngineCall → string → RemoveOptions → option error
}.

(** Operations on the working directory and the output file that the host
    may refuse. *)
Inductive FsOp : Type :=
| FsMkdirTemp
| FsMkdirAll (path : list string)
| FsCreate (path : list string)
| FsCopy (path : list string)
| FsWriteFile (path : list string)
| FsCreateOutput (outputFile : string).

(** The host: what the libraries and the operating system answer.
    [hostRange] is the order in which a [range] loop visits a map, which Go
    leaves unspecified; it is some permutation of the entries. *)
Record Host : Type := {
  Separator : ascii;
  IsAbs : string → bool;
  Join : string → string → string;
  Dir : string → string;
  hostLstat : string → option Node;
  hostReadYaml : string → Result DockerCompose;
  hostMarshal : DockerCompose → Result string;
  hostBuildConfig : list (string * Any) → Result BuildConfig;
  hostTempName : string;
  hostFault : FsOp → option error;
  hostClient : option error;
  hostRange : ∀ A : Type, gmap string A → list (string * A);
  hostRange_perm : ∀ (A : Type) (m : gmap string A),
    hostRange A m ≡ₚ map_to_list m
}.

(** ** The state of a run *)

Record World : Type := {
  calls : list EngineCall;
  freshlyPulledImages : gmap string bool;
  stdout : list string;
  tempDir : option Node;
  written : gmap string TarStream
}.

Definition M (A : Type) : Type := World → Result A * World.

Global Instance M_ret : MRet M := λ A a w, (OK a, w).
Global Instance M_bind : MBind M := λ A B f m w,
  match m w with
  | (OK a, w') => f a w'
  | (Err e, w') => (Err e, w')
  end.

Definition throw {A : Type} (e : error) : M A := λ w, (Err e, w).

(** [if err != nil { return fmt.Errorf(prefix + ": %w", err) }] *)
Definition wrapped {A : Type} (prefix : string) (m : M A) : M A := λ w,
  match m w with
  | (OK a, w') => (OK a, w')
  | (Err e, w') => (Err (wrap prefix e), w')
  end.

Definition lift {A : Type} (r : Result A) : M A := λ w, (r, w).

Definition with_calls (w : World) (cs : list EngineCall) : World :=
  {| calls := cs; freshlyPulledImages := freshlyPulledImages w;
     stdout := stdout w; tempDir := tempDir w; written := written w |}.
Definition with_pulled (w : World) (p : gmap string bool) : World :=
  {| calls := calls w; freshlyPulledImages := p;
     stdout := stdout w; tempDir := tempDir w; written := written w |}.
Definition with_stdout (w : World) (out : list string) : World :=
  {| calls := calls w; freshlyPulledImages := freshlyPulledImages w;
     stdout := out; tempDir := tempDir w; written := written w |}.
Definition with_tempDir (w : World) (d : option Node) : World :=
  {| calls := calls w; freshlyPulledImages := freshlyPulledImages w;
     stdout := stdout w; tempDir := d; written := written w |}.
Definition with_written (w : World) (f : gmap string TarStream) : World :=
  {| calls := calls w; freshlyPulledImages := freshlyPulledImages w;
     stdout := stdout w; tempDir := tempDir w; written := f |}.

(** [fmt.Print] and [fmt.Printf], the text already formatted. *)
Definition Print (text : string) : M unit := λ w,
  (OK tt, with_stdout w (stdout w ++ [text])).

(** An engine call: the oracle answers from the history, and the call joins
    the history. *)
Definition engine {A : Type} (c : EngineCall)
    (answer : list EngineCall → A) : M A := λ w,
  (OK (answer (calls w)), with_calls w (calls w ++ [c])).

Definition nl : string := String "010"%char "".

(** ** The bundler (main.go, 58-436) *)

Section Bundler.

Variable H : Host.
Variable E : Engine.

(** [parseComposeFile] (193-205): [os.ReadFile] then [yaml.Unmarshal]. *)
Definition parseComposeFile (filename : string) : M DockerCompose :=
  lift (hostReadYaml H filename).

(** [parseBuildConfig] (277-294).  In the mapping case the value goes
    through [yaml.Marshal] and [yaml.Unmarshal]. *)
Definition parseBuildConfig (build : Any) : Result BuildConfig :=
  match build with
  | AString v => OK {| Context := v; Dockerfile := ""; Args := ∅ |}
  | AMap v => hostBuildConfig H v
  | _ => Err (Errorf "invalid build configuration type")
  end.

(** The decoding loop of [buildImage] (336-355). *)
Fixpoint readBuildOutput (msgs : list JSONMessage) (ending : option error)
    : M unit :=
  match msgs with
  | [] => match ending with None => mret tt | Some err => throw err end
  | msg :: rest =>
      if bool_decide (ErrorText msg ≠ "") then
        throw (Errorf ("build error: " +:+ ErrorText msg))
      else
        (if bool_decide (Stream msg ≠ "") then Print (Stream msg)
         else mret tt) ;;
        readBuildOutput rest ending
  end.

(** [buildImage] (296-358) *)
Definition buildImage (config : BuildConfig) (baseDir imageName : string)
    : M unit :=
  let buildContext :=
    if negb (IsAbs H (Context config)) then Join H baseDir (Context config)
    else Context config in
  let dockerfile :=
    if bool_decide (Dockerfile config = "") then "Dockerfile"
    else Dockerfile config in
  Print ("Building image " +:+ imageName +:+ " from " +:+ buildContext
         +:+ "..." +:+ nl) ;;
  let '(buildContextTar, err) :=
    createBuildContextTar (Separator H) (hostLstat H buildContext) in
  match err with
  | Some err => throw err
  | None =>
      let buildArgs := Args config in
      let buildOptions :=
        {| opt_Dockerfile := dockerfile; Tags := [imageName];
           Remove := true; BuildArgs := buildArgs |} in
      resp ← engine (CallBuild buildContextTar buildOptions)
                    (λ h, engBuild E h buildContextTar buildOptions) ;
      match resp with
      | Err err => throw err
      | OK resp => readBuildOutput (messages resp) (ending resp)
      end
  end.

(** The decoding loop of [pullImageIfNotExists] (380-395). *)
Fixpoint readPullOutput (msgs : list JSONMessage) (ending : option error)
    : M unit :=
  match msgs with
  | [] => match ending with None => mret tt | Some err => throw err end
  | msg :: rest =>
      if bool_decide (ErrorText msg ≠ "") then
        throw (Errorf ("pull error: " +:+ ErrorText msg))
      else readPullOutput rest ending
  end.

(** [pullImageIfNotExists] (360-398) *)
Definition pullImageIfNotExists (imageName : string) : M unit :=
  err ← engine (CallInspect imageName) (λ h, engInspect E h imageName) ;
  match err with
  | None =>
      Print ("Image " +:+ imageName +:+ " already exists locally" +:+ nl)
  | Some _ =>
      Print ("Pulling image " +:+ imageName +:+ "..." +:+ nl) ;;
      reader ← engine (CallPull imageName) (λ h, engPull E h imageName) ;
      match reader with
      | Err err => throw err
      | OK reader =>
          ((λ w, (OK tt,
                  with_pulled w
                    (<[imageName := true]> (freshlyPulledImages w)))) : M unit)
          ;;
          readPullOutput (messages reader) (ending reader)
      end
  end.

(** [processServiceWithBundle] (213-235).  The service is passed by pointer
    in the code and written to; here the service as it is on return comes
    back with the image name. *)
Definition processServiceWithBundle (serviceName : string)
    (service : Service) (baseDir bundleName bundleVersion : string)
    : M (string * Service) :=
  match Build service with
  | Some build =>
      let imageName :=
        "bundles/" +:+ bundleName +:+ "/" +:+ serviceName +:+ ":"
        +:+ bundleVersion in
      match parseBuildConfig build with
      | Err err => throw err
      | OK buildConfig =>
          buildImage buildConfig baseDir imageName ;;
          mret (imageName, set_built service imageName)
      end
  | None =>
      if bool_decide (Image service ≠ "") then
        pullImageIfNotExists (Image service) ;;
        mret (Image service, service)
      else mret ("", service)
  end.

(** The removal loop of the two cleanup functions (248-258 and 264-273),
    which differ by the texts they print: every image is submitted to the
    engine; a failure is printed and the loop goes on. *)
Fixpoint removeImages (removing warning : string) (imageNames : list string)
    : M unit :=
  match imageNames with
  | [] => mret tt
  | imageName :: rest =>
      Print (removing +:+ imageName +:+ "..." +:+ nl) ;;
      let options := {| Force := false; PruneChildren := true |} in
      err ← engine (CallRemove imageName options)
                   (λ h, engRemove E h imageName options) ;
      match err with
      | Some err =>
          Print (warning +:+ imageName +:+ ": " +:+ Error err +:+ nl)
      | None => mret tt
      end ;;
      removeImages removing warning rest
  end.

(** [cleanupImages] (237-261) *)
Definition cleanupImages (compose : DockerCompose) : M unit :=
  let builtImages : gmap string bool :=
    foldl (λ (built : gmap string bool) (p : string * Service),
             let service := p.2 in
             if bool_decide (Image service ≠ "")
                && HasPrefix (Image service) "bundled-"
             then <[Image service := true]> built else built)
          ∅ (hostRange H _ (Services compose)) in
  removeImages "Removing built image " "Warning: failed to remove image "
    (fst <$> hostRange H _ builtImages).

(** [cleanupFreshlyPulledImages] (263-275) *)
Definition cleanupFreshlyPulledImages : M unit := λ w,
  removeImages "Removing freshly pulled image "
    "Warning: failed to remove freshly pulled image "
    (fst <$> hostRange H _ (freshlyPulledImages w)) w.

(** The path of a file of the working directory, as the code builds it with
    [filepath.Join] from the name [os.MkdirTemp] gave. *)
Definition tempPath (names : list string) : string :=
  foldl (Join H) (hostTempName H) names.

Definition fault (op : FsOp) : M unit := λ w,
  match hostFault H op with
  | Some err => (Err err, w)
  | None => (OK tt, w)
  end.

(** A file or directory is put under the working directory, at the top or
    inside one of its directories. *)
Definition put_in_temp (path : list string) (n : Node) : M unit := λ w,
  match tempDir w, path with
  | Some (Directory m r cs), [name] =>
      (OK tt, with_tempDir w (Some (Directory m r (put_child name n cs))))
  | Some (Directory m r cs), [dir; name] =>
      match snd <$> find (λ p : string * Node, String.eqb p.1 dir) cs with
      | Some (Directory m' r' cs') =>
          (OK tt,
           with_tempDir w
             (Some (Directory m r
                (put_child dir (Directory m' r' (put_child name n cs')) cs))))
      | _ => (Err (Errorf "open: no such file or directory"), w)
      end
  | _, _ => (Err (Errorf "open: no such file or directory"), w)
  end.

(** [saveImage] (400-417); [outputPath] is given by its names below the
    working directory. *)
Definition saveImage (imageName : string) (outputPath : list string)
    : M unit :=
  Print ("Saving image " +:+ imageName +:+ " to " +:+ tempPath outputPath
         +:+ "..." +:+ nl) ;;
  reader ← engine (CallSave [imageName]) (λ h, engSave E h [imageName]) ;
  match reader with
  | Err err => throw err
  | OK reader =>
      fault (FsCreate outputPath) ;;
      put_in_temp outputPath (File 438 true "") ;;
      fault (FsCopy outputPath) ;;
      put_in_temp outputPath (File 438 true reader)
  end.

(** [os.WriteFile(path, data, perm)] in the working directory. *)
Definition WriteFile (path : list string) (data : string) (perm : N)
    : M unit :=
  fault (FsWriteFile path) ;;
  put_in_temp path (File perm true data).

(** [updateComposeForBundle] (419-427): the loop body is empty. *)
Definition updateComposeForBundle (compose : DockerCompose)
    (imageMap : gmap string string) : M unit :=
  mret tt.

(** [writeComposeFile] (429-436) *)
Definition writeComposeFile (compose : DockerCompose)
    (outputPath : list string) : M unit :=
  match hostMarshal H compose with
  | Err err => throw err
  | OK data => WriteFile outputPath data 420
  end.

Definition quote : string := String "034"%char "".

Definition lines (ls : list string) : string :=
  foldr (λ l rest, l +:+ nl +:+ rest) "" ls.

(** [createLoadScript] (438-476) *)
Definition createLoadScript : M unit :=
  let script := lines
    [ "#!/bin/bash";
      "set -e";
      "";
      "echo " +:+ quote +:+ "Loading Docker images..." +:+ quote;
      "";
      "# Load all images from the images directory";
      "for image in images/*.tar; do";
      "    if [ -f " +:+ quote +:+ "$image" +:+ quote +:+ " ]; then";
      "        echo " +:+ quote +:+ "Loading $image..." +:+ quote;
      "        docker load -i " +:+ quote +:+ "$image" +:+ quote;
      "    fi";
      "done";
      "";
      "echo " +:+ quote +:+ "All images loaded successfully!" +:+ quote;
      "echo " +:+ quote +:+ "You can now run: docker-compose up -d" +:+ quote
    ] in
  WriteFile ["load-images.sh"] script 493 ;;
  let batScript := lines
    [ "@echo off";
      "echo Loading Docker images...";
      "";
      "for %%f in (images\*.tar) do (";
      "    echo Loading %%f...";
      "    docker load -i " +:+ quote +:+ "%%f" +:+ quote;
      ")";
      "";
      "echo All images loaded successfully!";
      "echo You can now run: docker-compose up -d" ] in
  WriteFile ["load-images.bat"] batScript 493.

(** [createReadme] (478-508) *)
Definition createReadme : M unit :=
  let readme := lines
    [ "# Docker Compose Bundle";
      "";
      "This bundle contains a Docker Compose stack with all required images for offline deployment.";
      "";
      "## Contents";
      "";
      "- docker-compose.yml - The Docker Compose configuration";
      "- images/ - Directory containing all Docker images as tar files";
      "- load-images.sh - Script to load all images (Linux/Mac)";
      "- load-images.bat - Script to load all images (Windows)";
      "";
      "## Usage";
      "";
      "1. Extract this bundle to your desired location";
      "2. Load the Docker images:";
      "   - On Linux/Mac: ./load-images.sh";
      "   - On Windows: load-images.bat";
      "3. Start the stack: docker-compose up -d";
      "";
      "## Requirements";
      "";
      "- Docker Engine installed";
      "- Docker Compose installed";
      "";
      "Note: No internet connection is required after extracting this bundle."
    ] in
  WriteFile ["README.md"] readme 420.

(** [createTarGz] (510-562).  The output file holds what the tar writer
    received, whether the walk ends well or not; the gzip layer only
    compresses it. *)
Definition createTarGz (outputFile : string) : M unit :=
  fault (FsCreateOutput outputFile) ;;
  ((λ w,
    let '(tarWriter, err) := Walk (tempDir w) (tarGzFn (Separator H)) [] in
    let w' := with_written w (<[outputFile := Close tarWriter]> (written w)) in
    match err with
    | Some err => (Err err, w')
    | None => (OK tt, w')
    end) : M unit).

(** The validation of the [x-bundle] entry, lines 104-116 of [Bundle]. *)
Definition validateXBundle (compose : DockerCompose) : Result XBundle :=
  match XBundle_ compose with
  | None => Err (Errorf "missing x-bundle entry in compose file")
  | Some xb =>
      if bool_decide (Name xb = "") then
        Err (Errorf "missing name in x-bundle")
      else if bool_decide (Version xb = "") then
        Err (Errorf "missing version in x-bundle")
      else if negb (isValidSemver (Version xb)) then
        Err (Errorf "invalid version in x-bundle, must be valid semantic versioning (e.g., 1.2.3)")
      else OK xb
  end.

(** The first loop of [Bundle] (124-136), over the services in the order the
    [range] gives them. *)
Fixpoint processServices (services : list (string * Service))
    (baseDir bundleName bundleVersion : string)
    (compose : DockerCompose) (imageMap : gmap string string)
    : M (DockerCompose * gmap string string) :=
  match services with
  | [] => mret (compose, imageMap)
  | (serviceName, service) :: rest =>
      '(imageName, service) ←
        wrapped ("failed to process service " +:+ serviceName)
          (processServiceWithBundle serviceName service baseDir bundleName
             bundleVersion) ;
      if bool_decide (imageName ≠ "") then
        let tarFileName := sanitizeFilename imageName +:+ ".tar" in
        processServices rest baseDir bundleName bundleVersion
          (set_service compose serviceName service)
          (<[imageName := tarFileName]> imageMap)
      else
        processServices rest baseDir bundleName bundleVersion compose imageMap
  end.

(** The second loop of [Bundle] (152-157). *)
Fixpoint saveImages (images : list (string * string)) : M unit :=
  match images with
  | [] => mret tt
  | (imageName, tarFileName) :: rest =>
      wrapped ("failed to save image " +:+ imageName)
        (saveImage imageName ["images"; tarFileName]) ;;
      saveImages rest
  end.

(** [defer os.RemoveAll(tempDir)]: the working directory is gone when the
    function returns, whatever it returns. *)
Definition deferRemoveAll {A : Type} (body : M A) : M A := λ w,
  let '(r, w') := body w in (r, with_tempDir w' None).

(** [if err := f(); err != nil { fmt.Printf(warning + ": %v\n", err) }] *)
Definition warnOnError (warning : string) (m : M unit) : M unit := λ w,
  match m w with
  | (OK _, w') => (OK tt, w')
  | (Err err, w') => Print (warning +:+ ": " +:+ Error err +:+ nl) w'
  end.

(** The last step of [Bundle] (183-189). *)
Definition cleanup (compose : DockerCompose) : M unit :=
  warnOnError "Warning: failed to cleanup some images"
    (cleanupImages compose) ;;
  warnOnError "Warning: failed to cleanup some freshly pulled images"
    cleanupFreshlyPulledImages.

(** The middle of [Bundle] (138-181): the working directory is filled and
    packed into the output file. *)
Definition assemble (compose : DockerCompose) (imageMap : gmap string string)
    (outputFile : string) : M unit :=
  ((λ w, (OK tt, with_tempDir w (Some (Directory 448 true [])))) : M unit) ;;
  wrapped "failed to create images directory"
    (fault (FsMkdirAll ["images"]) ;;
     put_in_temp ["images"] (Directory 493 true [])) ;;
  saveImages (hostRange H _ imageMap) ;;
  updateComposeForBundle compose imageMap ;;
  wrapped "failed to write updated compose file"
    (writeComposeFile compose ["docker-compose.yml"]) ;;
  wrapped "failed to create load script" createLoadScript ;;
  wrapped "failed to create README" createReadme ;;
  wrapped "failed to create bundle" (createTarGz outputFile).

(** [Bundle] (97-191), with its last step as a parameter: [Bundle] itself
    ends with [cleanup], and the run up to the written archive is the same
    function ending with nothing. *)
Definition bundleThen (finish : DockerCompose → M unit)
    (composeFile outputFile : string) : M unit :=
  compose ← wrapped "failed to parse compose file"
              (parseComposeFile composeFile) ;
  xb ← lift (validateXBundle compose) ;
  let bundleName := Name xb in
  let bundleVersion := Version xb in
  '(compose, imageMap) ←
    processServices (hostRange H _ (Services compose)) (Dir H composeFile)
      bundleName bundleVersion compose ∅ ;
  wrapped "failed to create temp directory" (fault FsMkdirTemp) ;;
  deferRemoveAll (assemble compose imageMap outputFile ;; finish compose).

Definition Bundle (composeFile outputFile : string) : M unit :=
  bundleThen cleanup composeFile outputFile.

Definition archiveWritten (composeFile outputFile : string) : M unit :=
  bundleThen (λ _, mret tt) composeFile outputFile.

(** [NewBundler] (84-95): the state of a fresh bundler. *)
Definition NewBundler : World :=
  {| calls := []; freshlyPulledImages := ∅; stdout := []; tempDir := None;
     written := ∅ |}.

(** [main] (58-76), from [os.Args] to the exit status and the final state;
    [log.Fatal] exits with status 1. *)
Definition main (args : list string) : nat * World :=
  match args with
  | [] | [_] =>
      (1, with_stdout NewBundler
            ["Usage: docker-compose-bundler <docker-compose.yml> [output.tar.gz]"
             +:+ nl])
  | _ :: composeFile :: rest =>
      let outputFile :=
        match rest with [] => "bundle.tar.gz" | o :: _ => o end in
      match hostClient H with
      | Some _ => (1, NewBundler)
      | None =>
          match Bundle composeFile outputFile NewBundler with
          | (Err _, w) => (1, w)
          | (OK _, w) =>
              (0, with_stdout w
                    (stdout w ++ ["Successfully created bundle: "
                                  +:+ outputFile +:+ nl]))
          end
      end
  end.

End Bundler.

(** ** The semantic-version grammar, in the words of the specification *)

(** MAJOR, MINOR and PATCH: a number without leading zeros. *)
Definition NumericId (s : string) : Prop :=
  s = "0" ∨
  ∃ d ds, s = String d ds ∧ is_digit19 d = true ∧ all_bytes is_digit ds = true.

(** What follows the dash or the plus sign: word bytes, dots, dashes, at
    least one. *)
Definition Identifier (s : string) : Prop :=
  s ≠ "" ∧ all_bytes is_ident s = true.

(** MAJOR.MINOR.PATCH, with an optional leading v, an optional part
    introduced by a dash and an optional part introduced by a plus sign. *)
Definition SemverGrammar (v : string) : Prop :=
  ∃ lead major minor patch pre build,
    v = lead +:+ major +:+ "." +:+ minor +:+ "." +:+ patch +:+ pre +:+ build
    ∧ (lead = "" ∨ lead = "v")
    ∧ NumericId major ∧ NumericId minor ∧ NumericId patch
    ∧ (pre = "" ∨ ∃ p, pre = "-" +:+ p ∧ Identifier p)
    ∧ (build = "" ∨ ∃ b, build = "+" +:+ b ∧ Identifier b).

(** The nine bytes [sanitizeFilename] is said to replace. *)
Definition unsafe_bytes : list ascii :=
  [ "/"; ":"; "\"; "*"; "?"; "034"; "<"; ">"; "|" ]%char.

Definition is_unsafe (c : ascii) : bool := existsb (Ascii.eqb c) unsafe_bytes.

(** Two names agree up to the replaced bytes and the dash: same length, and
    at every position either the same byte, or on both sides a byte that is
    written as a dash. *)
Fixpoint same_up_to_dashes (s t : string) : Prop :=
  match s, t with
  | EmptyString, EmptyString => True
  | String a s', String b t' =>
      (a = b ∨ ((is_unsafe a = true ∨ a = "-"%char)
                ∧ (is_unsafe b = true ∨ b = "-"%char)))
      ∧ same_up_to_dashes s' t'
  | _, _ => False
  end.

(** ** Sample manifests *)

Definition service (image : string) (build : option Any) : Service :=
  {| Image := image; Build := build; Environment := None; Volumes := [];
     Ports := []; Networks := []; DependsOn := None; Command := None;
     Entrypoint := None; Restart := ""; Extra := [] |}.

Definition manifest (xb : option XBundle) (services : list (string * Service))
    : DockerCompose :=
  {| ComposeVersion := ""; Services := list_to_map services;
     TopNetworks := []; TopVolumes := []; Configs := []; Secrets := [];
     XBundle_ := xb |}.

Definition exampleBundle : XBundle :=
  {| Name := "example"; Version := "0.0.1" |}.

(** ** A sample host and a sample engine *)

(** The string held under a key of a mapping, the empty string when there
    is none. *)
Definition stringField (key : string) (m : list (string * Any)) : string :=
  match find (λ p : string * Any, String.eqb p.1 key) m with
  | Some (_, AString s) => s
  | _ => ""
  end.

(** The lexical path functions of [path/filepath] on a host whose separator
    is the slash. *)
Module UnixPath.

Fixpoint split_names (s cur : string) : list string :=
  match s with
  | EmptyString => [cur]
  | String c s' =>
      if Ascii.eqb c "/"%char then cur :: split_names s' ""
      else split_names s' (cur +:+ String c "")
  end.

(** One name more on a cleaned path, held last name first. *)
Definition push_name (rooted : bool) (stack : list string) (name : string)
    : list string :=
  if bool_decide (name = "") || bool_decide (name = ".") then stack
  else if bool_decide (name = "..") then
    match stack with
    | top :: below => if bool_decide (top = "..") then ".." :: stack else below
    | [] => if rooted then [] else [".."]
    end
  else name :: stack.

Definition IsAbs (path : string) : bool := HasPrefix path "/".

Definition Clean (path : string) : string :=
  let names :=
    reverse (foldl (push_name (IsAbs path)) [] (split_names path "")) in
  if IsAbs path then "/" +:+ String.concat "/" names
  else match names with [] => "." | _ => String.concat "/" names end.

Definition Join (a b : string) : string :=
  if bool_decide (a = "") then (if bool_decide (b = "") then "" else Clean b)
  else if bool_decide (b = "") then Clean a
  else Clean (a +:+ "/" +:+ b).

Definition Dir (path : string) : string :=
  match reverse (split_names path "") with
  | _ :: (_ :: _) as before =>
      Clean (String.concat "/" (reverse before) +:+ "/")
  | _ => "."
  end.

End UnixPath.

(** A host with the slash as separator, on which no operation fails. *)
Definition sampleHost (read : string → Result DockerCompose)
    (fs : string → option Node) : Host :=
  {| Separator := "/"%char;
     IsAbs := UnixPath.IsAbs;
     Join := UnixPath.Join;
     Dir := UnixPath.Dir;
     hostLstat := fs;
     hostReadYaml := read;
     hostMarshal := λ c, OK "x-bundle: ...";
     hostBuildConfig := λ m,
       OK {| Context := stringField "context" m;
             Dockerfile := stringField "dockerfile" m; Args := ∅ |};
     hostTempName := "/tmp/docker-compose-bundle-1";
     hostFault := λ _, None;
     hostClient := None;
     hostRange := λ A m, map_to_list m;
     hostRange_perm := λ A m, reflexivity _ |}.

Definition emptyBody : Body := {| messages := []; ending := None |}.

(** An engine that holds the images of [present], builds, pulls and saves
    whatever it is asked to, and refuses every removal when [stubborn]. *)
Definition sampleEngine (present : list string) (stubborn : bool) : Engine :=
  {| engInspect := λ _ imageName,
       if bool_decide (imageName ∈ present) then None
       else Some (Errorf "No such image");
     engPull := λ _ _, OK emptyBody;
     engBuild := λ _ _ _, OK emptyBody;
     engSave := λ _ imageNames, OK (String.concat "," imageNames);
     engRemove := λ _ _ _,
       if stubborn then Some (Errorf "conflict: image is in use") else None |}.

(** The image names submitted to the engine for building, saving and
    removal, in the order of the calls. *)
Definition builtTags (cs : list EngineCall) : list string :=
  cs ≫= λ c, match c with CallBuild _ options => Tags options | _ => [] end.
Definition savedNames (cs : list EngineCall) : list string :=
  cs ≫= λ c, match c with CallSave imageNames => imageNames | _ => [] end.
Definition removedNames (cs : list EngineCall) : list string :=
  cs ≫= λ c, match c with CallRemove imageName _ => [imageName] | _ => [] end.

(** The options of every removal the code asks for. *)
Definition removeOptions : RemoveOptions :=
  {| Force := false; PruneChildren := true |}.

(** An engine whose removals answer as [remove] says, and which is
    otherwise [E]. *)
Definition with_remove (E : Engine)
    (remove : list EngineCall → string → RemoveOptions → option error)
    : Engine :=
  {| engInspect := engInspect E; engPull := engPull E;
     engBuild := engBuild E; engSave := engSave E; engRemove := remove |}.

(** A response body that ends with [io.EOF] and holds no error frame. *)
Definition cleanBody (body : Body) : Prop :=
  ending body = None ∧ Forall (λ msg, ErrorText msg = "") (messages body).

(** The manifest of the example directory of the repository: a service
    with a build spec and two services with an image reference. *)
Definition exampleManifest : DockerCompose :=
  manifest (Some exampleBundle)
    [ ("web",
       service ""
         (Some (AMap [("context", AString "./web");
                      ("dockerfile", AString "Dockerfile")])));
      ("redis", service "redis:7-alpine" None);
      ("postgres", service "postgres:15" None) ].

(** A build context with a [.gitignore] file next to the sources. *)
Definition exampleContext : Node :=
  Directory 493 true
    [ ("server.js", File 420 true "const http = require('http');");
      ("Dockerfile", File 420 true "FROM node:20-alpine");
      (".gitignore", File 420 true "node_modules");
      (".dockerignore", File 420 true "node_modules");
      (".git", Directory 493 true [("HEAD", File 420 true "ref: main")]) ].

(** A build context one file of which cannot be read. *)
Definition lockedContext : Node :=
  Directory 493 true
    [ ("Dockerfile", File 420 true "FROM scratch");
      ("secret.key", File 384 false "0123456789");
      ("server.js", File 420 true "const http = require('http');") ].

(** Two services whose image references differ and have the same sanitized
    form. *)
Definition collidingManifest : DockerCompose :=
  manifest (Some exampleBundle)
    [ ("app", service "myorg/app:1.0" None);
      ("legacy", service "myorg-app:1.0" None) ].

Definition exampleHost (compose : DockerCompose) : Host :=
  sampleHost (λ _, OK compose)
    (λ path, if bool_decide (path = "web") then Some exampleContext
             else None).

Definition exampleArgs : list string :=
  ["docker-compose-bundler"; "docker-compose.yml"; "bundle.tar.gz"].

(** The runs of [main] on the example manifest and on the colliding one,
    with an engine that has no image yet. *)
Definition exampleRun : nat * World :=
  main (exampleHost exampleManifest) (sampleEngine [] false) exampleArgs.

Definition collidingRun : nat * World :=
  main (exampleHost collidingManifest) (sampleEngine [] false) exampleArgs.

(** A manifest whose version has two numbers only, and one with a single
    service that has an image reference. *)
Definition badVersionManifest : DockerCompose :=
  manifest (Some {| Name := "example"; Version := "1.2" |})
    [("redis", service "redis:7-alpine" None)].

Definition redisManifest : DockerCompose :=
  manifest (Some exampleBundle) [("redis", service "redis:7-alpine" None)].

(** The answer of an engine that refuses every removal. *)
Definition refuseRemoval
    : list EngineCall → string → RemoveOptions → option error :=
  λ _ _ _, Some (Errorf "conflict: image is in use").

(** The names of the members of an archive. *)
Definition memberNames (t : TarStream) : list string :=
  hdr_name <$> entries t.

(** An entry of a listing that is a regular file that can be read. *)
Definition plainFile (p : string * Node) : Prop :=
  ∃ mode content, p.2 = File mode true content.

(** The working directory while the images are saved: it holds the
    directory of images, with the listing [imgs], and nothing else. *)
Definition imagesOnly (w : World) (imgs : list (string * Node)) : Prop :=
  tempDir w = Some (Directory 448 true [("images", Directory 493 true imgs)]).

(** ** Vocabulary of the further facts *)

(** The image names the engine was asked to pull. *)
Definition pulledNames (cs : list EngineCall) : list string :=
  cs ≫= λ c, match c with CallPull imageName => [imageName] | _ => [] end.

(** A computation keeps a relation between the state it starts from and
    the state it ends in, whatever it returns. *)
Definition keeps {A : Type} (R : relation World) (m : M A) : Prop :=
  ∀ w, R w (snd (m w)).

(** From [w] to [w'] the engine was asked for some more operations, none of
    them a removal, and every image that is newly recorded as freshly
    pulled is one of those the engine was asked to pull. *)
Definition onlyPulls (w w' : World) : Prop :=
  ∃ cs, calls w' = calls w ++ cs
        ∧ removedNames cs = []
        ∧ ∀ imageName,
            is_Some (freshlyPulledImages w' !! imageName) →
            is_Some (freshlyPulledImages w !! imageName)
            ∨ imageName ∈ pulledNames cs.

(** From [w] to [w'] neither the working directory nor the files written
    outside it have changed. *)
Definition sameFiles (w w' : World) : Prop :=
  tempDir w' = tempDir w ∧ written w' = written w.

(** The texts the decoding loop of [buildImage] prints for a list of
    frames: the stream fields that are not empty. *)
Definition streamTexts (msgs : list JSONMessage) : list string :=
  filter (λ text, text ≠ "") (Stream <$> msgs).

(** The reference under which the resolver builds a service. *)
Definition syntheticReference (bundleName serviceName bundleVersion : string)
    : string :=
  "bundles/" +:+ bundleName +:+ "/" +:+ serviceName +:+ ":" +:+ bundleVersion.

(** Two manifests with the same sections apart from the services. *)
Definition sameSections (c c' : DockerCompose) : Prop :=
  ComposeVersion c' = ComposeVersion c
  ∧ TopNetworks c' = TopNetworks c
  ∧ TopVolumes c' = TopVolumes c
  ∧ Configs c' = Configs c
  ∧ Secrets c' = Secrets c
  ∧ XBundle_ c' = XBundle_ c.

(** From [w] to [w'] the engine was asked for nothing. *)
Definition sameCalls (w w' : World) : Prop := calls w' = calls w.

(** The member a walk callback writes for a node: the header made from
    the file information, and the bytes of a regular file. *)
Definition member (name : string) (n : Node) : TarEntry :=
  {| hdr_name := name; hdr_dir := IsDir n; hdr_mode := Mode n;
     hdr_size := Size n;
     body := match n with File _ _ c => c | Directory _ _ _ => "" end |}.

(** The members of a tree that sits at [path] below the root of a walk:
    the node itself, then what its listing holds, entry after entry. *)
Fixpoint members (sep : ascii) (path : list string) (n : Node)
    : list TarEntry :=
  member (ToSlash sep (Rel sep path)) n
  :: match n with
     | File _ _ _ => []
     | Directory _ _ cs =>
         flat_map (λ p : string * Node, members sep (path ++ [p.1]) p.2) cs
     end.

(** The members of the entries of a listing that sits at the root. *)
Definition members_below (sep : ascii) (cs : list (string * Node))
    : list TarEntry :=
  flat_map (λ p : string * Node, members sep [p.1] p.2) cs.

(** Every file and every directory of a tree can be opened. *)
Fixpoint all_readable (n : Node) : bool :=
  match n with
  | File _ r _ => r
  | Directory _ r cs =>
      r && forallb (λ p : string * Node, all_readable p.2) cs
  end.

Definition children (n : Node) : list (string * Node) :=
  match n with File _ _ _ => [] | Directory _ _ cs => cs end.

(** The entries at the root of a build context that reach the archive: a
    directory whose name begins with .git is passed over, and a file whose
    name begins with .git ends the listing. *)
Fixpoint contextChildren (cs : list (string * Node))
    : list (string * Node) :=
  match cs with
  | [] => []
  | (name, n) :: rest =>
      if HasPrefix name ".git" then
        if IsDir n then contextChildren rest else []
      else (name, n) :: contextChildren rest
  end.

(** The separators of the hosts Go runs on. *)
Definition pathSeparator (sep : ascii) : Prop :=
  sep = "/"%char ∨ sep = "\"%char.

(** An entry of the directory of images as [saveImage] leaves it: a file
    made by [os.Create], which asks for mode 0666. *)
Definition savedFile (p : string * Node) : Prop :=
  ∃ content, p.2 = File 438 true content.

(** ** Samples for the further facts *)

(** An answer of the engine that goes wrong: a line of output, an error
    frame, and a frame after it. *)
Definition logFrame : JSONMessage :=
  {| Stream := "Step 1/2 : FROM node:20-alpine";
     Status := "Pulling from library/redis"; ErrorText := "" |}.
Definition errorFrame : JSONMessage :=
  {| Stream := ""; Status := ""; ErrorText := "manifest unknown" |}.
Definition lateFrame : JSONMessage :=
  {| Stream := "Step 2/2 : COPY . ."; Status := "Pull complete";
     ErrorText := "" |}.
Definition errorBody : Body :=
  {| messages := [logFrame; errorFrame; lateFrame]; ending := None |}.

(** An engine that holds no image and answers every build and every pull
    with [errorBody]. *)
Definition failingEngine : Engine :=
  {| engInspect := λ _ _, Some (Errorf "No such image");
     engPull := λ _ _, OK errorBody;
     engBuild := λ _ _ _, OK errorBody;
     engSave := λ _ imageNames, OK (String.concat "," imageNames);
     engRemove := λ _ _ _, None |}.

(** The build spec of the service web of the example, what
    [parseBuildConfig] makes of it, and a service whose build spec is a
    sequence. *)
Definition webBuild : Any :=
  AMap [("context", AString "./web"); ("dockerfile", AString "Dockerfile")].
Definition webConfig : BuildConfig :=
  {| Context := "./web"; Dockerfile := "Dockerfile"; Args := ∅ |}.
Definition webService : Service := service "" (Some webBuild).
Definition oddService : Service := service "" (Some (ASeq [])).

(** A bundler whose working directory is the example context. *)
Definition contextWorld : World :=
  with_tempDir NewBundler (Some exampleContext).

(** What a removal loop prints for a list of images, given the answers of
    the engine to removals: for every image the line that announces the
    removal and, when the engine answers with an error, the warning that
    holds the name and the error; [history] is the history of calls when
    the loop begins. *)
Fixpoint removalLog (removing warning : string)
    (remove : list EngineCall → string → RemoveOptions → option error)
    (history : list EngineCall) (imageNames : list string) : list string :=
  match imageNames with
  | [] => []
  | imageName :: rest =>
      [removing +:+ imageName +:+ "..." +:+ nl]
      ++ match remove history imageName removeOptions with
         | Some err => [warning +:+ imageName +:+ ": " +:+ Error err +:+ nl]
         | None => []
         end
      ++ removalLog removing warning remove
           (history ++ [CallRemove imageName removeOptions]) rest
  end.

(** * Facts *)

(** ** Strings *)

Lemma string_app_cons c (s t : string) : String c s +:+ t = String c (s +:+ t).
Proof. reflexivity. Qed.

Lemma string_app_nil_l (s : string) : "" +:+ s = s.
Proof. reflexivity. Qed.

Lemma string_app_nil_r (s : string) : s +:+ "" = s.
Proof. induction s as [|c s IH]; [done|]. by rewrite string_app_cons, IH. Qed.

Lemma string_app_assoc (s t u : string) : (s +:+ t) +:+ u = s +:+ t +:+ u.
Proof. induction s as [|c s IH]; [done|]. by rewrite !string_app_cons, IH. Qed.

Lemma string_app_eq_nil (s t : string) : s +:+ t = "" → s = "" ∧ t = "".
Proof. destruct s; [done|]. rewrite string_app_cons. discriminate. Qed.

Lemma string_app_eq_cons (s t : string) c w :
  s +:+ t = String c w →
  (s = "" ∧ t = String c w) ∨ (∃ s', s = String c s' ∧ w = s' +:+ t).
Proof.
  destruct s as [|a s]; [by left|].
  rewrite string_app_cons. intros [= -> <-]. right. by exists s.
Qed.

Lemma all_bytes_app p s t :
  all_bytes p (s +:+ t) = all_bytes p s && all_bytes p t.
Proof.
  induction s as [|c s IH]; [done|].
  rewrite string_app_cons. cbn. by rewrite IH, andb_assoc.
Qed.

Lemma ascii_eqb_true (a b : ascii) : Ascii.eqb a b = true ↔ a = b.
Proof. apply Ascii.eqb_eq. Qed.

(** ** The matcher decides the language *)

Lemma Lang_nil_nullable r s : Lang r s → s = "" → nullable r = true.
Proof.
  induction 1 as [| | |r s u v _ IHr _ IHs|r s u _ IH|r s u _ IH| |r u v _ _ _ _];
    intros Hs; try done; cbn.
  - apply string_app_eq_nil in Hs as [-> ->]. by rewrite IHr, IHs.
  - by rewrite IH.
  - rewrite IH by done. by rewrite orb_true_r.
Qed.

Lemma nullable_Lang r : nullable r = true ↔ Lang r "".
Proof.
  split; [|intros HL; by eapply Lang_nil_nullable].
  induction r as [| | | |r IHr s IHs|r IHr s IHs|r IH]; cbn; try done.
  - intros _. constructor.
  - intros [Hr Hs]%andb_true_iff.
    change (Lang (Cat r s) ("" +:+ "")). constructor; auto.
  - intros [Hr|Hs]%orb_true_iff; [apply L_AltL|apply L_AltR]; auto.
  - intros _. constructor.
Qed.

Lemma deriv_sound c r : ∀ s, Lang (deriv c r) s → Lang r (String c s).
Proof.
  induction r as [| |d|p|r IHr s0 IHs|r IHr s0 IHs|r IH]; cbn; intros s HL.
  - inversion HL.
  - inversion HL.
  - destruct (Ascii.eqb c d) eqn:Hcd; inversion HL; subst.
    apply ascii_eqb_true in Hcd as ->. constructor.
  - destruct (p c) eqn:Hp; inversion HL; subst. by constructor.
  - assert (Hcat : ∀ w, Lang (Cat (deriv c r) s0) w →
                        Lang (Cat r s0) (String c w)).
    { intros w Hw. inversion Hw as [| | |? ? u v Hu Hv| | | |]; subst.
      rewrite <- string_app_cons. constructor; auto. }
    destruct (nullable r) eqn:Hn; [|by apply Hcat].
    inversion HL; subst; [by apply Hcat|].
    change (Lang (Cat r s0) ("" +:+ String c s)).
    constructor; [by apply nullable_Lang|auto].
  - inversion HL; subst; [apply L_AltL|apply L_AltR]; auto.
  - inversion HL as [| | |? ? u v Hu Hv| | | |]; subst.
    rewrite <- string_app_cons. constructor; auto.
Qed.

Lemma deriv_complete c r w :
  Lang r w → ∀ s, w = String c s → Lang (deriv c r) s.
Proof.
  induction 1 as [|d|p d Hp|r s u v Hu IHu Hv IHv|r s u _ IH|r s u _ IH|
                  |r u v Hu IHu Hv IHv]; intros s0 Hw; cbn; try done.
  - injection Hw as -> <-. rewrite Ascii.eqb_refl. constructor.
  - injection Hw as -> <-. rewrite Hp. constructor.
  - apply string_app_eq_cons in Hw as [[-> ->]|(u' & -> & ->)].
    + rewrite (proj2 (nullable_Lang r) Hu). apply L_AltR. by apply IHv.
    + assert (Lang (Cat (deriv c r) s) (u' +:+ v)) by (constructor; auto).
      destruct (nullable r); [by apply L_AltL|done].
  - apply L_AltL. by apply IH.
  - apply L_AltR. by apply IH.
  - apply string_app_eq_cons in Hw as [[-> ->]|(u' & -> & ->)].
    + by apply IHv.
    + constructor; auto.
Qed.

Lemma matches_Lang r s : matches r s = true ↔ Lang r s.
Proof.
  revert r. induction s as [|c s IH]; intros r; cbn.
  - apply nullable_Lang.
  - rewrite IH. split; [apply deriv_sound|].
    intros HL. by eapply deriv_complete.
Qed.

(** ** The language of the pattern is the grammar *)

Lemma Lang_Byte c s : Lang (Byte c) s ↔ s = String c "".
Proof. split; [by inversion 1|intros ->; constructor]. Qed.

Lemma Lang_Class p s : Lang (Class p) s ↔ ∃ c, s = String c "" ∧ p c = true.
Proof.
  split; [inversion 1; subst; eauto|intros (c & -> & Hc); by constructor].
Qed.

Lemma Lang_Cat r t s :
  Lang (Cat r t) s ↔ ∃ u v, s = u +:+ v ∧ Lang r u ∧ Lang t v.
Proof.
  split; [inversion 1; subst; eauto|intros (u & v & -> & Hu & Hv)].
  by constructor.
Qed.

Lemma Lang_Opt r s : Lang (Opt r) s ↔ s = "" ∨ Lang r s.
Proof.
  unfold Opt. split.
  - inversion 1 as [| | | |? ? ? Hr|? ? ? He| |]; subst; [by right|].
    inversion He. by left.
  - intros [-> | Hr]; [apply L_AltR; constructor|by apply L_AltL].
Qed.

Lemma Lang_Star_all p r s :
  Lang r s → r = Star (Class p) → all_bytes p s = true.
Proof.
  induction 1 as [| | | | | | |r u v Hu _ Hv IHv]; intros Hr; try done.
  injection Hr as ->. apply Lang_Class in Hu as (c & -> & Hc).
  rewrite string_app_cons. cbn. rewrite Hc. by apply IHv.
Qed.

Lemma Lang_Star_Class p s : Lang (Star (Class p)) s ↔ all_bytes p s = true.
Proof.
  split; [intros HL; by eapply Lang_Star_all|].
  induction s as [|c s IH]; cbn; [constructor|].
  intros [Hc Hs]%andb_true_iff.
  change (Lang (Star (Class p)) (String c "" +:+ s)).
  constructor; [by constructor|auto].
Qed.

Lemma Lang_Plus_Class p s :
  Lang (Plus (Class p)) s ↔ s ≠ "" ∧ all_bytes p s = true.
Proof.
  unfold Plus. rewrite Lang_Cat. split.
  - intros (u & v & -> & (c & -> & Hc)%Lang_Class & Hv%Lang_Star_Class).
    rewrite string_app_cons, string_app_nil_l. cbn. by rewrite Hc, Hv.
  - destruct s as [|c s]; [by intros [? _]|].
    cbn. intros [_ [Hc Hs]%andb_true_iff].
    exists (String c ""), s. split; [done|].
    split; [apply Lang_Class; eauto|by apply Lang_Star_Class].
Qed.

Lemma Lang_numeric s : Lang numericRegex s ↔ NumericId s.
Proof.
  unfold numericRegex, NumericId. split.
  - inversion 1 as [| | | |? ? ? H0|? ? ? Hn| |]; subst.
    + left. by apply Lang_Byte.
    + right. apply Lang_Cat in Hn
        as (u & v & -> & (d & -> & Hd)%Lang_Class & Hv%Lang_Star_Class).
      by exists d, v.
  - intros [-> | (d & ds & -> & Hd & Hds)].
    + apply L_AltL. constructor.
    + apply L_AltR. change (String d ds) with (String d "" +:+ ds).
      constructor; [by constructor|by apply Lang_Star_Class].
Qed.

Lemma Lang_marked c s :
  Lang (Cat (Byte c) (Plus (Class is_ident))) s ↔
  ∃ p, s = String c "" +:+ p ∧ Identifier p.
Proof.
  rewrite Lang_Cat. unfold Identifier. split.
  - intros (u & v & -> & ->%Lang_Byte & Hv%Lang_Plus_Class). eauto.
  - intros (p & -> & Hp). exists (String c ""), p.
    split; [done|]. split; [constructor|by apply Lang_Plus_Class].
Qed.

Lemma Lang_optional_marked c s :
  Lang (Opt (Cat (Byte c) (Plus (Class is_ident)))) s ↔
  s = "" ∨ ∃ p, s = String c "" +:+ p ∧ Identifier p.
Proof. by rewrite Lang_Opt, Lang_marked. Qed.

Lemma isValidSemver_grammar (version : string) :
  isValidSemver version = true ↔ SemverGrammar version.
Proof.
  unfold isValidSemver, MatchString, semverRegex, SemverGrammar.
  rewrite matches_Lang. split.
  - intros (lead & r1 & -> & Hlead & H1)%Lang_Cat.
    apply Lang_Cat in H1 as (major & r2 & -> & Hmajor & H2).
    apply Lang_Cat in H2 as (d1 & r3 & -> & ->%Lang_Byte & H3).
    apply Lang_Cat in H3 as (minor & r4 & -> & Hminor & H4).
    apply Lang_Cat in H4 as (d2 & r5 & -> & ->%Lang_Byte & H5).
    apply Lang_Cat in H5 as (patch & r6 & -> & Hpatch & H6).
    apply Lang_Cat in H6 as (pre & build & -> & Hpre & Hbuild).
    exists lead, major, minor, patch, pre, build.
    split; [done|].
    split; [apply Lang_Opt in Hlead as [-> | ->%Lang_Byte]; auto|].
    repeat (split; [by apply Lang_numeric|]).
    split; by apply Lang_optional_marked.
  - intros (lead & major & minor & patch & pre & build & -> & Hlead
            & Hmajor & Hminor & Hpatch & Hpre & Hbuild).
    constructor.
    { apply Lang_Opt. destruct Hlead as [Hl|Hl]; rewrite Hl; [by left|right].
      constructor. }
    constructor; [by apply Lang_numeric|].
    change "." with (String "."%char ""). constructor; [constructor|].
    constructor; [by apply Lang_numeric|].
    constructor; [constructor|].
    constructor; [by apply Lang_numeric|].
    constructor; by apply Lang_optional_marked.
Qed.

Example semver_plain : isValidSemver "1.2.3" = true.
Proof. reflexivity. Qed.

Example semver_full : isValidSemver "v0.10.0-rc.1+build-5" = true.
Proof. reflexivity. Qed.

Example semver_leading_zero : isValidSemver "01.2.3" = false.
Proof. reflexivity. Qed.

Example semver_two_numbers : isValidSemver "1.2" = false.
Proof. reflexivity. Qed.

Example semver_trailing_newline :
  isValidSemver ("1.2.3" +:+ nl) = false.
Proof. reflexivity. Qed.

(** ** Validation of the bundle metadata *)

Lemma validateXBundle_ok compose xb :
  XBundle_ compose = Some xb → Name xb ≠ "" → SemverGrammar (Version xb) →
  validateXBundle compose = OK xb.
Proof.
  unfold validateXBundle. intros -> Hname Hver%isValidSemver_grammar.
  rewrite bool_decide_eq_false_2 by done.
  destruct (Version xb) eqn:Hv; [done|].
  rewrite bool_decide_eq_false_2 by done. by rewrite Hver.
Qed.

Lemma validateXBundle_absent compose :
  XBundle_ compose = None →
  validateXBundle compose
  = Err (Errorf "missing x-bundle entry in compose file").
Proof. unfold validateXBundle. by intros ->. Qed.

Lemma validateXBundle_bad compose xb :
  XBundle_ compose = Some xb →
  Name xb = "" ∨ Version xb = "" ∨ ¬ SemverGrammar (Version xb) →
  ∃ msg, validateXBundle compose = Err (Errorf msg).
Proof.
  unfold validateXBundle. intros -> Hbad.
  repeat case_bool_decide; eauto.
  destruct (isValidSemver (Version xb)) eqn:Hver; cbn; eauto.
  apply isValidSemver_grammar in Hver. by destruct Hbad as [?|[?|?]].
Qed.

(** C2.  Validation succeeds for a manifest whose [x-bundle] entry is there
    with a name that is not empty and a version in the grammar
    MAJOR.MINOR.PATCH with optional leading v, dash part and plus part; it
    fails with an error when the entry is absent, when the name is empty,
    when the version is empty and when the version is outside the grammar,
    as "1.2", "abc" and "1.2.3.4" are. *)
Theorem validateXBundle_decides (compose : DockerCompose) :
  (∀ xb, XBundle_ compose = Some xb → Name xb ≠ "" →
         SemverGrammar (Version xb) → validateXBundle compose = OK xb)
  ∧ (XBundle_ compose = None →
     validateXBundle compose
     = Err (Errorf "missing x-bundle entry in compose file"))
  ∧ (∀ xb, XBundle_ compose = Some xb →
           Name xb = "" ∨ Version xb = "" ∨ ¬ SemverGrammar (Version xb) →
           ∃ msg, validateXBundle compose = Err (Errorf msg))
  ∧ ¬ SemverGrammar "" ∧ ¬ SemverGrammar "1.2" ∧ ¬ SemverGrammar "abc"
  ∧ ¬ SemverGrammar "1.2.3.4".
Proof.
  split; [apply validateXBundle_ok|].
  split; [apply validateXBundle_absent|].
  split; [apply validateXBundle_bad|].
  repeat split; intros Hg%isValidSemver_grammar; discriminate.
Qed.

Lemma validateXBundle_decides_witness :
  validateXBundle (manifest (Some exampleBundle) []) = OK exampleBundle
  ∧ ∃ msg,
      validateXBundle
        (manifest (Some {| Name := "example"; Version := "1.2" |}) [])
      = Err (Errorf msg).
Proof.
  split.
  - apply (validateXBundle_decides (manifest (Some exampleBundle) []));
      [reflexivity|discriminate|].
    apply isValidSemver_grammar. reflexivity.
  - eapply (validateXBundle_decides
              (manifest (Some {| Name := "example"; Version := "1.2" |}) []));
      [reflexivity|].
    right. right. intros Hg%isValidSemver_grammar. discriminate.
Defined.

(** ** [sanitizeFilename] *)

Lemma replace_byte_unsafe (c : ascii) :
  replace_byte
    [ ("/", "-"); (":", "-"); ("\", "-"); ("*", "-"); ("?", "-");
      ("034", "-"); ("<", "-"); (">", "-"); ("|", "-") ]%char c
  = if is_unsafe c then "-"%char else c.
Proof. by destruct c as [[] [] [] [] [] [] [] []]. Qed.

Lemma sanitize_cons c s :
  sanitizeFilename (String c s)
  = String (if is_unsafe c then "-"%char else c) (sanitizeFilename s).
Proof.
  unfold sanitizeFilename. cbn [Replace]. by rewrite replace_byte_unsafe.
Qed.

Lemma sanitize_length s : String.length (sanitizeFilename s) = String.length s.
Proof.
  induction s as [|c s IH]; [done|]. rewrite sanitize_cons. cbn. by rewrite IH.
Qed.

Lemma sanitize_get s : ∀ i c,
  String.get i s = Some c →
  String.get i (sanitizeFilename s)
  = Some (if is_unsafe c then "-"%char else c).
Proof.
  induction s as [|a s IH]; intros i c; [done|].
  rewrite sanitize_cons. destruct i as [|i]; cbn; [by intros [= ->]|apply IH].
Qed.

Lemma sanitize_idempotent s :
  sanitizeFilename (sanitizeFilename s) = sanitizeFilename s.
Proof.
  induction s as [|c s IH]; [done|]. rewrite !sanitize_cons, IH. f_equal.
  by destruct (is_unsafe c) eqn:Hc; [|rewrite Hc].
Qed.

Lemma sanitize_clean s :
  all_bytes (λ c, negb (is_unsafe c)) s = true → sanitizeFilename s = s.
Proof.
  induction s as [|c s IH]; [done|]. cbn [all_bytes].
  intros [Hc Hs]%andb_true_iff. rewrite sanitize_cons, IH by done.
  by destruct (is_unsafe c).
Qed.

Lemma sanitize_kernel s : ∀ t,
  sanitizeFilename s = sanitizeFilename t ↔ same_up_to_dashes s t.
Proof.
  induction s as [|a s IH]; intros [|b t]; rewrite ?sanitize_cons;
    cbn [same_up_to_dashes];
    try (split; [discriminate|done]); [done|].
  rewrite <- IH. split.
  - intros [= Hab Hst]. split; [|done].
    destruct (is_unsafe a) eqn:Ha, (is_unsafe b) eqn:Hb; subst; auto.
  - intros [Hab ->]. f_equal.
    destruct Hab as [-> | [[Ha| ->] [Hb| ->]]]; rewrite ?Ha, ?Hb; try done;
      by repeat case_match.
Qed.

(** C5, as stated, fails: two names made of replaced bytes alone, and
    different, have the same sanitized form. *)
Lemma sanitizeFilename_not_injective :
  sanitizeFilename "/" = sanitizeFilename ":" ∧ "/" ≠ ":".
Proof. split; [reflexivity|discriminate]. Qed.

(** C5, amended.  [sanitizeFilename] keeps the length of its input, writes a
    dash for each of the nine bytes and leaves every other byte; it is
    idempotent; two names have the same sanitized form exactly when they
    agree up to the nine bytes and the dash; so it is injective on the names
    that hold none of the nine bytes, and not beyond. *)
Theorem sanitizeFilename_spec (s t : string) :
  String.length (sanitizeFilename s) = String.length s
  ∧ (∀ i c, String.get i s = Some c →
       String.get i (sanitizeFilename s)
       = Some (if is_unsafe c then "-"%char else c))
  ∧ sanitizeFilename (sanitizeFilename s) = sanitizeFilename s
  ∧ (sanitizeFilename s = sanitizeFilename t ↔ same_up_to_dashes s t)
  ∧ (all_bytes (λ c, negb (is_unsafe c)) s = true →
     all_bytes (λ c, negb (is_unsafe c)) t = true →
     sanitizeFilename s = sanitizeFilename t → s = t).
Proof.
  split; [apply sanitize_length|].
  split; [apply sanitize_get|].
  split; [apply sanitize_idempotent|].
  split; [apply sanitize_kernel|].
  intros Hs Ht. by rewrite !sanitize_clean.
Qed.

Lemma sanitizeFilename_spec_witness :
  String.get 8 (sanitizeFilename "registry/app:1.0") = Some "-"%char
  ∧ sanitizeFilename "registry/app:1.0" = "registry-app-1.0"
  ∧ sanitizeFilename "registry/app:1.0" = sanitizeFilename "registry:app-1.0"
  ∧ "redis-7" = "redis-7".
Proof.
  pose proof (sanitizeFilename_spec "registry/app:1.0" "registry:app-1.0")
    as (_ & Hget & _ & Hker & _).
  pose proof (sanitizeFilename_spec "redis-7" "redis-7") as (_ & _ & _ & _ & Hinj).
  split; [exact (Hget 8 "/"%char eq_refl)|].
  split; [reflexivity|].
  split; [apply Hker; cbn; intuition|].
  apply Hinj; reflexivity.
Defined.

(** ** Runs of the bundler *)

(** Unfolding of the monad of runs. *)
Ltac run :=
  unfold mbind, M_bind, mret, M_ret, throw, lift, wrapped, engine, Print,
    fault in *; cbn beta iota in *.

Section ValidationFirst.

Variable H : Host.
Variable E : Engine.

(** A run that stops at the validation leaves the world as it found it. *)
Lemma bundleThen_invalid finish composeFile outputFile w compose e :
  hostReadYaml H composeFile = OK compose →
  validateXBundle compose = Err e →
  bundleThen H E finish composeFile outputFile w = (Err e, w).
Proof.
  intros Hread Hval. unfold bundleThen, parseComposeFile. run.
  by rewrite Hread, Hval.
Qed.

Lemma bundleThen_unparsed finish composeFile outputFile w e :
  hostReadYaml H composeFile = Err e →
  bundleThen H E finish composeFile outputFile w
  = (Err (wrap "failed to parse compose file" e), w).
Proof.
  intros Hread. unfold bundleThen, parseComposeFile. run. by rewrite Hread.
Qed.

(** C9.  When the metadata of the manifest is absent, or its name is empty,
    or its version is empty or outside the semantic-version grammar,
    [Bundle] fails and the world is the one it started from: no call to the
    engine has been issued, and from a fresh bundler the process exits with
    status 1 and an empty history of engine calls.  Conversely a run in which
    the history of engine calls has grown is a run whose manifest passed the
    validation. *)
Theorem Bundle_invalid_no_engine_call
    (composeFile outputFile : string) (w : World) :
  (∀ compose,
     hostReadYaml H composeFile = OK compose →
     (XBundle_ compose = None
      ∨ ∃ xb, XBundle_ compose = Some xb
              ∧ (Name xb = "" ∨ Version xb = ""
                 ∨ ¬ SemverGrammar (Version xb))) →
     (∃ msg, Bundle H E composeFile outputFile w = (Err (Errorf msg), w))
     ∧ ∀ prog rest,
         hostClient H = None →
         fst (main H E (prog :: composeFile :: rest)) = 1
         ∧ calls (snd (main H E (prog :: composeFile :: rest))) = [])
  ∧ (calls (snd (Bundle H E composeFile outputFile w)) ≠ calls w →
     ∃ compose xb,
       hostReadYaml H composeFile = OK compose
       ∧ validateXBundle compose = OK xb).
Proof.
  split.
  - intros compose Hread Hbad.
    assert (∃ msg, validateXBundle compose = Err (Errorf msg)) as [msg Hval].
    { destruct Hbad as [Hx|(xb & Hx & Hxb)].
      - eauto using validateXBundle_absent.
      - eauto using validateXBundle_bad. }
    split.
    + exists msg. by apply bundleThen_invalid with compose.
    + intros prog rest Hclient. unfold main. rewrite Hclient.
      unfold Bundle.
      by rewrite (bundleThen_invalid _ _ _ _ compose (Errorf msg)).
  - intros Hcalls. unfold Bundle in Hcalls.
    destruct (hostReadYaml H composeFile) as [compose|e] eqn:Hread.
    + destruct (validateXBundle compose) as [xb|e] eqn:Hval; [by eauto|].
      by rewrite (bundleThen_invalid _ _ _ _ compose e) in Hcalls.
    + by rewrite (bundleThen_unparsed _ _ _ _ e) in Hcalls.
Qed.

End ValidationFirst.

Lemma Bundle_invalid_no_engine_call_witness :
  ∃ msg,
    Bundle (exampleHost badVersionManifest) (sampleEngine [] false)
      "docker-compose.yml" "bundle.tar.gz" NewBundler
    = (Err (Errorf msg), NewBundler).
Proof.
  refine (proj1 (proj1 (Bundle_invalid_no_engine_call
            (exampleHost badVersionManifest) (sampleEngine [] false)
            "docker-compose.yml" "bundle.tar.gz" NewBundler)
            badVersionManifest eq_refl _)).
  right. exists {| Name := "example"; Version := "1.2" |}.
  split; [reflexivity|].
  right. right. intros Hg%isValidSemver_grammar. discriminate.
Defined.

(** ** Cleanup *)

Section CleanupFacts.

Variable H : Host.
Variable E : Engine.

(** The removal loop never fails and submits every name it is given, in
    order, whatever the engine answers; it touches nothing but the history
    of calls and the standard output. *)
Lemma removeImages_total removing warning imageNames : ∀ w,
  ∃ w', removeImages E removing warning imageNames w = (OK tt, w')
        ∧ calls w' = calls w
                     ++ ((λ n, CallRemove n removeOptions) <$> imageNames)
        ∧ freshlyPulledImages w' = freshlyPulledImages w
        ∧ tempDir w' = tempDir w
        ∧ written w' = written w.
Proof.
  induction imageNames as [|imageName rest IH]; intros w.
  - exists w. cbn. by rewrite app_nil_r.
  - cbn [removeImages]. run.
    destruct (engRemove E _ imageName _); cbn beta iota;
      match goal with
      | |- context [removeImages E removing warning rest ?w1] =>
          destruct (IH w1) as (w' & -> & Hc & Hp & Ht & Hw)
      end;
      exists w'; cbn in *; rewrite Hc, Hp, Ht, Hw;
      by rewrite <- app_assoc.
Qed.

Lemma cleanupFreshlyPulledImages_total w :
  ∃ w', cleanupFreshlyPulledImages H E w = (OK tt, w')
        ∧ calls w' = calls w
            ++ ((λ n, CallRemove n removeOptions)
                  <$> (fst <$> hostRange H _ (freshlyPulledImages w)))
        ∧ written w' = written w.
Proof.
  unfold cleanupFreshlyPulledImages.
  destruct (removeImages_total "Removing freshly pulled image "
              "Warning: failed to remove freshly pulled image "
              (fst <$> hostRange H _ (freshlyPulledImages w)) w)
    as (w' & Hrun & Hc & _ & _ & Hw).
  eauto.
Qed.

Lemma cleanupImages_total compose w :
  ∃ w' imageNames,
    cleanupImages H E compose w = (OK tt, w')
    ∧ calls w' = calls w ++ ((λ n, CallRemove n removeOptions) <$> imageNames)
    ∧ freshlyPulledImages w' = freshlyPulledImages w
    ∧ written w' = written w.
Proof.
  unfold cleanupImages.
  match goal with
  | |- context [removeImages E ?r ?wn ?names w] =>
      destruct (removeImages_total r wn names w)
        as (w' & Hrun & Hc & Hp & _ & Hw);
      exists w', names
  end.
  eauto.
Qed.

Lemma cleanup_total compose w :
  ∃ w', cleanup H E compose w = (OK tt, w') ∧ written w' = written w.
Proof.
  unfold cleanup, warnOnError. run.
  destruct (cleanupImages_total compose w) as (w1 & ns & -> & _ & _ & Hw1).
  destruct (cleanupFreshlyPulledImages_total w1) as (w2 & -> & _ & Hw2).
  exists w2. split; [done|congruence].
Qed.

(** A last step that cannot fail does not change the outcome of [Bundle]. *)
Lemma bundleThen_finish finish composeFile outputFile w :
  (∀ c w1, ∃ w2, finish c w1 = (OK tt, w2) ∧ written w2 = written w1) →
  fst (bundleThen H E (λ _, mret tt) composeFile outputFile w) = OK tt →
  fst (bundleThen H E finish composeFile outputFile w) = OK tt
  ∧ written (snd (bundleThen H E finish composeFile outputFile w))
    = written (snd (bundleThen H E (λ _, mret tt) composeFile outputFile w)).
Proof.
  intros Hfinish. unfold bundleThen, deferRemoveAll. run.
  destruct (parseComposeFile H composeFile w) as [[c|?] w1]; [|done].
  destruct (validateXBundle c) as [xb|?]; [|done].
  destruct (processServices _ _ _ _ _ _ _ _ w1) as [[[c' imageMap]|?] w2];
    [|done].
  destruct (hostFault H FsMkdirTemp); [done|].
  destruct (assemble H E c' imageMap outputFile w2) as [[[]|?] w3]; [|done].
  destruct (Hfinish c' w3) as (w4 & -> & Hw). cbn. by rewrite Hw.
Qed.

End CleanupFacts.

(** The run up to the written archive issues no removal, so it does not
    depend on what the engine answers to removals. *)
Lemma archiveWritten_with_remove H E remove composeFile outputFile :
  archiveWritten H (with_remove E remove) composeFile outputFile
  = archiveWritten H E composeFile outputFile.
Proof. reflexivity. Qed.

Lemma removedNames_app cs cs' :
  removedNames (cs ++ cs') = removedNames cs ++ removedNames cs'.
Proof. unfold removedNames. apply bind_app. Qed.

Lemma removedNames_removals imageNames :
  removedNames ((λ n, CallRemove n removeOptions) <$> imageNames)
  = imageNames.
Proof.
  induction imageNames as [|n ns IH]; [done|].
  cbn. unfold removedNames in IH. by rewrite IH.
Qed.

(** The removal loop in full: it never fails, submits every name in order,
    and prints for every name the line that announces the removal and, when
    the engine answers with an error, the warning; it goes on after an
    error. *)
Lemma removeImages_run E removing warning imageNames : ∀ w,
  ∃ w', removeImages E removing warning imageNames w = (OK tt, w')
        ∧ calls w' = calls w
                     ++ ((λ n, CallRemove n removeOptions) <$> imageNames)
        ∧ stdout w' = stdout w
                      ++ removalLog removing warning (engRemove E) (calls w)
                           imageNames
        ∧ freshlyPulledImages w' = freshlyPulledImages w
        ∧ tempDir w' = tempDir w
        ∧ written w' = written w.
Proof.
  induction imageNames as [|imageName rest IH]; intros w.
  - exists w. cbn. by rewrite !app_nil_r.
  - cbn [removeImages removalLog]. run.
    change {| Force := false; PruneChildren := true |} with removeOptions.
    cbn [calls with_stdout].
    destruct (engRemove E (calls w) imageName removeOptions) as [err|];
      cbn beta iota;
      match goal with
      | |- context [removeImages E removing warning rest ?w1] =>
          destruct (IH w1) as (w' & -> & Hc & Hs & Hp & Ht & Hw)
      end;
      exists w'; cbn [calls stdout freshlyPulledImages tempDir written
                      with_calls with_stdout] in *;
      rewrite Hc, Hs, Hp, Ht, Hw; by rewrite <- !app_assoc.
Qed.

(** A removal the engine answers with an error leaves its warning in what
    the loop prints. *)
Lemma removalLog_warning removing warning remove before : ∀ history n after err,
  remove (history ++ ((λ n, CallRemove n removeOptions) <$> before)) n
    removeOptions = Some err →
  (warning +:+ n +:+ ": " +:+ Error err +:+ nl)
  ∈ removalLog removing warning remove history (before ++ n :: after).
Proof.
  induction before as [|b before IH]; intros history n after err Hremove.
  - cbn [fmap list_fmap] in Hremove. rewrite app_nil_r in Hremove.
    cbn [app removalLog]. rewrite Hremove. cbn [app].
    apply elem_of_cons. right. apply elem_of_cons. by left.
  - cbn [app removalLog]. apply elem_of_cons. right.
    apply elem_of_app. right. apply IH. by rewrite <- app_assoc.
Qed.

(** The keys of the map of built images that [cleanupImages] makes. *)
Lemma builtImages_keys (services : list (string * Service)) :
  ∀ (built : gmap string bool) k,
    is_Some
      (foldl (λ (built : gmap string bool) (p : string * Service),
                if bool_decide (Image p.2 ≠ "")
                   && HasPrefix (Image p.2) "bundled-"
                then <[Image p.2 := true]> built else built)
             built services !! k)
    ↔ is_Some (built !! k)
      ∨ (HasPrefix k "bundled-" = true
         ∧ ∃ p, p ∈ services ∧ Image p.2 = k).
Proof.
  induction services as [|p services IH]; intros built k; cbn [foldl].
  - split; [by left|]. by intros [?|(_ & p & []%elem_of_nil & _)].
  - rewrite IH. split.
    + intros [Hk|(Hpre & q & Hq & Hi)].
      * destruct (bool_decide _ && HasPrefix _ _) eqn:Hp; [|by left].
        apply andb_true_iff in Hp as [_ Hp].
        rewrite lookup_insert in Hk. case_decide; [|by left].
        subst k. right. split; [done|]. exists p. split; [by left|done].
      * right. split; [done|]. exists q. split; [by right|done].
    + intros [Hk|(Hpre & q & [Heq|Hq]%elem_of_cons & Hi)].
      * left. destruct (bool_decide _ && HasPrefix _ _); [|done].
        rewrite lookup_insert. by case_decide.
      * left. subst q k. rewrite Hpre, andb_true_r.
        rewrite bool_decide_eq_true_2 by (by destruct (Image p.2)).
        by rewrite lookup_insert_eq.
      * right. split; [done|]. by exists q.
Qed.

(** The last step of [Bundle] in full: it never fails; it submits for
    removal the images of the manifest whose name begins with "bundled-",
    each once, then the images recorded as freshly pulled, and prints the
    lines of the two loops and nothing else. *)
Lemma cleanup_run H E compose w :
  ∃ w' built,
    cleanup H E compose w = (OK tt, w')
    ∧ NoDup built
    ∧ (∀ n, n ∈ built ↔
            HasPrefix n "bundled-" = true
            ∧ ∃ name svc, Services compose !! name = Some svc
                          ∧ Image svc = n)
    ∧ calls w'
      = calls w
        ++ ((λ n, CallRemove n removeOptions)
              <$> (built ++ (fst <$> hostRange H _ (freshlyPulledImages w))))
    ∧ stdout w'
      = stdout w
        ++ removalLog "Removing built image "
             "Warning: failed to remove image " (engRemove E) (calls w) built
        ++ removalLog "Removing freshly pulled image "
             "Warning: failed to remove freshly pulled image " (engRemove E)
             (calls w ++ ((λ n, CallRemove n removeOptions) <$> built))
             (fst <$> hostRange H _ (freshlyPulledImages w))
    ∧ freshlyPulledImages w' = freshlyPulledImages w
    ∧ tempDir w' = tempDir w
    ∧ written w' = written w.
Proof.
  unfold cleanup, warnOnError, cleanupImages, cleanupFreshlyPulledImages. run.
  match goal with
  | |- context [removeImages E ?r ?wn (fst <$> hostRange H _ ?m) w] =>
      set (builtImages := m);
      destruct (removeImages_run E r wn (fst <$> hostRange H _ builtImages) w)
        as (w1 & -> & Hc1 & Hs1 & Hp1 & Ht1 & Hw1)
  end.
  destruct (removeImages_run E "Removing freshly pulled image "
              "Warning: failed to remove freshly pulled image "
              (fst <$> hostRange H _ (freshlyPulledImages w1)) w1)
    as (w2 & -> & Hc2 & Hs2 & Hp2 & Ht2 & Hw2).
  exists w2, (fst <$> hostRange H _ builtImages).
  split; [done|]. split; [|split].
  - rewrite (hostRange_perm H). apply NoDup_fst_map_to_list.
  - intros n. rewrite (hostRange_perm H).
    transitivity (is_Some (builtImages !! n)).
    { rewrite list_elem_of_fmap. split.
      - intros ([k v] & -> & Hk%elem_of_map_to_list). by exists v.
      - intros [v Hv]. exists (n, v). split; [done|].
        by apply elem_of_map_to_list. }
    unfold builtImages. rewrite builtImages_keys. split.
    + intros [[? ?%lookup_empty_Some]|(Hpre & [name svc] & Hin & Hi)]; [done|].
      split; [done|]. exists name, svc. split; [|done].
      rewrite (hostRange_perm H) in Hin. by apply elem_of_map_to_list in Hin.
    + intros (Hpre & name & svc & Hsvc & Hi). right. split; [done|].
      exists (name, svc). split; [|done].
      rewrite (hostRange_perm H). by apply elem_of_map_to_list.
  - rewrite Hc2, Hs2, Hp2, Ht2, Hw2, Hc1, Hs1, Hp1, Ht1, Hw1.
    by rewrite fmap_app, !app_assoc.
Qed.

(** A run of [Bundle] whose archive has been written is the run up to the
    archive followed by the cleanup, and then by the removal of the working
    directory. *)
Lemma Bundle_after_archive H E composeFile outputFile w :
  fst (archiveWritten H E composeFile outputFile w) = OK tt →
  ∃ compose xb compose' imageMap w0 w3,
    hostReadYaml H composeFile = OK compose
    ∧ validateXBundle compose = OK xb
    ∧ processServices H E (hostRange H _ (Services compose))
        (Dir H composeFile) (Name xb) (Version xb) compose ∅ w
      = (OK (compose', imageMap), w0)
    ∧ snd (archiveWritten H E composeFile outputFile w) = with_tempDir w3 None
    ∧ Bundle H E composeFile outputFile w
      = (fst (cleanup H E compose' w3),
         with_tempDir (snd (cleanup H E compose' w3)) None).
Proof.
  unfold archiveWritten, Bundle, bundleThen, deferRemoveAll, parseComposeFile.
  run.
  destruct (hostReadYaml H composeFile) as [compose|?]; [|done].
  destruct (validateXBundle compose) as [xb|?] eqn:Hval; [|done].
  destruct (processServices _ _ _ _ _ _ _ _ w)
    as [[[compose' imageMap]|?] w0] eqn:Hproc; [|done].
  destruct (hostFault H FsMkdirTemp); [done|].
  destruct (assemble H E compose' imageMap outputFile w0) as [[[]|?] w3];
    [|done].
  intros _. exists compose, xb, compose', imageMap, w0, w3.
  repeat (split; [done|]).
  by destruct (cleanup H E compose' w3).
Qed.

(** C7.  Once the archive has been written, [Bundle] returns success and
    the process exits with status 0, whatever the engine answers to the
    removals of the cleanup, and the archive stays as written.  The run is
    the run up to the archive followed by the two removal loops: every
    image of the rewritten manifest whose name begins with "bundled-" and
    every image recorded as freshly pulled is submitted to the engine, in
    the order of the loops, whichever removals fail; what is printed after
    the archive is, for every image, the line that announces its removal
    and, when the engine answered with an error, the warning with the name
    of the image and the error, and nothing else. *)
Theorem Bundle_succeeds_despite_cleanup (H : Host) (E : Engine)
    (remove : list EngineCall → string → RemoveOptions → option error)
    (composeFile outputFile : string) :
  (∀ w,
     fst (archiveWritten H E composeFile outputFile w) = OK tt →
     fst (Bundle H (with_remove E remove) composeFile outputFile w) = OK tt
     ∧ written
         (snd (Bundle H (with_remove E remove) composeFile outputFile w))
       = written (snd (archiveWritten H E composeFile outputFile w)))
  ∧ (fst (archiveWritten H E composeFile outputFile NewBundler) = OK tt →
     hostClient H = None →
     ∀ prog,
       fst (main H (with_remove E remove) [prog; composeFile; outputFile])
       = 0)
  ∧ (∀ w,
       fst (cleanupFreshlyPulledImages H (with_remove E remove) w) = OK tt
       ∧ removedNames
           (calls (snd (cleanupFreshlyPulledImages H (with_remove E remove) w)))
         = removedNames (calls w)
           ++ (fst <$> hostRange H _ (freshlyPulledImages w))
       ∧ ∀ imageName,
           is_Some (freshlyPulledImages w !! imageName) →
           imageName
           ∈ removedNames
               (calls (snd (cleanupFreshlyPulledImages H
                              (with_remove E remove) w))))
  ∧ (∀ w,
       fst (archiveWritten H E composeFile outputFile w) = OK tt →
       ∃ compose xb compose' imageMap w0 built,
         hostReadYaml H composeFile = OK compose
         ∧ validateXBundle compose = OK xb
         ∧ processServices H E (hostRange H _ (Services compose))
             (Dir H composeFile) (Name xb) (Version xb) compose ∅ w
           = (OK (compose', imageMap), w0)
         ∧ NoDup built
         ∧ (∀ n, n ∈ built ↔
                 HasPrefix n "bundled-" = true
                 ∧ ∃ name svc, Services compose' !! name = Some svc
                               ∧ Image svc = n)
         ∧ let w1 := snd (archiveWritten H E composeFile outputFile w) in
           let w' :=
             snd (Bundle H (with_remove E remove) composeFile outputFile w) in
           let pulled := fst <$> hostRange H _ (freshlyPulledImages w1) in
           let removals := fmap (λ n, CallRemove n removeOptions) in
           calls w' = calls w1 ++ removals (built ++ pulled)
           ∧ stdout w'
             = stdout w1
               ++ removalLog "Removing built image "
                    "Warning: failed to remove image " remove (calls w1) built
               ++ removalLog "Removing freshly pulled image "
                    "Warning: failed to remove freshly pulled image " remove
                    (calls w1 ++ removals built) pulled
           ∧ (∀ before n after err,
                built = before ++ n :: after →
                remove (calls w1 ++ removals before) n removeOptions
                = Some err →
                ("Warning: failed to remove image " +:+ n +:+ ": "
                 +:+ Error err +:+ nl) ∈ stdout w')
           ∧ (∀ before n after err,
                pulled = before ++ n :: after →
                remove (calls w1 ++ removals (built ++ before)) n
                  removeOptions = Some err →
                ("Warning: failed to remove freshly pulled image " +:+ n
                 +:+ ": " +:+ Error err +:+ nl) ∈ stdout w')).
Proof.
  assert (Hkeep : ∀ w,
    fst (archiveWritten H E composeFile outputFile w) = OK tt →
    fst (Bundle H (with_remove E remove) composeFile outputFile w) = OK tt
    ∧ written (snd (Bundle H (with_remove E remove) composeFile outputFile w))
      = written (snd (archiveWritten H E composeFile outputFile w))).
  { intros w. rewrite <- (archiveWritten_with_remove H E remove).
    apply bundleThen_finish. intros c w1. apply cleanup_total. }
  split; [exact Hkeep|]. split; [|split].
  - intros Hw Hclient prog. apply Hkeep in Hw as [Hok _].
    unfold main. rewrite Hclient.
    by destruct (Bundle _ _ _ _ _) as [[[]|?] ?].
  - intros w.
    destruct (cleanupFreshlyPulledImages_total H (with_remove E remove) w)
      as (w' & -> & Hc & _).
    split; [done|]. cbn [snd].
    rewrite Hc, removedNames_app, removedNames_removals.
    split; [done|]. intros imageName [v Hv].
    apply elem_of_app. right. apply list_elem_of_fmap.
    exists (imageName, v). split; [done|].
    rewrite (hostRange_perm H). by apply elem_of_map_to_list.
  - intros w Hw. rewrite <- (archiveWritten_with_remove H E remove) in Hw.
    destruct (Bundle_after_archive H (with_remove E remove) _ _ _ Hw)
      as (compose & xb & compose' & imageMap & w0 & w3 & Hread & Hval & Hproc
          & Hw1 & Hrun).
    rewrite (archiveWritten_with_remove H E remove) in Hw1.
    destruct (cleanup_run H (with_remove E remove) compose' w3)
      as (w4 & built & Hclean & Hnodup & Hbuilt & Hc & Hs & Hp & _ & _).
    rewrite Hclean in Hrun. cbn [fst snd] in Hrun.
    exists compose, xb, compose', imageMap, w0, built.
    repeat (split; [done|]).
    rewrite Hw1, Hrun.
    cbn [snd calls stdout freshlyPulledImages with_tempDir].
    cbn [engRemove with_remove] in Hs.
    split; [done|]. split; [done|]. split.
    + intros before n after err -> Hremove. rewrite Hs, !elem_of_app.
      right. left. by apply removalLog_warning.
    + intros before n after err Hpulled Hremove.
      rewrite Hs, Hpulled, !elem_of_app. right. right.
      apply removalLog_warning. by rewrite fmap_app, app_assoc in Hremove.
Qed.

Lemma Bundle_succeeds_despite_cleanup_witness :
  fst (main (exampleHost redisManifest)
         (with_remove (sampleEngine [] false) refuseRemoval) exampleArgs)
  = 0
  ∧ ("Warning: failed to remove freshly pulled image " +:+ "redis:7-alpine"
     +:+ ": " +:+ Error (Errorf "conflict: image is in use") +:+ nl)
    ∈ stdout
        (snd (Bundle (exampleHost redisManifest)
                (with_remove (sampleEngine [] false) refuseRemoval)
                "docker-compose.yml" "bundle.tar.gz" NewBundler)).
Proof.
  pose proof (Bundle_succeeds_despite_cleanup
                (exampleHost redisManifest) (sampleEngine [] false)
                refuseRemoval "docker-compose.yml" "bundle.tar.gz")
    as (_ & Hmain & _ & Hlog).
  split.
  - apply Hmain.
    + vm_compute. reflexivity.
    + reflexivity.
  - destruct (Hlog NewBundler)
      as (compose & xb & compose' & imageMap & w0 & built & _ & _ & _ & _ & _
          & Hrun).
    + vm_compute. reflexivity.
    + cbv zeta in Hrun. destruct Hrun as (_ & _ & _ & Hwarn).
      apply (Hwarn [] "redis:7-alpine" []
               (Errorf "conflict: image is in use")).
      * vm_compute. reflexivity.
      * reflexivity.
Defined.

(** ** The resolver *)

Section ResolverFacts.

Variable H : Host.
Variable E : Engine.

Lemma readBuildOutput_clean msgs :
  Forall (λ msg, ErrorText msg = "") msgs →
  ∀ w, ∃ w', readBuildOutput msgs None w = (OK tt, w')
             ∧ calls w' = calls w
             ∧ freshlyPulledImages w' = freshlyPulledImages w.
Proof.
  induction 1 as [|msg msgs Hmsg _ IH]; intros w; cbn [readBuildOutput].
  - by exists w.
  - rewrite bool_decide_eq_false_2 by (by intros []). run.
    case_bool_decide; cbn beta iota;
      match goal with
      | |- context [readBuildOutput msgs None ?w1] =>
          destruct (IH w1) as (w' & -> & Hc & Hp)
      end; by exists w'.
Qed.

Lemma readPullOutput_clean msgs :
  Forall (λ msg, ErrorText msg = "") msgs →
  ∀ w, readPullOutput msgs None w = (OK tt, w).
Proof.
  induction 1 as [|msg msgs Hmsg _ IH]; intros w; cbn [readPullOutput];
    [done|].
  rewrite bool_decide_eq_false_2 by (by intros []). apply IH.
Qed.

Lemma buildImage_ok config baseDir imageName body w :
  let buildContext :=
    if IsAbs H (Context config) then Context config
    else Join H baseDir (Context config) in
  let dockerfile :=
    if bool_decide (Dockerfile config = "") then "Dockerfile"
    else Dockerfile config in
  let tar :=
    fst (createBuildContextTar (Separator H) (hostLstat H buildContext)) in
  let options :=
    {| opt_Dockerfile := dockerfile; Tags := [imageName]; Remove := true;
       BuildArgs := Args config |} in
  engBuild E (calls w) tar options = OK body →
  cleanBody body →
  ∃ w', buildImage H E config baseDir imageName w = (OK tt, w')
        ∧ calls w' = calls w ++ [CallBuild tar options]
        ∧ freshlyPulledImages w' = freshlyPulledImages w.
Proof.
  intros buildContext dockerfile tar options Hbuild [Hend Hmsgs].
  unfold buildImage, createBuildContextTar. run.
  replace (if negb (IsAbs H (Context config))
           then Join H baseDir (Context config) else Context config)
    with buildContext by (subst buildContext; by destruct (IsAbs H _)).
  fold dockerfile. cbn [fst]. fold options. cbn [calls with_stdout].
  change (buildContextProducer (Separator H) (hostLstat H buildContext)).1
    with tar.
  rewrite Hbuild, Hend.
  match goal with
  | |- context [readBuildOutput _ None ?w1] =>
      destruct (readBuildOutput_clean _ Hmsgs w1) as (w' & -> & Hc & Hp)
  end.
  exists w'. by rewrite Hc, Hp.
Qed.

Lemma pullImageIfNotExists_present imageName w :
  engInspect E (calls w) imageName = None →
  ∃ w', pullImageIfNotExists E imageName w = (OK tt, w')
        ∧ calls w' = calls w ++ [CallInspect imageName]
        ∧ freshlyPulledImages w' = freshlyPulledImages w.
Proof.
  intros Hinspect. unfold pullImageIfNotExists. run. rewrite Hinspect.
  eexists. split; [done|]. done.
Qed.

Lemma pullImageIfNotExists_absent imageName e body w :
  engInspect E (calls w) imageName = Some e →
  engPull E (calls w ++ [CallInspect imageName]) imageName = OK body →
  cleanBody body →
  ∃ w', pullImageIfNotExists E imageName w = (OK tt, w')
        ∧ calls w' = calls w ++ [CallInspect imageName; CallPull imageName]
        ∧ freshlyPulledImages w'
          = <[imageName := true]> (freshlyPulledImages w).
Proof.
  intros Hinspect Hpull [Hend Hmsgs]. unfold pullImageIfNotExists. run.
  rewrite Hinspect. cbn [calls with_stdout with_calls]. rewrite Hpull, Hend.
  rewrite readPullOutput_clean by done.
  eexists. split; [done|]. cbn. by rewrite <- app_assoc.
Qed.

(** C1.  The three cases of the resolver, for a service and a state of the
    run.  With a build spec (an image reference may be there too), a build
    is asked from the engine under the reference
    bundles/bundleName/serviceName:bundleVersion, on the context resolved
    against the directory of the manifest when it is relative and with the
    Dockerfile name defaulting to Dockerfile; on success the service comes
    back with that reference as image and no build spec, and the reference
    is returned.  With an image reference alone, the engine is asked to
    inspect it; when it is present nothing else happens, when it is absent
    it is pulled and recorded as freshly pulled; the reference is returned
    as it is and the service is untouched.  With neither, the empty name is
    returned, nothing happens, and the first loop of [Bundle] leaves the
    map of images to export as it is. *)
Theorem processServiceWithBundle_cases
    (serviceName : string) (service : Service)
    (baseDir bundleName bundleVersion : string) (w : World) :
  let result :=
    processServiceWithBundle H E serviceName service baseDir bundleName
      bundleVersion w in
  (∀ build config body,
     Build service = Some build →
     parseBuildConfig H build = OK config →
     let imageName :=
       "bundles/" +:+ bundleName +:+ "/" +:+ serviceName +:+ ":"
       +:+ bundleVersion in
     let buildContext :=
       if IsAbs H (Context config) then Context config
       else Join H baseDir (Context config) in
     let dockerfile :=
       if bool_decide (Dockerfile config = "") then "Dockerfile"
       else Dockerfile config in
     let tar :=
       fst (createBuildContextTar (Separator H) (hostLstat H buildContext)) in
     let options :=
       {| opt_Dockerfile := dockerfile; Tags := [imageName]; Remove := true;
          BuildArgs := Args config |} in
     engBuild E (calls w) tar options = OK body →
     cleanBody body →
     ∃ service',
       fst result = OK (imageName, service')
       ∧ Image service' = imageName
       ∧ Build service' = None
       ∧ calls (snd result) = calls w ++ [CallBuild tar options]
       ∧ freshlyPulledImages (snd result) = freshlyPulledImages w)
  ∧ (Build service = None → Image service ≠ "" →
     (engInspect E (calls w) (Image service) = None →
      fst result = OK (Image service, service)
      ∧ calls (snd result) = calls w ++ [CallInspect (Image service)]
      ∧ freshlyPulledImages (snd result) = freshlyPulledImages w)
     ∧ (∀ e body,
          engInspect E (calls w) (Image service) = Some e →
          engPull E (calls w ++ [CallInspect (Image service)])
            (Image service) = OK body →
          cleanBody body →
          fst result = OK (Image service, service)
          ∧ calls (snd result)
            = calls w ++ [CallInspect (Image service);
                          CallPull (Image service)]
          ∧ freshlyPulledImages (snd result)
            = <[Image service := true]> (freshlyPulledImages w)))
  ∧ (Build service = None → Image service = "" →
     result = (OK ("", service), w)
     ∧ ∀ rest compose imageMap,
         processServices H E ((serviceName, service) :: rest) baseDir
           bundleName bundleVersion compose imageMap w
         = processServices H E rest baseDir bundleName bundleVersion
             compose imageMap w).
Proof.
  intros result. subst result. split; [|split].
  - intros build config body Hbuild Hparse imageName buildContext dockerfile
      tar options Heng Hbody.
    unfold processServiceWithBundle. rewrite Hbuild, Hparse. run.
    destruct (buildImage_ok config baseDir imageName body w Heng Hbody)
      as (w' & Hrun & Hc & Hp).
    fold imageName. rewrite Hrun. cbn.
    exists (set_built service imageName). by rewrite Hc, Hp.
  - intros Hbuild Himage. unfold processServiceWithBundle.
    rewrite Hbuild, bool_decide_eq_true_2 by done. run. split.
    + intros Hinspect.
      destruct (pullImageIfNotExists_present _ w Hinspect)
        as (w' & -> & Hc & Hp).
      by rewrite <- Hc, <- Hp.
    + intros e body Hinspect Hpull Hbody.
      destruct (pullImageIfNotExists_absent _ e body w Hinspect Hpull Hbody)
        as (w' & -> & Hc & Hp).
      by rewrite <- Hc, <- Hp.
  - intros Hbuild Himage.
    assert (Hrun : processServiceWithBundle H E serviceName service baseDir
                     bundleName bundleVersion w = (OK ("", service), w)).
    { unfold processServiceWithBundle.
      by rewrite Hbuild, bool_decide_eq_false_2 by (by intros []). }
    split; [done|]. intros rest compose imageMap.
    cbn [processServices]. run. by rewrite Hrun.
Qed.

End ResolverFacts.

Lemma processServiceWithBundle_cases_witness :
  (∃ service',
     fst (processServiceWithBundle (exampleHost exampleManifest)
            (sampleEngine ["postgres:15"] false) "web"
            (service "stale:1" (Some (AString "./web"))) "." "example"
            "0.0.1" NewBundler)
     = OK ("bundles/example/web:0.0.1", service')
     ∧ Image service' = "bundles/example/web:0.0.1"
     ∧ Build service' = None)
  ∧ fst (processServiceWithBundle (exampleHost exampleManifest)
           (sampleEngine ["postgres:15"] false) "postgres"
           (service "postgres:15" None) "." "example" "0.0.1" NewBundler)
    = OK ("postgres:15", service "postgres:15" None)
  ∧ freshlyPulledImages
      (snd (processServiceWithBundle (exampleHost exampleManifest)
              (sampleEngine ["postgres:15"] false) "redis"
              (service "redis:7-alpine" None) "." "example" "0.0.1"
              NewBundler))
    = {["redis:7-alpine" := true]}
  ∧ processServiceWithBundle (exampleHost exampleManifest)
      (sampleEngine ["postgres:15"] false) "data" (service "" None) "."
      "example" "0.0.1" NewBundler
    = (OK ("", service "" None), NewBundler).
Proof.
  set (host := exampleHost exampleManifest).
  set (engine := sampleEngine ["postgres:15"] false).
  pose proof (processServiceWithBundle_cases host engine "web"
    (service "stale:1" (Some (AString "./web"))) "." "example" "0.0.1"
    NewBundler) as (Hbuild & _ & _).
  pose proof (processServiceWithBundle_cases host engine "postgres"
    (service "postgres:15" None) "." "example" "0.0.1" NewBundler)
    as (_ & Hpresent & _).
  pose proof (processServiceWithBundle_cases host engine "redis"
    (service "redis:7-alpine" None) "." "example" "0.0.1" NewBundler)
    as (_ & Habsent & _).
  pose proof (processServiceWithBundle_cases host engine "data"
    (service "" None) "." "example" "0.0.1" NewBundler) as (_ & _ & Hnone).
  split; [|split; [|split]].
  - destruct (Hbuild (AString "./web")
                {| Context := "./web"; Dockerfile := ""; Args := ∅ |}
                emptyBody eq_refl eq_refl eq_refl)
      as (service' & Hr & Hi & Hb & _); [by split|].
    exists service'. by rewrite Hr, Hi, Hb.
  - apply Hpresent; [reflexivity|discriminate|reflexivity].
  - destruct Habsent as [_ Hpull]; [reflexivity|discriminate|].
    destruct (Hpull (Errorf "No such image") emptyBody eq_refl eq_refl)
      as (_ & _ & ->); [by split|].
    reflexivity.
  - apply Hnone; reflexivity.
Defined.

(** ** What the cleanup of built images removes *)

Lemma synthetic_not_bundled (bundleName serviceName bundleVersion : string) :
  HasPrefix
    ("bundles/" +:+ bundleName +:+ "/" +:+ serviceName +:+ ":"
     +:+ bundleVersion) "bundled-" = false.
Proof. reflexivity. Qed.

Lemma builtImages_bundled (services : list (string * Service)) :
  ∀ built : gmap string bool,
    (∀ k v, built !! k = Some v → HasPrefix k "bundled-" = true) →
    ∀ k v,
      foldl (λ (built : gmap string bool) (p : string * Service),
               if bool_decide (Image p.2 ≠ "")
                  && HasPrefix (Image p.2) "bundled-"
               then <[Image p.2 := true]> built else built)
            built services !! k = Some v →
      HasPrefix k "bundled-" = true.
Proof.
  induction services as [|p services IH]; intros built Hbuilt k v; cbn;
    [by apply Hbuilt|].
  apply IH. intros k' v'.
  destruct (bool_decide _ && HasPrefix _ _) eqn:Hp; [|by apply Hbuilt].
  apply andb_true_iff in Hp as [_ Hp].
  rewrite lookup_insert. case_decide; [by subst|by apply Hbuilt].
Qed.

(** [cleanupImages] submits to the engine only names that begin with
    "bundled-"; a reference made by the resolver begins with "bundles/" and
    is never among them. *)
Lemma cleanupImages_only_bundled H E compose w :
  ∃ imageNames,
    calls (snd (cleanupImages H E compose w))
    = calls w ++ ((λ n, CallRemove n removeOptions) <$> imageNames)
    ∧ Forall (λ n, HasPrefix n "bundled-" = true) imageNames
    ∧ ∀ bundleName serviceName bundleVersion,
        "bundles/" +:+ bundleName +:+ "/" +:+ serviceName +:+ ":"
        +:+ bundleVersion ∉ imageNames.
Proof.
  unfold cleanupImages.
  match goal with
  | |- context [removeImages E ?r ?wn ?names w] =>
      destruct (removeImages_total E r wn names w) as (w' & -> & Hc & _);
      exists names; assert (Hall : Forall (λ n, HasPrefix n "bundled-" = true)
                                     names)
  end.
  { apply Forall_forall. intros n [[k v] [-> Hin]]%list_elem_of_fmap.
    rewrite (hostRange_perm H) in Hin. apply elem_of_map_to_list in Hin.
    cbn. eapply builtImages_bundled; [|exact Hin].
    intros k' v'. by rewrite lookup_empty. }
  split; [done|]. split; [done|].
  intros bundleName serviceName bundleVersion Hin.
  rewrite Forall_forall in Hall. apply Hall in Hin.
  by rewrite synthetic_not_bundled in Hin.
Qed.

(** C3 fails on the code.  On the example manifest of the repository, with
    an engine that has none of the images, the run succeeds, the service
    with a build spec is built under bundles/example/web:0.0.1, and the
    removals submitted to the engine are those of the two pulled images:
    the built image is not removed. *)
Theorem cleanup_leaves_built_image :
  fst exampleRun = 0
  ∧ builtTags (calls (snd exampleRun)) = ["bundles/example/web:0.0.1"]
  ∧ removedNames (calls (snd exampleRun)) = ["redis:7-alpine"; "postgres:15"]
  ∧ "bundles/example/web:0.0.1" ∉ removedNames (calls (snd exampleRun)).
Proof.
  assert (Hrun : removedNames (calls (snd exampleRun))
                 = ["redis:7-alpine"; "postgres:15"])
    by (vm_compute; reflexivity).
  rewrite Hrun.
  split; [vm_compute; reflexivity|].
  split; [vm_compute; reflexivity|].
  split; [reflexivity|].
  by intros [[=]|[[=]|[]%elem_of_nil]%elem_of_cons]%elem_of_cons.
Qed.

(** ** The archive *)

(** The run on the example manifest: the four fixed files, the directory of
    images and one member for each of the three images. *)
Example example_archive :
  memberNames <$> written (snd exampleRun) !! "bundle.tar.gz"
  = Some [ "README.md"; "docker-compose.yml"; "images";
           "images/bundles-example-web-0.0.1.tar"; "images/postgres-15.tar";
           "images/redis-7-alpine.tar"; "load-images.bat"; "load-images.sh" ].
Proof. vm_compute. reflexivity. Qed.

(** With no service that has an image or a build spec, the directory of
    images is a member and holds nothing. *)
Example empty_archive :
  memberNames
    <$> written
          (snd (main (exampleHost (manifest (Some exampleBundle)
                                     [("data", service "" None)]))
                  (sampleEngine [] false) exampleArgs)) !! "bundle.tar.gz"
  = Some [ "README.md"; "docker-compose.yml"; "images"; "load-images.bat";
           "load-images.sh" ].
Proof. vm_compute. reflexivity. Qed.

(** A file name made by the bundler for an image holds no slash and no
    backslash. *)
Lemma sanitize_no_separator s :
  all_bytes (λ c, negb (Ascii.eqb c "/"%char) && negb (Ascii.eqb c "\"%char))
    (sanitizeFilename s) = true.
Proof.
  induction s as [|c s IH]; [done|]. rewrite sanitize_cons. cbn [all_bytes].
  rewrite IH, andb_true_r.
  by destruct c as [[] [] [] [] [] [] [] []].
Qed.

(** A name written twice in a directory is there once, with what was
    written last. *)
Lemma put_child_twice name n1 n2 cs :
  put_child name n2 (put_child name n1 cs) = put_child name n2 cs.
Proof.
  unfold put_child. f_equal.
  rewrite filter_cons_False by (cbn; by intros []).
  rewrite list_filter_filter. apply list_filter_iff. intros x. tauto.
Qed.

(** On a host whose separator is not the slash, no member name holds the
    separator of the host. *)
Lemma ToSlash_no_separator (sep : ascii) (path : string) :
  sep ≠ "/"%char →
  all_bytes (λ c, negb (Ascii.eqb c sep)) (ToSlash sep path) = true.
Proof.
  intros Hsep. unfold ToSlash.
  destruct (Ascii.eqb sep "/") eqn:Heq; [by apply Ascii.eqb_eq in Heq|].
  induction path as [|c path IH]; [done|]. cbn. rewrite IH, andb_true_r.
  destruct (Ascii.eqb c sep) eqn:Hc; [by rewrite Ascii.eqb_sym, Heq|].
  by rewrite Hc.
Qed.

(** C4 fails on the code.  Two services with the references myorg/app:1.0
    and myorg-app:1.0: the run succeeds and both references are exported by
    the engine, to the same file of the working directory; the archive has
    a single member under images/, which holds the second export. *)
Theorem colliding_references_one_member :
  fst collidingRun = 0
  ∧ savedNames (calls (snd collidingRun)) = ["myorg/app:1.0"; "myorg-app:1.0"]
  ∧ "myorg/app:1.0" ≠ "myorg-app:1.0"
  ∧ sanitizeFilename "myorg/app:1.0" = sanitizeFilename "myorg-app:1.0"
  ∧ memberNames <$> written (snd collidingRun) !! "bundle.tar.gz"
    = Some [ "README.md"; "docker-compose.yml"; "images";
             "images/myorg-app-1.0.tar"; "load-images.bat";
             "load-images.sh" ]
  ∧ (filter (λ e, hdr_name e = "images/myorg-app-1.0.tar") ∘ entries)
      <$> written (snd collidingRun) !! "bundle.tar.gz"
    = Some [ {| hdr_name := "images/myorg-app-1.0.tar"; hdr_dir := false;
                hdr_mode := 438; hdr_size := 13; body := "myorg-app:1.0" |} ].
Proof.
  split; [vm_compute; reflexivity|].
  split; [vm_compute; reflexivity|].
  split; [discriminate|].
  split; [reflexivity|].
  split; vm_compute; reflexivity.
Qed.

(** ** The build context *)

Lemma walk_names_cons {S : Type}
    (walk : list string → Node → S → S * option error) path name fileInfo
    rest st :
  walk_names walk path ((name, fileInfo) :: rest) st
  = let '(st', err) := walk (path ++ [name]) fileInfo st in
    match err with
    | Some e =>
        if negb (IsDir fileInfo) || negb (is_SkipDir e) then (st', Some e)
        else walk_names walk path rest st'
    | None => walk_names walk path rest st'
    end.
Proof. reflexivity. Qed.

(** A regular file at the root of the context whose name begins with
    ".git" ends the walk of the root: the stream is the same whatever
    follows that file in the listing of the root. *)
Lemma walk_names_stops_at_git_file (sep : ascii) name mode readable content
    before :
  HasPrefix name ".git" = true →
  ∀ after after' tarWriter,
    walk_names (λ path info st, walk (buildContextFn sep) path info st) []
      (before ++ (name, File mode readable content) :: after) tarWriter
    = walk_names (λ path info st, walk (buildContextFn sep) path info st) []
        (before ++ (name, File mode readable content) :: after') tarWriter.
Proof.
  intros Hname after after'.
  induction before as [|[n info] before IH]; intros tarWriter.
  - cbn [app]. rewrite !walk_names_cons. cbn [app walk buildContextFn Rel].
    replace (String.concat (String sep "") [name]) with name by done.
    by rewrite Hname.
  - cbn [app]. rewrite !walk_names_cons.
    destruct (walk _ _ info tarWriter) as [st' [e|]]; [|apply IH].
    destruct (negb (IsDir info) || negb (is_SkipDir e)); [done|apply IH].
Qed.

(** C6 fails on the code.  In a context that holds a [.gitignore] file,
    [Dockerfile] and [server.js] are files outside any path beginning with
    ".git", and the stream has no member for them: the callback answers
    [SkipDir] for the regular file [.gitignore], which ends the walk of the
    directory that holds it. *)
Theorem gitignore_truncates_build_context :
  memberNames (fst (createBuildContextTar "/" (Some exampleContext)))
  = ["."; ".dockerignore"]
  ∧ HasPrefix "Dockerfile" ".git" = false
  ∧ HasPrefix "server.js" ".git" = false
  ∧ ("Dockerfile"
     ∉ memberNames (fst (createBuildContextTar "/" (Some exampleContext))))
  ∧ ("server.js"
     ∉ memberNames (fst (createBuildContextTar "/" (Some exampleContext))))
  ∧ snd (buildContextProducer "/" (Some exampleContext)) = None.
Proof.
  assert (Hnames :
    memberNames (fst (createBuildContextTar "/" (Some exampleContext)))
    = ["."; ".dockerignore"]) by (vm_compute; reflexivity).
  rewrite Hnames.
  split; [done|]. split; [done|]. split; [done|].
  split; [|split; [|vm_compute; reflexivity]];
    by intros [[=]|[[=]|[]%elem_of_nil]%elem_of_cons]%elem_of_cons.
Qed.

Lemma readBuildOutput_calls msgs ending : ∀ w,
  calls (snd (readBuildOutput msgs ending w)) = calls w.
Proof.
  induction msgs as [|msg msgs IH]; intros w; cbn [readBuildOutput].
  - by destruct ending.
  - case_bool_decide; [done|]. run.
    case_bool_decide; cbn beta iota;
      match goal with
      | |- context [readBuildOutput msgs ending ?w1] =>
          specialize (IH w1);
          destruct (readBuildOutput msgs ending w1) as [[?|?] ?]
      end; by rewrite IH.
Qed.

(** [buildImage] never returns before the engine has been asked to build:
    the error test after [createBuildContextTar] cannot fire. *)
Lemma buildImage_always_calls H E config baseDir imageName w :
  ∃ options,
    calls (snd (buildImage H E config baseDir imageName w))
    = calls w
      ++ [CallBuild
            (fst (buildContextProducer (Separator H)
                    (hostLstat H
                       (if negb (IsAbs H (Context config))
                        then Join H baseDir (Context config)
                        else Context config))))
            options].
Proof.
  unfold buildImage, createBuildContextTar. run. eexists.
  cbn [calls with_stdout].
  match goal with
  | |- context [engBuild E ?h ?t ?o] => destruct (engBuild E h t o) as [body|e]
  end; [|done].
  match goal with
  | |- context [readBuildOutput ?m ?e ?w1] =>
      pose proof (readBuildOutput_calls m e w1) as Hc;
      destruct (readBuildOutput m e w1) as [[?|?] ?]
  end; cbn in *; by rewrite Hc.
Qed.

(** C10.  [createBuildContextTar] returns a nil error for every context,
    and the stream it returns is whatever the producer wrote, whatever the
    walk returned.  When the context directory does not exist the walk
    fails and the stream is an archive without members; when a file cannot
    be read the walk fails and the stream stops after the header of that
    file, without the end-of-archive blocks.  In both cases the caller gets
    no error: [buildImage] always goes on to ask the engine for a build. *)
Theorem createBuildContextTar_never_fails (sep : ascii)
    (context : option Node) :
  snd (createBuildContextTar sep context) = None
  ∧ fst (createBuildContextTar sep context)
    = fst (buildContextProducer sep context)
  ∧ (context = None →
     snd (buildContextProducer sep context)
     = Some (Errorf "lstat: no such file or directory")
     ∧ fst (createBuildContextTar sep context)
       = {| entries := []; trailer := true |})
  ∧ snd (buildContextProducer "/" (Some lockedContext))
    = Some (Errorf "open: permission denied")
  ∧ snd (createBuildContextTar "/" (Some lockedContext)) = None
  ∧ memberNames (fst (createBuildContextTar "/" (Some lockedContext)))
    = ["."; "Dockerfile"; "secret.key"]
  ∧ trailer (fst (createBuildContextTar "/" (Some lockedContext))) = false
  ∧ (∀ H E config baseDir imageName w,
       ∃ buildContext options,
         calls (snd (buildImage H E config baseDir imageName w))
         = calls w ++ [CallBuild buildContext options]).
Proof.
  split; [done|]. split; [done|]. split; [by intros ->|].
  repeat (split; [vm_compute; reflexivity|]).
  intros H E config baseDir imageName w.
  destruct (buildImage_always_calls H E config baseDir imageName w)
    as [options Hcalls].
  eauto.
Qed.

Lemma createBuildContextTar_never_fails_witness :
  createBuildContextTar "/" None = ({| entries := []; trailer := true |}, None).
Proof.
  pose proof (createBuildContextTar_never_fails "/"%char None)
    as (Herr & _ & Hnone & _).
  destruct (Hnone eq_refl) as [_ Hstream].
  destruct (createBuildContextTar "/" None) as [stream err].
  cbn in *. by rewrite Herr, Hstream.
Defined.

(** ** The layout of the archive, in general *)

(** Inversion of a run that ends well. *)
Lemma bind_OK {A B : Type} (m : M A) (f : A → M B) w b w' :
  (m ≫= f) w = (OK b, w') →
  ∃ a w1, m w = (OK a, w1) ∧ f a w1 = (OK b, w').
Proof.
  unfold mbind, M_bind. destruct (m w) as [[a|e] w1]; [eauto|done].
Qed.

Lemma wrapped_OK {A : Type} prefix (m : M A) w a w' :
  wrapped prefix m w = (OK a, w') → m w = (OK a, w').
Proof. unfold wrapped. by destruct (m w) as [[?|?] ?]. Qed.

Lemma fault_OK H op w u w' : fault H op w = (OK u, w') → w' = w.
Proof. unfold fault. destruct (hostFault H op); congruence. Qed.

(** Listings after a write. *)
Lemma put_child_names name n cs :
  (put_child name n cs).*1 = name :: filter (λ k, k ≠ name) cs.*1.
Proof.
  unfold put_child. rewrite fmap_cons. cbn [fst]. f_equal.
  induction cs as [|[k c] cs IH]; [done|].
  rewrite fmap_cons, !filter_cons. cbn [fst].
  case_decide; [rewrite fmap_cons|]; by rewrite IH.
Qed.

Lemma put_child_NoDup name n cs :
  NoDup cs.*1 → NoDup (put_child name n cs).*1.
Proof.
  intros Hcs. rewrite put_child_names. apply NoDup_cons. split.
  - rewrite list_elem_of_filter. tauto.
  - by apply NoDup_filter.
Qed.

Lemma put_child_elem name n cs k :
  k ∈ (put_child name n cs).*1 ↔ k = name ∨ k ∈ cs.*1.
Proof.
  rewrite put_child_names, elem_of_cons, list_elem_of_filter.
  destruct (decide (k = name)); tauto.
Qed.

Lemma put_child_plain name mode content cs :
  Forall plainFile cs →
  Forall plainFile (put_child name (File mode true content) cs).
Proof.
  intros Hcs. apply Forall_cons. split; [by eexists _, _|].
  rewrite Forall_forall in *. intros p [_ Hp]%list_elem_of_filter. auto.
Qed.

Section ArchiveFacts.

Variable H : Host.
Variable E : Engine.

(** Every file name of the map of images is the sanitized reference with
    the suffix ".tar". *)
Lemma processServices_names services baseDir bundleName bundleVersion :
  ∀ compose imageMap w compose' imageMap' w',
    processServices H E services baseDir bundleName bundleVersion compose
      imageMap w = (OK (compose', imageMap'), w') →
    (∀ k v, imageMap !! k = Some v → v = sanitizeFilename k +:+ ".tar") →
    ∀ k v, imageMap' !! k = Some v → v = sanitizeFilename k +:+ ".tar".
Proof.
  induction services as [|[serviceName service] rest IH];
    intros compose imageMap w compose' imageMap' w' Hrun Hmap.
  - cbn in Hrun. injection Hrun as <- <- <-. done.
  - cbn [processServices] in Hrun.
    apply bind_OK in Hrun as ([imageName service'] & w1 & _ & Hrun).
    case_bool_decide.
    + eapply IH; [exact Hrun|]. intros k v. rewrite lookup_insert.
      case_decide; [intros [= <-]; by subst|by apply Hmap].
    + by eapply IH.
Qed.

Lemma put_in_images name n w imgs :
  imagesOnly w imgs →
  ∃ w', put_in_temp ["images"; name] n w = (OK tt, w')
        ∧ imagesOnly w' (put_child name n imgs)
        ∧ written w' = written w.
Proof.
  unfold imagesOnly, put_in_temp. intros ->. cbn. eauto.
Qed.

Lemma saveImage_shape imageName name w w' imgs :
  saveImage H E imageName ["images"; name] w = (OK tt, w') →
  imagesOnly w imgs →
  ∃ content,
    imagesOnly w' (put_child name (File 438 true content) imgs)
    ∧ written w' = written w.
Proof.
  unfold saveImage. intros Hrun Himgs.
  apply bind_OK in Hrun as ([] & w1 & [= <-] & Hrun).
  apply bind_OK in Hrun as (reader & w2 & [= <- <-] & Hrun).
  destruct (engSave E _ _) as [content|?]; [|done].
  apply bind_OK in Hrun as ([] & w3 & ->%fault_OK & Hrun).
  apply bind_OK in Hrun as ([] & w4 & Hput1 & Hrun).
  apply bind_OK in Hrun as ([] & w5 & ->%fault_OK & Hput2).
  match type of Hput1 with
  | put_in_temp _ _ ?w0 = _ =>
      destruct (put_in_images name (File 438 true "") w0 imgs Himgs)
        as (w4' & Hput1' & Himgs4 & Hw4)
  end.
  rewrite Hput1' in Hput1. injection Hput1 as <-.
  destruct (put_in_images name (File 438 true content) _ _ Himgs4)
    as (w5' & Hput2' & Himgs5 & Hw5).
  rewrite Hput2' in Hput2. injection Hput2 as <-.
  exists content. rewrite put_child_twice in Himgs5. split; [done|].
  by rewrite Hw5, Hw4.
Qed.

(** After the second loop of [Bundle], the directory of images has one
    readable file for each file name of the list, and no two entries of the
    same name. *)
Lemma saveImages_shape images : ∀ w w' imgs,
  saveImages H E images w = (OK tt, w') →
  imagesOnly w imgs →
  NoDup imgs.*1 →
  Forall plainFile imgs →
  ∃ imgs',
    imagesOnly w' imgs'
    ∧ written w' = written w
    ∧ NoDup imgs'.*1
    ∧ Forall plainFile imgs'
    ∧ ∀ name, name ∈ imgs'.*1 ↔ name ∈ imgs.*1 ∨ name ∈ images.*2.
Proof.
  induction images as [|[imageName tarFileName] rest IH];
    intros w w' imgs Hrun Himgs Hnodup Hplain.
  - injection Hrun as <-. exists imgs. repeat split; try done.
    + by left.
    + intros [?|[]%elem_of_nil]. done.
  - cbn [saveImages] in Hrun.
    apply bind_OK in Hrun as ([] & w1 & Hsave%wrapped_OK & Hrun).
    destruct (saveImage_shape _ _ _ _ _ Hsave Himgs) as (content & Himgs1 & Hw1).
    destruct (IH _ _ _ Hrun Himgs1) as (imgs' & ? & Hw & ? & ? & Hnames).
    { by apply put_child_NoDup. }
    { by apply put_child_plain. }
    exists imgs'. repeat split; try done; [congruence|..].
    + intros Hn%Hnames. rewrite put_child_elem in Hn. cbn.
      rewrite elem_of_cons. tauto.
    + intros Hn. apply Hnames. rewrite put_child_elem.
      cbn in Hn. rewrite elem_of_cons in Hn. tauto.
Qed.

End ArchiveFacts.

Lemma Copy_WriteHeader tw name mode content :
  Copy (WriteHeader tw name (File mode true content)) content
  = tw ++ [ {| hdr_name := name; hdr_dir := false; hdr_mode := mode;
               hdr_size := String.length content; body := content |} ].
Proof.
  unfold Copy, WriteHeader. rewrite reverse_app, reverse_singleton.
  cbn [app hdr_name hdr_dir hdr_mode hdr_size body IsDir Mode Size].
  by rewrite reverse_involutive.
Qed.

Lemma insert_sorted_perm p cs : insert_sorted p cs ≡ₚ p :: cs.
Proof.
  induction cs as [|q cs IH]; [done|]. cbn.
  destruct (String.leb p.1 q.1); [done|]. rewrite IH. apply Permutation_swap.
Qed.

Lemma sorted_listing_perm cs : foldr insert_sorted [] cs ≡ₚ cs.
Proof.
  induction cs as [|p cs IH]; [done|]. cbn.
  by rewrite insert_sorted_perm, IH.
Qed.

Lemma in_walk_order_plain cs :
  Forall plainFile cs →
  map (λ p : string * Node, (p.1, in_walk_order p.2)) cs = cs.
Proof.
  induction 1 as [|[k c] cs (mode & content & Hc) _ IH]; [done|].
  cbn in *. subst c. by rewrite IH.
Qed.

(** The walk of a directory of readable files with the callback of
    [createTarGz], on a host whose separator is the slash: one member for
    each file, under the name of the directory, and no error. *)
Lemma walk_names_plain dir files : ∀ tw,
  Forall plainFile files →
  ∃ es,
    walk_names (λ path info st, walk (tarGzFn "/") path info st) [dir] files
      tw = (tw ++ es, None)
    ∧ hdr_name <$> es = (λ k, dir +:+ "/" +:+ k) <$> files.*1.
Proof.
  induction files as [|[k c] files IH]; intros tw Hfiles.
  - exists []. by rewrite app_nil_r.
  - apply Forall_cons in Hfiles as [(mode & content & Hc) Hfiles].
    cbn in Hc. subst c. rewrite walk_names_cons.
    cbn [app walk tarGzFn Rel ToSlash String.concat Ascii.eqb Bool.eqb].
    cbn [IsDir negb Open].
    replace (String.eqb (dir +:+ "/" +:+ k) ".") with false.
    2:{ symmetry. apply String.eqb_neq. intros Heq.
        destruct dir as [|a [|b dir]]; [| |done].
        - destruct k; done.
        - destruct k; done. }
    rewrite Copy_WriteHeader.
    destruct (IH (tw ++ [ {| hdr_name := dir +:+ "/" +:+ k; hdr_dir := false;
                             hdr_mode := mode;
                             hdr_size := String.length content;
                             body := content |} ]) Hfiles)
      as (es & -> & Hes).
    eexists (_ :: es). rewrite <- app_assoc. split; [done|].
    cbn. by rewrite Hes.
Qed.

Ltac walk_step :=
  rewrite walk_names_cons;
  cbn [app walk tarGzFn Rel ToSlash String.concat Ascii.eqb Bool.eqb IsDir
       negb Open String.eqb].

(** The walk of the working directory as [assemble] leaves it, on a host
    whose separator is the slash. *)
Lemma Walk_working_directory imgs c1 c2 c3 c4 :
  Forall plainFile imgs →
  ∃ es names,
    Walk (Some (Directory 448 true
                  [ ("README.md", File 420 true c4);
                    ("load-images.bat", File 493 true c3);
                    ("load-images.sh", File 493 true c2);
                    ("docker-compose.yml", File 420 true c1);
                    ("images", Directory 493 true imgs) ]))
      (tarGzFn "/") [] = (es, None)
    ∧ hdr_name <$> es
      = ["README.md"; "docker-compose.yml"; "images"]
        ++ ((λ k, "images/" +:+ k) <$> names)
        ++ ["load-images.bat"; "load-images.sh"]
    ∧ names ≡ₚ imgs.*1.
Proof.
  intros Himgs. unfold Walk.
  set (simgs := foldr insert_sorted [] imgs).
  assert (Hs : in_walk_order
            (Directory 448 true
               [ ("README.md", File 420 true c4);
                 ("load-images.bat", File 493 true c3);
                 ("load-images.sh", File 493 true c2);
                 ("docker-compose.yml", File 420 true c1);
                 ("images", Directory 493 true imgs) ])
          = Directory 448 true
              [ ("README.md", File 420 true c4);
                ("docker-compose.yml", File 420 true c1);
                ("images", Directory 493 true simgs);
                ("load-images.bat", File 493 true c3);
                ("load-images.sh", File 493 true c2) ]).
  { subst simgs. rewrite <- (in_walk_order_plain imgs Himgs) at 2.
    reflexivity. }
  rewrite Hs. clear Hs.
  assert (Hplain : Forall plainFile simgs).
  { subst simgs. by rewrite sorted_listing_perm. }
  cbn [walk tarGzFn Rel]. cbn [String.eqb Ascii.eqb Bool.eqb].
  walk_step. rewrite Copy_WriteHeader.
  walk_step. rewrite Copy_WriteHeader.
  walk_step.
  match goal with
  | |- context [walk_names ?f ["images"] simgs ?tw] =>
      destruct (walk_names_plain "images" simgs tw Hplain) as (es & -> & Hes)
  end.
  walk_step. rewrite Copy_WriteHeader.
  walk_step. rewrite Copy_WriteHeader.
  cbn [walk_names]. eexists _, simgs.*1. split; [done|]. split.
  - unfold WriteHeader. rewrite !fmap_app, Hes. cbn.
    by rewrite <- !app_assoc.
  - subst simgs. by rewrite sorted_listing_perm.
Qed.

Section LayoutFacts.

Variable H : Host.
Variable E : Engine.

Lemma WriteFile_top name data perm w w' cs :
  WriteFile H [name] data perm w = (OK tt, w') →
  tempDir w = Some (Directory 448 true cs) →
  tempDir w'
  = Some (Directory 448 true (put_child name (File perm true data) cs))
  ∧ written w' = written w.
Proof.
  unfold WriteFile. intros Hrun Hdir.
  apply bind_OK in Hrun as ([] & w1 & ->%fault_OK & Hrun).
  unfold put_in_temp in Hrun. rewrite Hdir in Hrun.
  by injection Hrun as <-.
Qed.

(** What [assemble] writes to the output file, on a host whose separator is
    the slash: the four fixed files, the directory of images, and under it
    one member for each file name of the map of images, each name once. *)
Lemma assemble_layout compose imageMap outputFile w w' :
  Separator H = "/"%char →
  assemble H E compose imageMap outputFile w = (OK tt, w') →
  ∃ stream names,
    written w' = <[outputFile := stream]> (written w)
    ∧ memberNames stream
      = ["README.md"; "docker-compose.yml"; "images"]
        ++ ((λ k, "images/" +:+ k) <$> names)
        ++ ["load-images.bat"; "load-images.sh"]
    ∧ NoDup names
    ∧ ∀ name, name ∈ names ↔ ∃ ref, imageMap !! ref = Some name.
Proof.
  intros Hsep Hrun. unfold assemble in Hrun.
  apply bind_OK in Hrun as ([] & w1 & [= <-] & Hrun).
  apply bind_OK in Hrun as ([] & w2 & Hmk%wrapped_OK & Hrun).
  apply bind_OK in Hmk as ([] & w1' & ->%fault_OK & Hmk).
  injection Hmk as <-.
  apply bind_OK in Hrun as ([] & w3 & Hsave & Hrun).
  destruct (saveImages_shape H E _ _ _ [] Hsave)
    as (imgs & Himgs & Hw3 & Hnodup & Hplain & Hnames);
    [done|constructor|constructor|].
  apply bind_OK in Hrun as ([] & w3' & [= <-] & Hrun).
  apply bind_OK in Hrun as ([] & w4 & Hyml%wrapped_OK & Hrun).
  unfold writeComposeFile in Hyml.
  destruct (hostMarshal H compose) as [data|?]; [|done].
  apply (WriteFile_top _ _ _ _ _ _ Hyml) in Himgs as [Hd4 Hw4].
  apply bind_OK in Hrun as ([] & w6 & Hscripts%wrapped_OK & Hrun).
  unfold createLoadScript in Hscripts.
  apply bind_OK in Hscripts as ([] & w5 & Hsh & Hbat).
  apply (WriteFile_top _ _ _ _ _ _ Hsh) in Hd4 as [Hd5 Hw5].
  apply (WriteFile_top _ _ _ _ _ _ Hbat) in Hd5 as [Hd6 Hw6].
  apply bind_OK in Hrun as ([] & w7 & Hreadme%wrapped_OK & Htar%wrapped_OK).
  unfold createReadme in Hreadme.
  apply (WriteFile_top _ _ _ _ _ _ Hreadme) in Hd6 as [Hd7 Hw7].
  unfold createTarGz in Htar.
  apply bind_OK in Htar as ([] & w7' & ->%fault_OK & Htar).
  rewrite Hd7, Hsep in Htar. unfold put_child in Htar.
  repeat (rewrite filter_cons_True in Htar by done).
  rewrite filter_nil in Htar.
  edestruct (Walk_working_directory imgs) as (es & names & Hwalk & Hes & Hperm);
    [exact Hplain|].
  rewrite Hwalk in Htar. injection Htar as <-.
  exists (Close es), names. cbn [written with_written].
  split; [by rewrite Hw7, Hw6, Hw5, Hw4, Hw3|].
  split; [done|]. split; [by rewrite Hperm|].
  intros name. rewrite Hperm, Hnames. split.
  - intros [[]%elem_of_nil|[[ref f] [-> Hin]]%list_elem_of_fmap].
    exists ref. rewrite (hostRange_perm H) in Hin.
    by apply elem_of_map_to_list in Hin.
  - intros [ref Href]. right. apply list_elem_of_fmap.
    exists (ref, name). split; [done|].
    rewrite (hostRange_perm H). by apply elem_of_map_to_list.
Qed.

End LayoutFacts.

Lemma string_length_app (s t : string) :
  String.length (s +:+ t) = String.length s + String.length t.
Proof.
  induction s as [|c s IH]; [done|]. rewrite string_app_cons. cbn.
  by rewrite IH.
Qed.

Lemma string_app_inv_tail (s t u : string) : s +:+ u = t +:+ u → s = t.
Proof.
  revert t. induction s as [|a s IH]; intros [|b t] Heq; [done|..].
  - apply (f_equal String.length) in Heq.
    rewrite string_app_cons, string_app_nil_l in Heq. cbn in Heq.
    rewrite string_length_app in Heq. lia.
  - apply (f_equal String.length) in Heq.
    rewrite string_app_cons, string_app_nil_l in Heq. cbn in Heq.
    rewrite string_length_app in Heq. lia.
  - rewrite !string_app_cons in Heq. injection Heq as -> Heq.
    f_equal. by apply IH.
Qed.

(** X17.  The archive of a run that ends well, on a host whose separator is
    the slash: the four fixed files and the directory of images, no member for
    the root, and under images/ one member for each file name made from a
    resolved reference.  There is one member for each resolved reference
    when no two of them have the same sanitized form; the run on
    [collidingManifest] shows what happens otherwise. *)
Theorem Bundle_archive_layout (H : Host) (E : Engine)
    (composeFile outputFile : string) (w w' : World) :
  Separator H = "/"%char →
  Bundle H E composeFile outputFile w = (OK tt, w') →
  ∃ compose xb compose' imageMap w1 stream names,
    hostReadYaml H composeFile = OK compose
    ∧ validateXBundle compose = OK xb
    ∧ processServices H E (hostRange H _ (Services compose))
        (Dir H composeFile) (Name xb) (Version xb) compose ∅ w
      = (OK (compose', imageMap), w1)
    ∧ written w' !! outputFile = Some stream
    ∧ memberNames stream
      = ["README.md"; "docker-compose.yml"; "images"]
        ++ ((λ k, "images/" +:+ k) <$> names)
        ++ ["load-images.bat"; "load-images.sh"]
    ∧ NoDup names
    ∧ (∀ name,
         name ∈ names ↔
         ∃ ref, is_Some (imageMap !! ref)
                ∧ name = sanitizeFilename ref +:+ ".tar")
    ∧ ((∀ r1 r2, is_Some (imageMap !! r1) → is_Some (imageMap !! r2) →
                 sanitizeFilename r1 = sanitizeFilename r2 → r1 = r2) →
       length names = size imageMap).
Proof.
  intros Hsep Hrun. unfold Bundle, bundleThen in Hrun.
  apply bind_OK in Hrun as (compose & w0 & Hparse%wrapped_OK & Hrun).
  unfold parseComposeFile, lift in Hparse. injection Hparse as Hread <-.
  apply bind_OK in Hrun as (xb & w0 & [= Hval <-] & Hrun).
  apply bind_OK in Hrun as ([compose' imageMap] & w1 & Hproc & Hrun).
  apply bind_OK in Hrun as ([] & w2 & ->%wrapped_OK%fault_OK & Hrun).
  unfold deferRemoveAll in Hrun.
  destruct ((assemble H E compose' imageMap outputFile
             ≫= λ _ : (), cleanup H E compose') w1) as [r w3] eqn:Hbody.
  injection Hrun as -> <-.
  apply bind_OK in Hbody as ([] & w4 & Hasm & Hclean).
  destruct (cleanup_total H E compose' w4) as (w5 & Hclean' & Hw5).
  rewrite Hclean' in Hclean. injection Hclean as <-.
  destruct (assemble_layout H E _ _ _ _ _ Hsep Hasm)
    as (stream & names & Hw4 & Hmembers & Hnodup & Hnames).
  pose proof (processServices_names H E _ _ _ _ _ _ _ _ _ _ Hproc) as Htar.
  assert (Hin : ∀ name, name ∈ names ↔
            ∃ ref, is_Some (imageMap !! ref)
                   ∧ name = sanitizeFilename ref +:+ ".tar").
  { intros name. rewrite Hnames. split.
    - intros [ref Href]. exists ref. split; [by eexists|].
      eapply Htar; [|exact Href]. intros k v. by rewrite lookup_empty.
    - intros (ref & [v Hv] & ->). exists ref. rewrite Hv. f_equal.
      eapply Htar; [|exact Hv]. intros k v'. by rewrite lookup_empty. }
  exists compose, xb, compose', imageMap, w1, stream, names.
  repeat (split; [done|]).
  split; [cbn; by rewrite Hw5, Hw4, lookup_insert_eq|].
  repeat (split; [done|]).
  intros Hinj.
  assert (Hperm : names
            ≡ₚ (λ ref, sanitizeFilename ref +:+ ".tar")
                 <$> (map_to_list imageMap).*1).
  { apply NoDup_Permutation; [done| |].
    - apply NoDup_fmap_2_strong; [|apply NoDup_fst_map_to_list].
      intros r1 r2 [[? v1] [-> Hr1%elem_of_map_to_list]]%list_elem_of_fmap
        [[? v2] [-> Hr2%elem_of_map_to_list]]%list_elem_of_fmap
        Heq%string_app_inv_tail.
      by apply Hinj.
    - intros name. rewrite Hin, list_elem_of_fmap. split.
      + intros (ref & [v Hv] & ->). exists ref. split; [done|].
        apply list_elem_of_fmap. exists (ref, v). split; [done|].
        by apply elem_of_map_to_list.
      + intros (ref & -> & [[k v] [-> Hr%elem_of_map_to_list]]%list_elem_of_fmap).
        exists k. split; [by eexists|done]. }
  by rewrite Hperm, !length_fmap, length_map_to_list.
Qed.

(** * Further facts *)

(** ** Failing builds and pulls *)

Section FailureFacts.

Variable H : Host.
Variable E : Engine.

Lemma readBuildOutput_stops before bad after ending :
  Forall (λ msg, ErrorText msg = "") before →
  ErrorText bad ≠ "" →
  ∀ w,
    fst (readBuildOutput (before ++ bad :: after) ending w)
    = Err (Errorf ("build error: " +:+ ErrorText bad))
    ∧ stdout (snd (readBuildOutput (before ++ bad :: after) ending w))
      = stdout w ++ streamTexts before
    ∧ calls (snd (readBuildOutput (before ++ bad :: after) ending w))
      = calls w.
Proof.
  intros Hbefore Hbad.
  induction Hbefore as [|msg before Hmsg _ IH]; intros w.
  - cbn [app readBuildOutput]. rewrite bool_decide_eq_true_2 by done.
    cbn. by rewrite app_nil_r.
  - cbn [app readBuildOutput].
    rewrite bool_decide_eq_false_2 by (by intros []). run.
    unfold streamTexts. rewrite fmap_cons, filter_cons.
    case_bool_decide; case_decide; try done; cbn beta iota.
    match goal with
    | |- context [readBuildOutput _ ending ?w1] =>
        destruct (IH w1) as (-> & -> & ->)
    end.
    cbn. by rewrite <- app_assoc.
Qed.

(** X1.  An error frame in the answer to a build ends the run of the
    resolver on that service: the error is "build error: " followed by the
    text of the frame, the lines of the frames before it have been printed
    and nothing of what follows, and the engine has been asked for the
    build and for nothing else. *)
Theorem build_error_frame_stops (serviceName : string) (service : Service)
    (baseDir bundleName bundleVersion : string) (w : World)
    (build : Any) (config : BuildConfig) (body : Body)
    (before : list JSONMessage) (bad : JSONMessage)
    (after : list JSONMessage) :
  Build service = Some build →
  parseBuildConfig H build = OK config →
  let imageName :=
    "bundles/" +:+ bundleName +:+ "/" +:+ serviceName +:+ ":"
    +:+ bundleVersion in
  let buildContext :=
    if IsAbs H (Context config) then Context config
    else Join H baseDir (Context config) in
  let dockerfile :=
    if bool_decide (Dockerfile config = "") then "Dockerfile"
    else Dockerfile config in
  let tar :=
    fst (createBuildContextTar (Separator H) (hostLstat H buildContext)) in
  let options :=
    {| opt_Dockerfile := dockerfile; Tags := [imageName]; Remove := true;
       BuildArgs := Args config |} in
  engBuild E (calls w) tar options = OK body →
  messages body = before ++ bad :: after →
  Forall (λ msg, ErrorText msg = "") before →
  ErrorText bad ≠ "" →
  let result :=
    processServiceWithBundle H E serviceName service baseDir bundleName
      bundleVersion w in
  fst result = Err (Errorf ("build error: " +:+ ErrorText bad))
  ∧ calls (snd result) = calls w ++ [CallBuild tar options]
  ∧ stdout (snd result)
    = stdout w
      ++ ["Building image " +:+ imageName +:+ " from " +:+ buildContext
          +:+ "..." +:+ nl]
      ++ streamTexts before.
Proof.
  intros Hbuild Hparse imageName buildContext dockerfile tar options Heng
    Hmsgs Hbefore Hbad result. subst result.
  unfold processServiceWithBundle. rewrite Hbuild, Hparse.
  fold imageName. unfold buildImage, createBuildContextTar. run.
  replace (if negb (IsAbs H (Context config))
           then Join H baseDir (Context config) else Context config)
    with buildContext by (subst buildContext; by destruct (IsAbs H _)).
  fold dockerfile. cbn [fst]. fold options. cbn [calls with_stdout].
  change (buildContextProducer (Separator H) (hostLstat H buildContext)).1
    with tar.
  rewrite Heng, Hmsgs.
  match goal with
  | |- context [readBuildOutput _ ?e ?w1] =>
      destruct (readBuildOutput_stops before bad after e Hbefore Hbad w1)
        as (Hr & Hout & Hc);
      destruct (readBuildOutput (before ++ bad :: after) e w1) as [r w2]
  end.
  cbn in *. subst r. cbn. by rewrite Hout, Hc, <- app_assoc.
Qed.

Lemma readPullOutput_state msgs ending w :
  snd (readPullOutput msgs ending w) = w.
Proof.
  induction msgs as [|msg msgs IH]; cbn [readPullOutput].
  - by destruct ending.
  - by case_bool_decide.
Qed.

Lemma readPullOutput_stops before bad after ending w :
  Forall (λ msg, ErrorText msg = "") before →
  ErrorText bad ≠ "" →
  readPullOutput (before ++ bad :: after) ending w
  = (Err (Errorf ("pull error: " +:+ ErrorText bad)), w).
Proof.
  intros Hbefore Hbad.
  induction Hbefore as [|msg before Hmsg _ IH]; cbn [app readPullOutput].
  - by rewrite bool_decide_eq_true_2.
  - by rewrite bool_decide_eq_false_2 by (by intros []).
Qed.

(** X2.  When the local inspection of an image fails, the image is
    recorded as freshly pulled as soon as the engine has accepted the pull,
    before the answer is read: an error frame in the answer, or an answer
    that breaks off, gives an error and leaves the image recorded.  When
    the engine refuses the pull itself, the error is returned and the image
    is not recorded. *)
Theorem pull_failure_record (imageName : string) (w : World) (e : error) :
  engInspect E (calls w) imageName = Some e →
  let result := pullImageIfNotExists E imageName w in
  (∀ body before bad after,
     engPull E (calls w ++ [CallInspect imageName]) imageName = OK body →
     messages body = before ++ bad :: after →
     Forall (λ msg, ErrorText msg = "") before →
     ErrorText bad ≠ "" →
     fst result = Err (Errorf ("pull error: " +:+ ErrorText bad))
     ∧ freshlyPulledImages (snd result)
       = <[imageName := true]> (freshlyPulledImages w))
  ∧ (∀ body broken,
       engPull E (calls w ++ [CallInspect imageName]) imageName = OK body →
       Forall (λ msg, ErrorText msg = "") (messages body) →
       ending body = Some broken →
       fst result = Err broken
       ∧ freshlyPulledImages (snd result)
         = <[imageName := true]> (freshlyPulledImages w))
  ∧ (∀ refused,
       engPull E (calls w ++ [CallInspect imageName]) imageName
       = Err refused →
       fst result = Err refused
       ∧ freshlyPulledImages (snd result) = freshlyPulledImages w).
Proof.
  intros Hinspect result. subst result. unfold pullImageIfNotExists. run.
  rewrite Hinspect. cbn [calls with_stdout with_calls].
  split; [|split].
  - intros body before bad after -> Hmsgs Hbefore Hbad.
    by rewrite Hmsgs, readPullOutput_stops.
  - intros body broken -> Hmsgs Hend.
    pose proof (readPullOutput_state (messages body) (ending body)) as Hst.
    assert (Hr : ∀ w0, fst (readPullOutput (messages body) (ending body) w0)
                       = Err broken).
    { rewrite Hend. clear Hst. induction Hmsgs as [|msg msgs Hmsg _ IH];
        intros w0; cbn [readPullOutput]; [done|].
      by rewrite bool_decide_eq_false_2 by (by intros []). }
    match goal with
    | |- context [readPullOutput _ _ ?w1] =>
        specialize (Hst w1); specialize (Hr w1);
        destruct (readPullOutput (messages body) (ending body) w1) as [r w2]
    end.
    cbn in *. by subst.
  - by intros refused ->.
Qed.

(** X3.  A build spec that is neither a string nor a mapping fails the
    service with "invalid build configuration type" before anything is
    printed or asked from the engine, and the first loop of [Bundle] stops
    there with the name of the service in front of the message. *)
Theorem invalid_build_type (serviceName : string) (service : Service)
    (baseDir bundleName bundleVersion : string) (w : World) (build : Any) :
  Build service = Some build →
  (∀ v, build ≠ AString v) →
  (∀ v, build ≠ AMap v) →
  processServiceWithBundle H E serviceName service baseDir bundleName
    bundleVersion w
  = (Err (Errorf "invalid build configuration type"), w)
  ∧ ∀ rest compose imageMap,
      processServices H E ((serviceName, service) :: rest) baseDir
        bundleName bundleVersion compose imageMap w
      = (Err (Errorf ("failed to process service " +:+ serviceName
                      +:+ ": invalid build configuration type")), w).
Proof.
  intros Hbuild Hstring Hmap.
  assert (Hrun : processServiceWithBundle H E serviceName service baseDir
                   bundleName bundleVersion w
                 = (Err (Errorf "invalid build configuration type"), w)).
  { unfold processServiceWithBundle. rewrite Hbuild.
    destruct build as [v| | | |v]; try done.
    - by destruct (Hstring v).
    - by destruct (Hmap v). }
  split; [done|]. intros rest compose imageMap.
  cbn [processServices]. run. by rewrite Hrun.
Qed.

End FailureFacts.

(** ** What a run leaves alone *)

Section KeepsFacts.

Context (R : relation World) `{!PreOrder R}.

Lemma keeps_ret {A} (a : A) : keeps R (mret a).
Proof. intros w. cbn. reflexivity. Qed.

Lemma keeps_throw {A} (e : error) : keeps R (throw (A:=A) e).
Proof. intros w. cbn. reflexivity. Qed.

Lemma keeps_lift {A} (r : Result A) : keeps R (lift r).
Proof. intros w. cbn. reflexivity. Qed.

Lemma keeps_bind {A B} (m : M A) (f : A → M B) :
  keeps R m → (∀ a, keeps R (f a)) → keeps R (m ≫= f).
Proof.
  intros Hm Hf w. unfold mbind, M_bind. specialize (Hm w).
  destruct (m w) as [[a|e] w1]; cbn in *; [|done].
  etrans; [exact Hm|apply Hf].
Qed.

Lemma keeps_wrapped {A} prefix (m : M A) : keeps R m → keeps R (wrapped prefix m).
Proof.
  intros Hm w. unfold wrapped. specialize (Hm w).
  by destruct (m w) as [[a|e] w1].
Qed.

Lemma keeps_fault H op : keeps R (fault H op).
Proof. intros w. unfold fault. destruct (hostFault H op); cbn; reflexivity. Qed.

(** The resolver, for a relation that printing, engine calls other than
    removals and the run of [pullImageIfNotExists] keep. *)
Section Resolver.

Variable H : Host.
Variable E : Engine.

Hypothesis R_print : ∀ text, keeps R (Print text).
Hypothesis R_build : ∀ tar options A (answer : list EngineCall → A),
  keeps R (engine (CallBuild tar options) answer).
Hypothesis R_pull : ∀ imageName, keeps R (pullImageIfNotExists E imageName).

Lemma keeps_readBuildOutput msgs ending : keeps R (readBuildOutput msgs ending).
Proof.
  induction msgs as [|msg msgs IH]; cbn [readBuildOutput].
  - destruct ending; [apply keeps_throw|apply keeps_ret].
  - case_bool_decide; [apply keeps_throw|].
    apply keeps_bind; [|done].
    case_bool_decide; [apply R_print|apply keeps_ret].
Qed.

Lemma keeps_buildImage config baseDir imageName :
  keeps R (buildImage H E config baseDir imageName).
Proof.
  unfold buildImage, createBuildContextTar.
  apply keeps_bind; [apply R_print|]. intros _.
  apply keeps_bind; [apply R_build|]. intros [resp|e].
  - apply keeps_readBuildOutput.
  - apply keeps_throw.
Qed.

Lemma keeps_processServiceWithBundle serviceName service baseDir bundleName
    bundleVersion :
  keeps R (processServiceWithBundle H E serviceName service baseDir
             bundleName bundleVersion).
Proof.
  unfold processServiceWithBundle. destruct (Build service) as [build|].
  - destruct (parseBuildConfig H build); [|apply keeps_throw].
    apply keeps_bind; [apply keeps_buildImage|]. intros _. apply keeps_ret.
  - case_bool_decide; [|apply keeps_ret].
    apply keeps_bind; [apply R_pull|]. intros _. apply keeps_ret.
Qed.

Lemma keeps_processServices services baseDir bundleName bundleVersion :
  ∀ compose imageMap,
    keeps R (processServices H E services baseDir bundleName bundleVersion
               compose imageMap).
Proof.
  induction services as [|[serviceName service] rest IH];
    intros compose imageMap; cbn [processServices]; [apply keeps_ret|].
  apply keeps_bind.
  - apply keeps_wrapped, keeps_processServiceWithBundle.
  - intros [imageName service']. case_bool_decide; apply IH.
Qed.

End Resolver.

End KeepsFacts.

Lemma pulledNames_app cs cs' :
  pulledNames (cs ++ cs') = pulledNames cs ++ pulledNames cs'.
Proof. unfold pulledNames. apply bind_app. Qed.

Global Instance onlyPulls_preorder : PreOrder onlyPulls.
Proof.
  split.
  - intros w. exists []. rewrite app_nil_r. split; [done|]. split; [done|].
    by left.
  - intros w w1 w2 (cs1 & Hc1 & Hr1 & Hp1) (cs2 & Hc2 & Hr2 & Hp2).
    exists (cs1 ++ cs2). rewrite Hc2, Hc1, app_assoc.
    split; [done|]. split; [by rewrite removedNames_app, Hr1, Hr2|].
    intros imageName Hin. rewrite pulledNames_app, elem_of_app.
    destruct (Hp2 _ Hin) as [Hin1|?]; [|by auto].
    destruct (Hp1 _ Hin1); auto.
Qed.

Global Instance sameFiles_preorder : PreOrder sameFiles.
Proof.
  split; [done|].
  intros w w1 w2 [Ht1 Hw1] [Ht2 Hw2]. split; congruence.
Qed.

(** A step that leaves the history of calls and the record of pulled
    images as they are. *)
Lemma onlyPulls_quiet w w' :
  calls w' = calls w →
  freshlyPulledImages w' = freshlyPulledImages w →
  onlyPulls w w'.
Proof.
  intros Hc Hp. exists []. rewrite app_nil_r, Hp. split; [done|].
  split; [done|]. by left.
Qed.

(** A call that is not a removal joins the history. *)
Lemma onlyPulls_call {A} c (answer : list EngineCall → A) :
  removedNames [c] = [] → keeps onlyPulls (engine c answer).
Proof.
  intros Hc w. exists [c]. split; [done|]. split; [done|]. by left.
Qed.

Lemma onlyPulls_Print text : keeps onlyPulls (Print text).
Proof. intros w. by apply onlyPulls_quiet. Qed.

Lemma onlyPulls_pull E imageName :
  keeps onlyPulls (pullImageIfNotExists E imageName).
Proof.
  intros w. unfold pullImageIfNotExists. run.
  destruct (engInspect E (calls w) imageName) as [e|]; cbn.
  - destruct (engPull E _ imageName) as [body|e'] eqn:Hpull; cbn.
    + rewrite readPullOutput_state. cbn.
      exists [CallInspect imageName; CallPull imageName].
      cbn. rewrite <- app_assoc. split; [done|]. split; [done|].
      intros name. rewrite lookup_insert. case_decide; [subst|by left].
      intros _. right. apply list_elem_of_singleton. done.
    + exists [CallInspect imageName; CallPull imageName].
      cbn. rewrite <- app_assoc. split; [done|]. split; [done|]. by left.
  - exists [CallInspect imageName]. split; [done|]. split; [done|]. by left.
Qed.

Lemma sameFiles_pull E imageName :
  keeps sameFiles (pullImageIfNotExists E imageName).
Proof.
  intros w. unfold pullImageIfNotExists. run.
  destruct (engInspect E (calls w) imageName) as [e|]; cbn; [|done].
  destruct (engPull E _ imageName) as [body|e'] eqn:Hpull; cbn; [|done].
  by rewrite readPullOutput_state.
Qed.

(** The first loop of [Bundle] asks the engine for no removal, records as
    freshly pulled only images it asked the engine to pull, and touches no
    file of the working directory or outside it. *)
Lemma processServices_onlyPulls H E services baseDir bundleName bundleVersion
    compose imageMap :
  keeps onlyPulls (processServices H E services baseDir bundleName
                     bundleVersion compose imageMap).
Proof.
  apply keeps_processServices; try apply _.
  - apply onlyPulls_Print.
  - intros. by apply onlyPulls_call.
  - apply onlyPulls_pull.
Qed.

Lemma processServices_sameFiles H E services baseDir bundleName bundleVersion
    compose imageMap :
  keeps sameFiles (processServices H E services baseDir bundleName
                     bundleVersion compose imageMap).
Proof.
  apply keeps_processServices; try apply _; try done.
  apply sameFiles_pull.
Qed.

Section AssembleKeeps.

Variable H : Host.
Variable E : Engine.

Lemma onlyPulls_put_in_temp path n : keeps onlyPulls (put_in_temp path n).
Proof.
  intros w. unfold put_in_temp.
  destruct (tempDir w) as [[|m r cs]|]; try reflexivity.
  destruct path as [|name [|name' [|]]]; try reflexivity.
  - by apply onlyPulls_quiet.
  - destruct (snd <$> find _ cs) as [[|m' r' cs']|]; try reflexivity.
    by apply onlyPulls_quiet.
Qed.

Lemma onlyPulls_WriteFile path data perm :
  keeps onlyPulls (WriteFile H path data perm).
Proof.
  unfold WriteFile. apply (keeps_bind onlyPulls); [apply (keeps_fault onlyPulls)|].
  intros _. apply onlyPulls_put_in_temp.
Qed.

Lemma onlyPulls_saveImage imageName outputPath :
  keeps onlyPulls (saveImage H E imageName outputPath).
Proof.
  unfold saveImage. apply (keeps_bind onlyPulls); [apply onlyPulls_Print|]. intros _.
  apply (keeps_bind onlyPulls); [by apply onlyPulls_call|]. intros [reader|e].
  - repeat (apply (keeps_bind onlyPulls);
            [first [apply (keeps_fault onlyPulls)|apply onlyPulls_put_in_temp]|intros _]).
    apply onlyPulls_put_in_temp.
  - apply (keeps_throw onlyPulls).
Qed.

Lemma onlyPulls_saveImages images : keeps onlyPulls (saveImages H E images).
Proof.
  induction images as [|[imageName tarFileName] rest IH]; cbn [saveImages].
  - apply (keeps_ret onlyPulls).
  - apply (keeps_bind onlyPulls); [|done]. apply (keeps_wrapped onlyPulls), onlyPulls_saveImage.
Qed.

Lemma onlyPulls_createTarGz outputFile :
  keeps onlyPulls (createTarGz H outputFile).
Proof.
  unfold createTarGz. apply (keeps_bind onlyPulls); [apply (keeps_fault onlyPulls)|]. intros _ w.
  destruct (Walk _ _ _) as [tarWriter [e|]]; by apply onlyPulls_quiet.
Qed.

Lemma onlyPulls_assemble compose imageMap outputFile :
  keeps onlyPulls (assemble H E compose imageMap outputFile).
Proof.
  unfold assemble.
  apply (keeps_bind onlyPulls); [intros w; by apply onlyPulls_quiet|]. intros _.
  apply (keeps_bind onlyPulls).
  { apply (keeps_wrapped onlyPulls), (keeps_bind onlyPulls); [apply (keeps_fault onlyPulls)|].
    intros _. apply onlyPulls_put_in_temp. }
  intros _. apply (keeps_bind onlyPulls); [apply onlyPulls_saveImages|]. intros _.
  apply (keeps_bind onlyPulls); [apply (keeps_ret onlyPulls)|]. intros _.
  apply (keeps_bind onlyPulls).
  { apply (keeps_wrapped onlyPulls). unfold writeComposeFile.
    destruct (hostMarshal H compose); [apply onlyPulls_WriteFile|].
    apply (keeps_throw onlyPulls). }
  intros _. apply (keeps_bind onlyPulls).
  { apply (keeps_wrapped onlyPulls). unfold createLoadScript.
    apply (keeps_bind onlyPulls); [apply onlyPulls_WriteFile|].
    intros _. apply onlyPulls_WriteFile. }
  intros _. apply (keeps_bind onlyPulls).
  { apply (keeps_wrapped onlyPulls). apply onlyPulls_WriteFile. }
  intros _. apply (keeps_wrapped onlyPulls), onlyPulls_createTarGz.
Qed.

End AssembleKeeps.

(** ** Whole runs *)

Section RunFacts.

Variable H : Host.
Variable E : Engine.

(** The run of [Bundle] up to the end of [assemble], as far as the engine
    and the record of pulled images go. *)
Lemma resolve_assemble_onlyPulls composeFile outputFile w compose xb
    compose' imageMap w1 r w2 :
  processServices H E (hostRange H _ (Services compose)) (Dir H composeFile)
    (Name xb) (Version xb) compose ∅ w = (OK (compose', imageMap), w1) →
  assemble H E compose' imageMap outputFile w1 = (r, w2) →
  onlyPulls w w2.
Proof.
  intros Hproc Hasm.
  pose proof (processServices_onlyPulls H E
                  (hostRange H _ (Services compose)) (Dir H composeFile)
                  (Name xb) (Version xb) compose ∅ w) as H1.
  pose proof (onlyPulls_assemble H E compose' imageMap outputFile w1) as H2.
  rewrite Hproc in H1. rewrite Hasm in H2. cbn in *. by etrans.
Qed.

(** X4.  A run of [Bundle] that fails has asked the engine for no removal:
    the cleanup is reached only by the runs that end well, so the images
    pulled or built before the failure stay with the engine. *)
Theorem failed_run_removes_nothing (composeFile outputFile : string)
    (w w' : World) (e : error) :
  Bundle H E composeFile outputFile w = (Err e, w') →
  removedNames (calls w') = removedNames (calls w).
Proof.
  intros Hrun. unfold Bundle, bundleThen in Hrun.
  unfold mbind at 1 2 3 4, M_bind at 1 2 3 4 in Hrun.
  unfold wrapped at 1, parseComposeFile, lift in Hrun.
  destruct (hostReadYaml H composeFile) as [compose|?]; [|by injection Hrun as _ <-].
  destruct (validateXBundle compose) as [xb|?]; [|by injection Hrun as _ <-].
  destruct (processServices _ _ _ _ _ _ _ _ w)
    as [[[compose' imageMap]|?] w1] eqn:Hproc.
  2:{ injection Hrun as _ <-.
      pose proof (processServices_onlyPulls H E
                  (hostRange H _ (Services compose)) (Dir H composeFile)
                  (Name xb) (Version xb) compose ∅ w) as H1.
      rewrite Hproc in H1. destruct H1 as (cs & Hc & Hr & _). cbn in Hc.
      by rewrite Hc, removedNames_app, Hr, app_nil_r. }
  unfold wrapped, fault in Hrun.
  destruct (hostFault H FsMkdirTemp).
  { injection Hrun as _ <-.
    pose proof (processServices_onlyPulls H E
                  (hostRange H _ (Services compose)) (Dir H composeFile)
                  (Name xb) (Version xb) compose ∅ w) as H1.
    rewrite Hproc in H1. destruct H1 as (cs & Hc & Hr & _). cbn in Hc.
    by rewrite Hc, removedNames_app, Hr, app_nil_r. }
  unfold deferRemoveAll, mbind, M_bind in Hrun.
  destruct (assemble H E compose' imageMap outputFile w1) as [[[]|?] w2]
    eqn:Hasm.
  - destruct (cleanup_total H E compose' w2) as (w3 & Hclean & _).
    by rewrite Hclean in Hrun.
  - injection Hrun as _ <-. cbn.
    destruct (resolve_assemble_onlyPulls _ _ _ _ _ _ _ _ _ _ Hproc Hasm)
      as (cs & Hc & Hr & _).
    by rewrite Hc, removedNames_app, Hr, app_nil_r.
Qed.

(** X6.  In a run of [Bundle] that ends well, every image the engine was
    asked to remove has a name that begins with "bundled-", or is an image
    the engine was asked to pull in the course of the run, unless the
    removal or the record of the pull was there before the run.  Nothing
    is said here of an image the inspection found on the engine. *)
Theorem removals_are_own_images (composeFile outputFile : string)
    (w w' : World) (imageName : string) :
  Bundle H E composeFile outputFile w = (OK tt, w') →
  imageName ∈ removedNames (calls w') →
  imageName ∈ removedNames (calls w)
  ∨ is_Some (freshlyPulledImages w !! imageName)
  ∨ HasPrefix imageName "bundled-" = true
  ∨ imageName ∈ pulledNames (calls w').
Proof.
  intros Hrun Hin. unfold Bundle, bundleThen in Hrun.
  apply bind_OK in Hrun as (compose & w0 & Hparse%wrapped_OK & Hrun).
  unfold parseComposeFile, lift in Hparse. injection Hparse as Hread <-.
  apply bind_OK in Hrun as (xb & w0 & [= Hval <-] & Hrun).
  apply bind_OK in Hrun as ([compose' imageMap] & w1 & Hproc & Hrun).
  apply bind_OK in Hrun as ([] & w2 & ->%wrapped_OK%fault_OK & Hrun).
  unfold deferRemoveAll in Hrun.
  destruct ((assemble H E compose' imageMap outputFile
             ≫= λ _ : (), cleanup H E compose') w1) as [r w5] eqn:Hbody.
  injection Hrun as -> <-.
  apply bind_OK in Hbody as ([] & w2 & Hasm & Hclean).
  destruct (resolve_assemble_onlyPulls _ _ _ _ _ _ _ _ _ _ Hproc Hasm)
    as (cs & Hc2 & Hr2 & Hp2).
  unfold cleanup in Hclean.
  apply bind_OK in Hclean as ([] & w3 & Hbuilt & Hpulled).
  unfold warnOnError in Hbuilt, Hpulled.
  destruct (cleanupImages_only_bundled H E compose' w2)
    as (names & Hc3 & Hprefix & _).
  destruct (cleanupImages_total H E compose' w2)
    as (w3' & names' & Hrun3 & _ & Hp3 & _).
  rewrite Hrun3 in Hbuilt, Hc3. injection Hbuilt as <-. cbn in Hc3.
  destruct (cleanupFreshlyPulledImages_total H E w3') as (w4 & Hrun4 & Hc4 & _).
  rewrite Hrun4 in Hpulled. injection Hpulled as <-.
  cbn in Hin. rewrite Hc4, Hc3, Hc2 in Hin.
  rewrite !removedNames_app, !removedNames_removals, Hr2 in Hin.
  rewrite !elem_of_app in Hin.
  destruct Hin as [[[Hin|[]%elem_of_nil]|Hin]|Hin]; [by left|..].
  - right. right. left. rewrite Forall_forall in Hprefix. by apply Hprefix.
  - apply list_elem_of_fmap in Hin as [[k v] [-> Hin]].
    rewrite (hostRange_perm H) in Hin. apply elem_of_map_to_list in Hin.
    rewrite Hp3 in Hin. destruct (Hp2 k) as [?|Hpull]; [by eexists|by auto|].
    right. right. right. cbn. rewrite Hc4, Hc3, Hc2.
    rewrite !pulledNames_app, !elem_of_app. by left; left; right.
Qed.

End RunFacts.

(** ** The manifest after the resolver *)

Section ManifestFacts.

Variable H : Host.
Variable E : Engine.

(** What the resolver returns when it returns a service: the service as
    it was, with its image reference, when there was no build spec; the
    service with the synthetic reference and no build spec otherwise. *)
Lemma processServiceWithBundle_result serviceName service baseDir bundleName
    bundleVersion w imageName service' w' :
  processServiceWithBundle H E serviceName service baseDir bundleName
    bundleVersion w = (OK (imageName, service'), w') →
  (Build service = None ∧ service' = service ∧ imageName = Image service)
  ∨ (is_Some (Build service)
     ∧ imageName = syntheticReference bundleName serviceName bundleVersion
     ∧ service' = set_built service imageName).
Proof.
  unfold processServiceWithBundle.
  destruct (Build service) as [build|] eqn:Hbuild.
  - destruct (parseBuildConfig H build); [|done].
    intros ([] & w1 & _ & [= <- <- <-])%bind_OK. right. by eauto.
  - case_bool_decide as Himage.
    + intros ([] & w1 & _ & [= <- <- <-])%bind_OK. by left.
    + intros [= <- <- <-]. by left.
Qed.

Lemma syntheticReference_not_empty bundleName serviceName bundleVersion :
  syntheticReference bundleName serviceName bundleVersion ≠ "".
Proof. done. Qed.

Lemma processServices_manifest services baseDir bundleName bundleVersion :
  ∀ compose imageMap w compose' imageMap' w',
    processServices H E services baseDir bundleName bundleVersion compose
      imageMap w = (OK (compose', imageMap'), w') →
    NoDup services.*1 →
    (∀ name svc, (name, svc) ∈ services →
                 Services compose !! name = Some svc) →
    sameSections compose compose'
    ∧ (∀ name, name ∉ services.*1 →
               Services compose' !! name = Services compose !! name)
    ∧ (∀ name svc, (name, svc) ∈ services →
         ∃ svc', Services compose' !! name = Some svc'
                 ∧ Build svc' = None
                 ∧ ((Build svc = None ∧ svc' = svc)
                    ∨ (is_Some (Build svc)
                       ∧ svc' = set_built svc
                                  (syntheticReference bundleName name
                                     bundleVersion)))
                 ∧ (Image svc' ≠ "" → is_Some (imageMap' !! Image svc')))
    ∧ (∀ ref, is_Some (imageMap !! ref) → is_Some (imageMap' !! ref))
    ∧ (∀ ref, is_Some (imageMap' !! ref) →
              is_Some (imageMap !! ref)
              ∨ ∃ name svc', name ∈ services.*1
                             ∧ Services compose' !! name = Some svc'
                             ∧ Image svc' = ref).
Proof.
  induction services as [|[name svc] rest IH];
    intros compose imageMap w compose' imageMap' w' Hrun Hnodup Hin.
  - injection Hrun as <- <- <-. repeat split; try done.
    + by intros ?? []%elem_of_nil.
    + by left.
  - cbn [processServices] in Hrun.
    apply bind_OK in Hrun as ([imageName svc1] & w1 & Hhead%wrapped_OK & Hrun).
    apply processServiceWithBundle_result in Hhead.
    apply NoDup_cons in Hnodup as [Hfresh Hnodup]. cbn in Hfresh.
    assert (Hsvc : Build svc1 = None ∧ Image svc1 = imageName
                   ∧ ((Build svc = None ∧ svc1 = svc)
                      ∨ (is_Some (Build svc)
                         ∧ svc1 = set_built svc
                                    (syntheticReference bundleName name
                                       bundleVersion)))).
    { destruct Hhead as [(Hb & -> & ->)|(? & -> & ->)]; auto. }
    destruct Hsvc as (Hb1 & Hi1 & Hshape).
    case_bool_decide as Hname.
    + apply IH in Hrun as (Hsec & Hout & Hrest & Hmono & Hkeys);
        [|done|].
      2:{ intros k v Hk. cbn. rewrite lookup_insert_ne.
          - apply Hin. by right.
          - intros <-. apply Hfresh. apply list_elem_of_fmap.
            by exists (name, v). }
      assert (Hhere : Services compose' !! name = Some svc1).
      { rewrite Hout by done. cbn. apply lookup_insert_eq. }
      split; [exact Hsec|]. split; [|split; [|split]].
      * intros k [Hk1 Hk2]%not_elem_of_cons. rewrite Hout by done.
        cbn. by rewrite lookup_insert_ne.
      * intros k v [[= -> ->]|Hk]%elem_of_cons; [|by apply Hrest].
        exists svc1. repeat split; try done.
        intros _. apply Hmono. rewrite Hi1, lookup_insert_eq. by eexists.
      * intros ref Href. apply Hmono. rewrite lookup_insert.
        case_decide; [by eexists|done].
      * intros ref [Href|(k & v & Hk & Hv & Hiv)]%Hkeys.
        -- rewrite lookup_insert in Href. case_decide; [subst|by left].
           right. exists name, svc1. repeat split; try done. by left.
        -- right. exists k, v. repeat split; try done. by right.
    + apply IH in Hrun as (Hsec & Hout & Hrest & Hmono & Hkeys);
        [|done|intros k v Hk; apply Hin; by right].
      assert (Himage : imageName = "") by done.
      assert (Build svc = None ∧ svc1 = svc) as [Hb0 ->].
      { destruct Hhead as [(? & -> & _)|(_ & Hsyn & _)]; [done|].
        rewrite Himage in Hsyn. by destruct (syntheticReference_not_empty
                                               bundleName name bundleVersion). }
      split; [exact Hsec|]. split; [|split; [|split]].
      * intros k [Hk1 Hk2]%not_elem_of_cons. by apply Hout.
      * intros k v [[= -> ->]|Hk]%elem_of_cons; [|by apply Hrest].
        exists svc. rewrite Hout by done. split; [apply Hin; by left|].
        split; [done|]. split; [by left|]. by rewrite Hi1, Himage.
      * done.
      * intros ref [Href|(k & v & Hk & Hv & Hiv)]%Hkeys; [by left|].
        right. exists k, v. repeat split; try done. by right.
Qed.

End ManifestFacts.

Lemma hostRange_elem H {A} (m : gmap string A) k v :
  (k, v) ∈ hostRange H A m ↔ m !! k = Some v.
Proof. by rewrite (hostRange_perm H), elem_of_map_to_list. Qed.

Lemma hostRange_NoDup H {A} (m : gmap string A) : NoDup (hostRange H A m).*1.
Proof. rewrite (hostRange_perm H). apply NoDup_fst_map_to_list. Qed.

(** The services of the manifest after the first loop of [Bundle], seen
    from the manifest it was given. *)
Lemma processServices_all H E baseDir bundleName bundleVersion compose w
    compose' imageMap w' :
  processServices H E (hostRange H _ (Services compose)) baseDir bundleName
    bundleVersion compose ∅ w = (OK (compose', imageMap), w') →
  ∀ name,
    (Services compose !! name = None ∧ Services compose' !! name = None)
    ∨ ∃ svc svc',
        Services compose !! name = Some svc
        ∧ Services compose' !! name = Some svc'
        ∧ Build svc' = None
        ∧ ((Build svc = None ∧ svc' = svc)
           ∨ (is_Some (Build svc)
              ∧ svc' = set_built svc
                         (syntheticReference bundleName name bundleVersion)))
        ∧ (Image svc' ≠ "" → is_Some (imageMap !! Image svc')).
Proof.
  intros Hrun name.
  apply processServices_manifest in Hrun as (_ & Hout & Hrest & _);
    [|apply hostRange_NoDup|by intros k v ?%hostRange_elem].
  destruct (Services compose !! name) as [svc|] eqn:Hname.
  - right. destruct (Hrest name svc) as (svc' & ? & ? & ? & ?);
      [by apply hostRange_elem|]. by exists svc, svc'.
  - left. split; [done|]. rewrite Hout, Hname; [done|].
    intros [[k v] [-> Hk%hostRange_elem]]%list_elem_of_fmap. cbn in *.
    congruence.
Qed.

(** X7.  When the first loop of [Bundle] ends well, the manifest has the
    services it had, under the same names, and none of them has a build
    spec left: each is the service it was, or the service it was with the
    synthetic reference as image and the build spec cleared.  The other
    sections of the manifest are untouched. *)
Theorem resolver_rewrites_manifest (H : Host) (E : Engine)
    (baseDir bundleName bundleVersion : string) (compose : DockerCompose)
    (w : World) (compose' : DockerCompose) (imageMap : gmap string string)
    (w' : World) :
  processServices H E (hostRange H _ (Services compose)) baseDir bundleName
    bundleVersion compose ∅ w = (OK (compose', imageMap), w') →
  sameSections compose compose'
  ∧ dom (Services compose') = dom (Services compose)
  ∧ ∀ name svc',
      Services compose' !! name = Some svc' →
      Build svc' = None
      ∧ ∃ svc,
          Services compose !! name = Some svc
          ∧ (svc' = svc
             ∨ (is_Some (Build svc)
                ∧ svc' = set_built svc
                           (syntheticReference bundleName name
                              bundleVersion))).
Proof.
  intros Hrun. pose proof (processServices_all _ _ _ _ _ _ _ _ _ _ Hrun) as Hall.
  split; [|split].
  - apply processServices_manifest in Hrun as (Hsec & _);
      [done|apply hostRange_NoDup|by intros k v ?%hostRange_elem].
  - apply set_eq. intros name. rewrite !elem_of_dom.
    destruct (Hall name) as [[-> ->]|(svc & svc' & -> & -> & _)]; [done|].
    split; by eexists.
  - intros name svc' Hname.
    destruct (Hall name) as [[_ ?]|(svc & svc0 & Hsvc & Hsvc0 & Hb & Hshape & _)];
      [congruence|].
    assert (svc0 = svc') as -> by congruence.
    split; [done|]. exists svc. split; [done|].
    destruct Hshape as [[_ ->]|[? ->]]; [by left|by right].
Qed.

(** The empty reference never becomes a key of the map of images. *)
Lemma processServices_no_empty_key H E services baseDir bundleName
    bundleVersion :
  ∀ compose imageMap w compose' imageMap' w',
    processServices H E services baseDir bundleName bundleVersion compose
      imageMap w = (OK (compose', imageMap'), w') →
    imageMap !! "" = None → imageMap' !! "" = None.
Proof.
  induction services as [|[serviceName service] rest IH];
    intros compose imageMap w compose' imageMap' w' Hrun Hmap.
  - by injection Hrun as <- <- <-.
  - cbn [processServices] in Hrun.
    apply bind_OK in Hrun as ([imageName service'] & w1 & _ & Hrun).
    case_bool_decide.
    + eapply IH; [exact Hrun|]. by rewrite lookup_insert_ne.
    + by eapply IH.
Qed.

(** X8.  When the first loop of [Bundle] ends well, the map of images and
    the manifest it leaves agree: every service with an image reference has
    that reference as a key, and every key is the image reference of some
    service.  A key is never the empty string, and the file name held under
    a key is the sanitized key followed by .tar. *)
Theorem image_map_matches_manifest (H : Host) (E : Engine)
    (baseDir bundleName bundleVersion : string) (compose : DockerCompose)
    (w : World) (compose' : DockerCompose) (imageMap : gmap string string)
    (w' : World) :
  processServices H E (hostRange H _ (Services compose)) baseDir bundleName
    bundleVersion compose ∅ w = (OK (compose', imageMap), w') →
  (∀ name svc',
     Services compose' !! name = Some svc' → Image svc' ≠ "" →
     imageMap !! Image svc' = Some (sanitizeFilename (Image svc') +:+ ".tar"))
  ∧ (∀ ref tarFileName,
       imageMap !! ref = Some tarFileName →
       ref ≠ ""
       ∧ tarFileName = sanitizeFilename ref +:+ ".tar"
       ∧ ∃ name svc', Services compose' !! name = Some svc'
                      ∧ Image svc' = ref).
Proof.
  intros Hrun.
  pose proof (processServices_all _ _ _ _ _ _ _ _ _ _ Hrun) as Hall.
  pose proof (processServices_names _ _ _ _ _ _ _ _ _ _ _ _ Hrun) as Hnames.
  pose proof (processServices_no_empty_key _ _ _ _ _ _ _ _ _ _ _ _ Hrun) as Hne.
  split.
  - intros name svc' Hname Himage.
    destruct (Hall name) as [[_ ?]|(svc & svc0 & _ & Hsvc0 & _ & _ & Hkey)];
      [congruence|].
    assert (svc0 = svc') as -> by congruence.
    destruct (Hkey Himage) as [v Hv]. rewrite Hv. f_equal.
    eapply Hnames; [|exact Hv]. by intros k v' ?%lookup_empty_Some.
  - intros ref tarFileName Href. split; [|split].
    + intros ->. rewrite Hne in Href; [done|apply lookup_empty].
    + eapply Hnames; [|exact Href]. by intros k v' ?%lookup_empty_Some.
    + apply processServices_manifest in Hrun as (_ & _ & _ & _ & Hkeys);
        [|apply hostRange_NoDup|by intros k v ?%hostRange_elem].
      destruct (Hkeys ref) as [[? ?%lookup_empty_Some]|(name & svc' & _ & ? & ?)];
        [by eexists|done|]. by exists name, svc'.
Qed.

(** ** The images that are saved *)

Lemma bind_snd {A B : Type} (m : M A) (f : A → M B) w :
  snd ((m ≫= f) w)
  = match fst (m w) with
    | OK a => snd (f a (snd (m w)))
    | Err _ => snd (m w)
    end.
Proof. unfold mbind, M_bind. by destruct (m w) as [[a|e] w1]. Qed.

Global Instance sameCalls_preorder : PreOrder sameCalls.
Proof.
  split; [done|]. unfold sameCalls. intros w w1 w2 ??. congruence.
Qed.

Section SaveFacts.

Variable H : Host.
Variable E : Engine.

Lemma sameCalls_put_in_temp path n : keeps sameCalls (put_in_temp path n).
Proof.
  intros w. unfold put_in_temp.
  destruct (tempDir w) as [[|m r cs]|]; try reflexivity.
  destruct path as [|name [|name' [|]]]; try reflexivity.
  destruct (snd <$> find _ cs) as [[|m' r' cs']|]; reflexivity.
Qed.

Lemma sameCalls_WriteFile path data perm :
  keeps sameCalls (WriteFile H path data perm).
Proof.
  unfold WriteFile.
  apply (keeps_bind sameCalls); [apply (keeps_fault sameCalls)|].
  intros _. apply sameCalls_put_in_temp.
Qed.

Lemma sameCalls_createTarGz outputFile :
  keeps sameCalls (createTarGz H outputFile).
Proof.
  unfold createTarGz.
  apply (keeps_bind sameCalls); [apply (keeps_fault sameCalls)|]. intros _ w.
  by destruct (Walk _ _ _) as [tarWriter [e|]].
Qed.

(** [saveImage] asks the engine for the image once, whatever becomes of the
    file it writes. *)
Lemma saveImage_calls imageName outputPath w :
  calls (snd (saveImage H E imageName outputPath w))
  = calls w ++ [CallSave [imageName]].
Proof.
  unfold saveImage. rewrite !bind_snd. cbn [Print engine fst snd].
  destruct (engSave E _ _) as [reader|e]; [|done].
  match goal with
  | |- calls (snd (?m ?w0)) = _ =>
      assert (Hk : keeps sameCalls m)
  end.
  { repeat (apply (keeps_bind sameCalls);
            [first [apply (keeps_fault sameCalls)|apply sameCalls_put_in_temp]
            |intros _]).
    apply sameCalls_put_in_temp. }
  by rewrite Hk.
Qed.

(** The second loop of [Bundle] asks the engine for the images of the map
    one after the other, in the order of the loop, and for nothing else; a
    loop that ends well has asked for all of them. *)
Lemma saveImages_calls images : ∀ w,
  ∃ n,
    calls (snd (saveImages H E images w))
    = calls w ++ ((λ p : string * string, CallSave [p.1]) <$> take n images)
    ∧ (fst (saveImages H E images w) = OK tt → take n images = images).
Proof.
  induction images as [|[imageName tarFileName] rest IH]; intros w.
  - exists 0. by rewrite app_nil_r.
  - cbn [saveImages]. unfold mbind, M_bind, wrapped.
    pose proof (saveImage_calls imageName ["images"; tarFileName] w) as Hc.
    destruct (saveImage H E imageName _ w) as [[[]|e] w1]; cbn [snd] in Hc.
    + destruct (IH w1) as (n & Hn & Hall). exists (S n).
      rewrite Hn, Hc, <- app_assoc. split; [done|].
      intros Hok. cbn. f_equal. by apply Hall.
    + exists 1. split; [|done]. cbn. by rewrite Hc.
Qed.

End SaveFacts.

Lemma bind_fst {A B : Type} (m : M A) (f : A → M B) w :
  fst ((m ≫= f) w)
  = match fst (m w) with
    | OK a => fst (f a (snd (m w)))
    | Err e => Err e
    end.
Proof. unfold mbind, M_bind. by destruct (m w) as [[a|e] w1]. Qed.

(** X9.  The middle of [Bundle] asks the engine for nothing but exports:
    one call for one image each, for keys of the map of images, no key
    twice, in the order of the loop.  When it ends well every key of the
    map has been exported. *)
Theorem assemble_saves_each_image_once (H : Host) (E : Engine)
    (compose : DockerCompose) (imageMap : gmap string string)
    (outputFile : string) (w : World) :
  ∃ saved,
    calls (snd (assemble H E compose imageMap outputFile w))
    = calls w ++ ((λ ref, CallSave [ref]) <$> saved)
    ∧ NoDup saved
    ∧ (∀ ref, ref ∈ saved → is_Some (imageMap !! ref))
    ∧ (fst (assemble H E compose imageMap outputFile w) = OK tt →
       ∀ ref, is_Some (imageMap !! ref) → ref ∈ saved).
Proof.
  assert (Hsaved : ∀ n,
    NoDup (take n (hostRange H _ imageMap)).*1
    ∧ ∀ ref, ref ∈ (take n (hostRange H _ imageMap)).*1 →
             is_Some (imageMap !! ref)).
  { intros n. rewrite fmap_take. split.
    - eapply sublist_NoDup; [apply hostRange_NoDup|apply sublist_take].
    - intros ref [[k v] [-> Hk%hostRange_elem]]%subseteq_take%list_elem_of_fmap.
      by exists v. }
  assert (Hfmap : ∀ l : list (string * string),
    (λ p : string * string, CallSave [p.1]) <$> l
    = (λ ref, CallSave [ref]) <$> l.*1).
  { intros l. by rewrite <- list_fmap_compose. }
  unfold assemble.
  set (post := updateComposeForBundle compose imageMap ≫= _).
  set (mkdir := wrapped "failed to create images directory" _).
  assert (Hmkdir : keeps sameCalls mkdir).
  { apply (keeps_wrapped sameCalls), (keeps_bind sameCalls);
      [apply (keeps_fault sameCalls)|]. intros _. apply sameCalls_put_in_temp. }
  assert (Hpost : keeps sameCalls post).
  { unfold post, updateComposeForBundle.
    apply (keeps_bind sameCalls); [apply (keeps_ret sameCalls)|]. intros _.
    apply (keeps_bind sameCalls).
    { apply (keeps_wrapped sameCalls). unfold writeComposeFile.
      destruct (hostMarshal H compose); [apply sameCalls_WriteFile|].
      apply (keeps_throw sameCalls). }
    intros _. apply (keeps_bind sameCalls).
    { apply (keeps_wrapped sameCalls). unfold createLoadScript.
      apply (keeps_bind sameCalls); [apply sameCalls_WriteFile|].
      intros _. apply sameCalls_WriteFile. }
    intros _. apply (keeps_bind sameCalls).
    { apply (keeps_wrapped sameCalls), sameCalls_WriteFile. }
    intros _. apply (keeps_wrapped sameCalls), sameCalls_createTarGz. }
  rewrite bind_snd, bind_fst. cbn [fst snd].
  rewrite bind_snd, bind_fst.
  set (w0 := with_tempDir w _).
  pose proof (Hmkdir w0) as Hc1. unfold sameCalls in Hc1. cbn in Hc1.
  destruct (mkdir w0) as [[[]|e] w1]; cbn [fst snd] in *.
  - rewrite bind_snd, bind_fst.
    destruct (saveImages_calls H E (hostRange H _ imageMap) w1)
      as (n & Hn & Hall).
    destruct (Hsaved n) as [Hnodup Hin].
    exists (take n (hostRange H _ imageMap)).*1.
    destruct (saveImages H E _ w1) as [[[]|e] w2]; cbn [fst snd] in *.
    + pose proof (Hpost w2) as Hc2. unfold sameCalls in Hc2.
      rewrite Hc2, Hn, Hc1, Hfmap. repeat split; try done.
      intros _ ref [v Hv]. rewrite Hall by done.
      apply list_elem_of_fmap. exists (ref, v). split; [done|].
      by apply hostRange_elem.
    + rewrite Hn, Hc1, Hfmap. by repeat split.
  - exists []. rewrite Hc1, app_nil_r. repeat split; try done.
    + constructor.
    + by intros ? ?%elem_of_nil.
Qed.

(** ** Walks of whole trees *)

(** Induction on a tree, with the property at hand for every entry of the
    listing of a directory. *)
Lemma Node_tree_ind (P : Node → Prop) :
  (∀ m r c, P (File m r c)) →
  (∀ m r cs, Forall (λ p : string * Node, P p.2) cs → P (Directory m r cs)) →
  ∀ n, P n.
Proof.
  intros Hfile Hdir. fix IH 1. intros [m r c|m r cs]; [apply Hfile|].
  apply Hdir. induction cs as [|[name c] cs IHcs]; constructor.
  - apply IH.
  - apply IHcs.
Qed.

Lemma forallb_perm {A} (f : A → bool) l l' :
  l ≡ₚ l' → forallb f l = forallb f l'.
Proof.
  induction 1 as [|x l l' _ IH|x y l|l l1 l' _ IH1 _ IH2]; cbn.
  - done.
  - by rewrite IH.
  - by rewrite !andb_assoc, (andb_comm (f y)).
  - congruence.
Qed.

Lemma all_readable_in_walk_order n :
  all_readable (in_walk_order n) = all_readable n.
Proof.
  induction n as [m r c|m r cs IH] using Node_tree_ind; [done|].
  cbn [in_walk_order all_readable]. f_equal.
  rewrite (forallb_perm _ _ _ (sorted_listing_perm _)).
  induction IH as [|[name c] cs Hc _ IHcs]; [done|].
  cbn in *. by rewrite Hc, IHcs.
Qed.

Lemma Rel_snoc sep path name :
  path ≠ [] →
  Rel sep (path ++ [name]) = Rel sep path +:+ String sep name.
Proof.
  intros Hpath. destruct path as [|x path]; [done|]. clear Hpath.
  cbn [Rel app]. revert x.
  induction path as [|y path IH]; intros x; [done|].
  cbn [app String.concat] in *. rewrite IH.
  destruct (path ++ [name]) eqn:Hnil; [by destruct path|].
  by rewrite !string_app_assoc.
Qed.

(** A prefix that does not hold the byte [sep] is not completed by what
    follows a [sep]. *)
Lemma prefix_before_separator p sep : ∀ s t,
  all_bytes (λ c, negb (Ascii.eqb c sep)) p = true →
  String.prefix p s = false →
  String.prefix p (s +:+ String sep t) = false.
Proof.
  induction p as [|a p IH]; intros s t Hp Hs; [by destruct s|].
  cbn [all_bytes] in Hp. apply andb_true_iff in Hp as [Ha Hp].
  apply negb_true_iff, Ascii.eqb_neq in Ha.
  destruct s as [|b s].
  - rewrite string_app_nil_l. cbn. by destruct (ascii_dec a sep).
  - rewrite string_app_cons. cbn in *.
    destruct (ascii_dec a b); [by apply IH|done].
Qed.

(** [ToSlash] does not change whether a path begins with a prefix that
    holds neither the separator nor the slash. *)
Lemma prefix_ToSlash p sep : ∀ s,
  all_bytes (λ c, negb (Ascii.eqb c sep) && negb (Ascii.eqb c "/")) p = true →
  String.prefix p (ToSlash sep s) = String.prefix p s.
Proof.
  unfold ToSlash. destruct (Ascii.eqb sep "/"); [done|].
  induction p as [|a p IH]; intros s Hp; [by destruct s|].
  cbn [all_bytes] in Hp.
  apply andb_true_iff in Hp as [[Ha1 Ha2]%andb_true_iff Hp].
  apply negb_true_iff, Ascii.eqb_neq in Ha1, Ha2.
  destruct s as [|b s]; [done|]. cbn.
  destruct (Ascii.eqb b sep) eqn:Hb.
  - apply Ascii.eqb_eq in Hb as ->.
    destruct (ascii_dec a "/"); [done|]. by destruct (ascii_dec a sep).
  - destruct (ascii_dec a b); [by apply IH|done].
Qed.

Definition openable (n : Node) : bool :=
  match n with File _ r _ => r | Directory _ _ _ => true end.

Lemma all_readable_openable n : all_readable n = true → openable n = true.
Proof. by destruct n. Qed.

(** A walk with a callback that writes the member of every node it can
    open, on the paths that satisfy [P]. *)
Section WalkMembers.

Variable sep : ascii.
Variable fn : WalkFunc (list TarEntry).
Variable P : list string → Prop.

Hypothesis P_ext : ∀ path name, P path → P (path ++ [name]).
Hypothesis fn_member : ∀ path n tw,
  P path → openable n = true →
  fn path (Some n) None tw
  = (tw ++ [member (ToSlash sep (Rel sep path)) n], None).

Lemma walk_names_members path cs :
  Forall (λ p : string * Node,
            ∀ tw, walk fn (path ++ [p.1]) p.2 tw
                  = (tw ++ members sep (path ++ [p.1]) p.2, None)) cs →
  ∀ tw,
    walk_names (λ path info st, walk fn path info st) path cs tw
    = (tw ++ flat_map (λ p : string * Node,
                         members sep (path ++ [p.1]) p.2) cs, None).
Proof.
  induction 1 as [|[name c] cs Hc _ IH]; intros tw.
  - by rewrite app_nil_r.
  - rewrite walk_names_cons. cbn [fst snd] in Hc. rewrite Hc, IH.
    cbn [flat_map fst snd]. by rewrite app_assoc.
Qed.

Lemma walk_members n :
  all_readable n = true →
  ∀ path tw, P path →
    walk fn path n tw = (tw ++ members sep path n, None).
Proof.
  induction n as [m r c|m r cs IH] using Node_tree_ind;
    intros Hr path tw Hpath.
  - cbn [walk members]. by apply fn_member.
  - cbn [all_readable] in Hr. apply andb_true_iff in Hr as [-> Hcs].
    cbn [walk members]. rewrite fn_member by done.
    rewrite walk_names_members.
    + by rewrite <- app_assoc.
    + rewrite forallb_forall in Hcs. apply Forall_forall.
      intros [name c] Hin tw'. cbn [fst snd].
      rewrite Forall_forall in IH. apply (IH _ Hin); [|by apply P_ext].
      apply (Hcs (name, c)). by apply list_elem_of_In.
Qed.

End WalkMembers.

Lemma tarGzFn_member sep path n tw :
  Rel sep path ≠ "." → openable n = true →
  tarGzFn sep path (Some n) None tw
  = (tw ++ [member (ToSlash sep (Rel sep path)) n], None).
Proof.
  intros Hrel Hopen. unfold tarGzFn.
  destruct (String.eqb_spec (Rel sep path) ".") as [|_]; [done|].
  destruct n as [m r c|m r cs]; cbn in Hopen |- *; [|done].
  subst r. by rewrite Copy_WriteHeader.
Qed.

Lemma buildContextFn_member sep path n tw :
  HasPrefix (Rel sep path) ".git" = false → openable n = true →
  buildContextFn sep path (Some n) None tw
  = (tw ++ [member (ToSlash sep (Rel sep path)) n], None).
Proof.
  intros Hrel Hopen. unfold buildContextFn. rewrite Hrel.
  destruct n as [m r c|m r cs]; cbn in Hopen |- *; [|done].
  subst r. by rewrite Copy_WriteHeader.
Qed.

Lemma below_root_ext sep path name :
  sep ≠ "."%char →
  path ≠ [] ∧ Rel sep path ≠ "." →
  path ++ [name] ≠ [] ∧ Rel sep (path ++ [name]) ≠ ".".
Proof.
  intros Hsep [Hpath Hrel]. split; [by destruct path|].
  rewrite Rel_snoc by done. intros Heq.
  destruct (Rel sep path) as [|a [|b s]]; cbn in Heq.
  - injection Heq as -> _. done.
  - rewrite string_app_cons, string_app_nil_l in Heq. done.
  - rewrite !string_app_cons in Heq. done.
Qed.

Lemma outside_git_ext sep path name :
  pathSeparator sep →
  path ≠ [] ∧ HasPrefix (Rel sep path) ".git" = false →
  path ++ [name] ≠ [] ∧ HasPrefix (Rel sep (path ++ [name])) ".git" = false.
Proof.
  intros Hsep [Hpath Hrel]. split; [by destruct path|].
  rewrite Rel_snoc by done. apply prefix_before_separator; [|done].
  by destruct Hsep as [-> | ->].
Qed.

(** The listing of a directory as a walk reads it. *)
Lemma sorted_children m r cs :
  ∃ sorted,
    in_walk_order (Directory m r cs) = Directory m r sorted
    ∧ sorted.*1 ≡ₚ cs.*1
    ∧ forallb (λ p : string * Node, all_readable p.2) sorted
      = forallb (λ p : string * Node, all_readable p.2) cs.
Proof.
  eexists. split; [done|]. split.
  - rewrite sorted_listing_perm.
    induction cs as [|[name c] cs IH]; [done|]. cbn. by rewrite IH.
  - rewrite (forallb_perm _ _ _ (sorted_listing_perm _)).
    induction cs as [|[name c] cs IH]; [done|].
    cbn. by rewrite all_readable_in_walk_order, IH.
Qed.

(** The walk of a tree all of whose nodes can be opened, with the callback
    of [createTarGz]: no member for the root, and below it the members of
    the tree, directory before content, listing after listing in the order
    of the names. *)
Lemma Walk_tarGzFn_members sep m cs tw :
  pathSeparator sep →
  all_readable (Directory m true cs) = true →
  "." ∉ cs.*1 →
  Walk (Some (Directory m true cs)) (tarGzFn sep) tw
  = (tw ++ members_below sep (children (in_walk_order (Directory m true cs))),
     None).
Proof.
  intros Hsep Hr Hdot. unfold Walk.
  destruct (sorted_children m true cs) as (sorted & -> & Hnames & Hsorted).
  cbn [all_readable andb] in Hr. rewrite <- Hsorted in Hr.
  rewrite <- Hnames in Hdot. clear Hnames Hsorted.
  cbn [walk tarGzFn Rel String.eqb Ascii.eqb Bool.eqb children].
  rewrite (walk_names_members sep); [done|].
  rewrite forallb_forall in Hr. apply Forall_forall.
  intros [name c] Hin tw'. cbn [fst snd app].
  apply (walk_members sep (tarGzFn sep)
           (λ path, path ≠ [] ∧ Rel sep path ≠ ".")).
  - intros path name'. apply below_root_ext. by destruct Hsep as [-> | ->].
  - intros path n tw'' [_ ?] ?. by apply tarGzFn_member.
  - apply (Hr (name, c)). by apply list_elem_of_In.
  - split; [done|]. cbn. intros ->. apply Hdot.
    apply list_elem_of_fmap. by exists (".", c).
Qed.

Lemma members_sizes sep n : ∀ path,
  Forall (λ e, String.length (body e) = hdr_size e) (members sep path n).
Proof.
  induction n as [m r c|m r cs IH] using Node_tree_ind; intros path.
  - by repeat constructor.
  - cbn [members]. constructor; [done|].
    induction IH as [|[name c] cs Hc _ IHcs]; [constructor|].
    cbn [flat_map]. apply Forall_app. split; [apply Hc|apply IHcs].
Qed.

Lemma Close_complete tw :
  Forall (λ e, String.length (body e) = hdr_size e) tw →
  Close tw = {| entries := tw; trailer := true |}.
Proof.
  intros Htw. unfold Close. f_equal.
  destruct (last tw) as [e|] eqn:Hlast; [|done].
  apply last_Some in Hlast as [tw' ->].
  apply Forall_app in Htw as [_ [He _]%Forall_cons].
  by apply bool_decide_eq_true.
Qed.

Lemma members_below_sizes sep cs :
  Forall (λ e, String.length (body e) = hdr_size e) (members_below sep cs).
Proof.
  induction cs as [|[name c] cs IH]; [constructor|].
  unfold members_below. cbn [flat_map]. apply Forall_app.
  split; [apply members_sizes|apply IH].
Qed.

(** X10.  [createTarGz] on a source directory all of whose files and
    directories can be opened writes to the output file a complete stream
    with the members of the tree below the root and none for the root
    itself: every directory before what it holds, every listing in the
    order of the names, every name relative to the root and written with
    slashes, every regular file with its bytes. *)
Theorem createTarGz_archives_tree (H : Host) (outputFile : string)
    (w : World) (m : N) (cs : list (string * Node)) :
  pathSeparator (Separator H) →
  hostFault H (FsCreateOutput outputFile) = None →
  tempDir w = Some (Directory m true cs) →
  all_readable (Directory m true cs) = true →
  "." ∉ cs.*1 →
  createTarGz H outputFile w
  = (OK tt,
     with_written w
       (<[outputFile :=
            {| entries :=
                 members_below (Separator H)
                   (children (in_walk_order (Directory m true cs)));
               trailer := true |}]> (written w))).
Proof.
  intros Hsep Hfault Hdir Hr Hdot. unfold createTarGz.
  unfold mbind, M_bind, fault. rewrite Hfault, Hdir.
  rewrite (Walk_tarGzFn_members _ _ _ [] Hsep Hr Hdot). cbn [app].
  by rewrite Close_complete by apply members_below_sizes.
Qed.

(** The listing at the root of a build context, walked with the callback
    of [createBuildContextTar]: the walk goes past a directory whose name
    begins with .git and ends, with [SkipDir], at a file whose name does. *)
Lemma walk_names_context sep cs :
  pathSeparator sep →
  forallb (λ p : string * Node, all_readable p.2) cs = true →
  ∀ tw, ∃ err,
    walk_names (λ path info st, walk (buildContextFn sep) path info st) []
      cs tw
    = (tw ++ members_below sep (contextChildren cs), err)
    ∧ (err = None ∨ err = Some SkipDir).
Proof.
  intros Hsep. induction cs as [|[name c] cs IH]; intros Hr tw.
  - exists None. by rewrite app_nil_r; auto.
  - cbn [forallb snd] in Hr. apply andb_true_iff in Hr as [Hc Hcs].
    rewrite walk_names_cons. cbn [app contextChildren].
    destruct (HasPrefix name ".git") eqn:Hname.
    + destruct c as [m r c|m r cs'].
      * cbn [walk buildContextFn Rel String.concat]. rewrite Hname.
        cbn [IsDir negb orb]. exists (Some SkipDir).
        by rewrite app_nil_r; auto.
      * cbn [all_readable] in Hc. apply andb_true_iff in Hc as [-> _].
        cbn [walk buildContextFn Rel String.concat]. rewrite Hname.
        cbn [IsDir negb orb is_SkipDir]. by apply IH.
    + rewrite (walk_members sep (buildContextFn sep)
                 (λ path, path ≠ [] ∧ HasPrefix (Rel sep path) ".git" = false)).
      * destruct (IH Hcs (tw ++ members sep [name] c)) as (err & -> & Herr).
        exists err. split; [|done]. unfold members_below.
        cbn [flat_map fst snd]. by rewrite app_assoc.
      * intros path name'. by apply outside_git_ext.
      * intros path n tw' [_ ?] ?. by apply buildContextFn_member.
      * done.
      * done.
Qed.

(** X11.  The build context that [createBuildContextTar] hands to the
    engine for a directory all of whose files and directories can be
    opened: a member named "." for the directory itself, then the members
    of its entries in the order of the names, every directory before what
    it holds.  An entry of the directory whose name begins with .git is
    left out when it is a directory; when it is a regular file, it is left
    out together with every entry that follows it. *)
Theorem build_context_members (sep : ascii) (m : N)
    (cs : list (string * Node)) :
  pathSeparator sep →
  all_readable (Directory m true cs) = true →
  createBuildContextTar sep (Some (Directory m true cs))
  = ({| entries :=
          member "." (in_walk_order (Directory m true cs))
          :: members_below sep
               (contextChildren
                  (children (in_walk_order (Directory m true cs))));
        trailer := true |},
     None).
Proof.
  intros Hsep Hr. unfold createBuildContextTar, buildContextProducer, Walk.
  destruct (sorted_children m true cs) as (sorted & -> & _ & Hsorted).
  cbn [all_readable andb] in Hr. rewrite <- Hsorted in Hr.
  cbn [walk buildContextFn Rel children].
  replace (HasPrefix "." ".git") with false by done.
  replace (ToSlash sep ".") with "." by (by destruct Hsep as [-> | ->]).
  cbn [IsDir negb].
  destruct (walk_names_context sep sorted Hsep Hr
              (WriteHeader [] "." (Directory m true sorted)))
    as (err & -> & Herr).
  assert (Hclose :
    (let '(tarWriter, walkResult) :=
       (let '(st', err0) :=
          (WriteHeader [] "." (Directory m true sorted)
           ++ members_below sep (contextChildren sorted), err) in
        match err0 with
        | Some SkipDir => (st', None)
        | _ => (st', err0)
        end) in (Close tarWriter, walkResult)).1
    = Close (member "." (Directory m true sorted)
             :: members_below sep (contextChildren sorted))).
  { by destruct Herr as [-> | ->]. }
  rewrite Hclose. f_equal. apply Close_complete.
  constructor; [done|apply members_below_sizes].
Qed.

(** ** What a walk never writes *)

(** A property of the state that every call of the callback keeps is kept
    by the walk. *)
Section WalkInvariant.

Context {S : Type} (Inv : S → Prop) (fn : WalkFunc S).

Hypothesis fn_keeps : ∀ path info err st,
  Inv st → Inv (fst (fn path info err st)).

Lemma walk_names_invariant path cs :
  Forall (λ p : string * Node,
            ∀ path st, Inv st → Inv (fst (walk fn path p.2 st))) cs →
  ∀ st, Inv st →
    Inv (fst (walk_names (λ path info st, walk fn path info st) path cs st)).
Proof.
  induction 1 as [|[name c] cs Hc _ IH]; intros st Hst; [done|].
  rewrite walk_names_cons. cbn [snd] in Hc.
  specialize (Hc (path ++ [name]) st Hst).
  destruct (walk fn _ c st) as [st' [e|]]; cbn [fst] in Hc; [|by apply IH].
  destruct (negb (IsDir c) || negb (is_SkipDir e)); [done|by apply IH].
Qed.

Lemma walk_invariant n : ∀ path st,
  Inv st → Inv (fst (walk fn path n st)).
Proof.
  induction n as [m r c|m r cs IH] using Node_tree_ind; intros path st Hst.
  - by apply fn_keeps.
  - cbn [walk].
    pose proof (fn_keeps path (Some (Directory m r cs))
                  (if r then None else Some (Errorf "open: permission denied"))
                  st Hst) as Hfn.
    destruct (fn path _ _ st) as [st1 err1]; cbn [fst] in Hfn.
    destruct r; [|done]. destruct err1; [done|].
    by apply walk_names_invariant.
Qed.

Lemma Walk_invariant root st : Inv st → Inv (fst (Walk root fn st)).
Proof.
  intros Hst. unfold Walk. destruct root as [info|].
  - pose proof (walk_invariant (in_walk_order info) [] st Hst) as Hw.
    destruct (walk fn [] _ st) as [st' [[|?]|]]; done.
  - pose proof (fn_keeps [] None
                  (Some (Errorf "lstat: no such file or directory")) st Hst)
      as Hfn.
    destruct (fn [] None _ st) as [st' [[|?]|]]; done.
Qed.

End WalkInvariant.

Lemma Copy_names (Q : string → Prop) tw content :
  Forall (λ e, Q (hdr_name e)) tw →
  Forall (λ e, Q (hdr_name e)) (Copy tw content).
Proof.
  intros Htw. unfold Copy.
  destruct (reverse tw) as [|e before] eqn:Hrev; [constructor|].
  apply (f_equal reverse) in Hrev. rewrite reverse_involutive in Hrev.
  subst tw. rewrite reverse_cons in Htw.
  apply Forall_app in Htw as [Hbefore [He _]%Forall_cons].
  apply Forall_app. split; [done|]. by constructor.
Qed.

Lemma callback_names (Q : string → Prop) name info tw :
  Forall (λ e, Q (hdr_name e)) tw → Q name →
  Forall (λ e, Q (hdr_name e))
    (fst (let tarWriter := WriteHeader tw name info in
          if negb (IsDir info) then
            match Open info with
            | Err e => (tarWriter, Some e)
            | OK file => (Copy tarWriter file, None)
            end
          else (tarWriter, None))).
Proof.
  intros Htw Hname.
  assert (Forall (λ e, Q (hdr_name e)) (WriteHeader tw name info)).
  { apply Forall_app. split; [done|]. by constructor. }
  cbn zeta. destruct (negb (IsDir info)); [|done].
  destruct (Open info); [|done]. by apply Copy_names.
Qed.

(** X12.  Whatever the build context holds, and whether or not it can be
    read, no member of the stream [createBuildContextTar] hands to the
    engine has a name that begins with .git. *)
Theorem build_context_without_git (sep : ascii) (context : option Node) :
  pathSeparator sep →
  Forall (λ e, HasPrefix (hdr_name e) ".git" = false)
    (entries (fst (createBuildContextTar sep context))).
Proof.
  intros Hsep. unfold createBuildContextTar, buildContextProducer.
  pose proof (Walk_invariant
    (Forall (λ e, HasPrefix (hdr_name e) ".git" = false))
    (buildContextFn sep)) as Hwalk.
  destruct (Walk context (buildContextFn sep) []) as [tw err] eqn:Heq.
  cbn [fst entries Close]. specialize (Hwalk) with (root := context) (st := []).
  rewrite Heq in Hwalk. apply Hwalk; [|constructor].
  intros path info e tw' Htw'. unfold buildContextFn.
  destruct e; [done|]. destruct info as [info|]; [|done].
  destruct (HasPrefix (Rel sep path) ".git") eqn:Hrel; [done|].
  apply (callback_names (λ name, HasPrefix name ".git" = false)); [done|].
  unfold HasPrefix. rewrite prefix_ToSlash; [done|].
  by destruct Hsep as [-> | ->].
Qed.

(** X13.  On a host whose separator is not the slash, no member name
    that the walk of [createTarGz] writes, and none of a build context,
    holds the separator of the host: the names are written with slashes.
    This holds for every tree, readable or not, and when there is nothing
    at the root. *)
Theorem member_names_without_separator (sep : ascii)
    (root context : option Node) :
  sep ≠ "/"%char →
  Forall (λ e, all_bytes (λ c, negb (Ascii.eqb c sep)) (hdr_name e) = true)
    (fst (Walk root (tarGzFn sep) []))
  ∧ Forall (λ e, all_bytes (λ c, negb (Ascii.eqb c sep)) (hdr_name e) = true)
      (entries (fst (createBuildContextTar sep context))).
Proof.
  intros Hsep.
  set (Q := λ name, all_bytes (λ c, negb (Ascii.eqb c sep)) name = true).
  split.
  - apply (Walk_invariant (Forall (λ e, Q (hdr_name e)))); [|constructor].
    intros path info e tw' Htw'. unfold tarGzFn.
    destruct e; [done|]. destruct info as [info|]; [|done].
    destruct (String.eqb (Rel sep path) "."); [done|].
    apply (callback_names Q); [done|]. by apply ToSlash_no_separator.
  - unfold createBuildContextTar, buildContextProducer.
    pose proof (Walk_invariant (Forall (λ e, Q (hdr_name e)))
                  (buildContextFn sep)) as Hwalk.
    specialize (Hwalk) with (root := context) (st := []).
    destruct (Walk context (buildContextFn sep) []) as [tw err].
    cbn [fst entries Close]. apply Hwalk; [|constructor].
    intros path info e tw' Htw'. unfold buildContextFn.
    destruct e; [done|]. destruct info as [info|]; [|done].
    destruct (HasPrefix (Rel sep path) ".git"); [done|].
    apply (callback_names Q); [done|]. by apply ToSlash_no_separator.
Qed.

(** ** The members of the archive *)

Lemma in_walk_order_child m r cs name n :
  (name, n) ∈ cs →
  (name, in_walk_order n) ∈ children (in_walk_order (Directory m r cs)).
Proof.
  intros Hin. cbn [in_walk_order children]. rewrite sorted_listing_perm.
  apply (list_elem_of_fmap_2 (λ p : string * Node, (p.1, in_walk_order p.2))
           _ (name, n) Hin).
Qed.

Lemma members_below_elem sep cs name n e :
  (name, n) ∈ cs → e ∈ members sep [name] n → e ∈ members_below sep cs.
Proof.
  intros Hin He. unfold members_below.
  apply list_elem_of_In, in_flat_map. exists (name, n).
  split; by apply list_elem_of_In.
Qed.

Lemma members_child sep path m r cs name n e :
  (name, n) ∈ cs → e ∈ members sep (path ++ [name]) n →
  e ∈ members sep path (Directory m r cs).
Proof.
  intros Hin He. cbn [members]. right.
  apply list_elem_of_In, in_flat_map. exists (name, n).
  split; by apply list_elem_of_In.
Qed.

Lemma members_head sep path n :
  member (ToSlash sep (Rel sep path)) n ∈ members sep path n.
Proof. destruct n; by left. Qed.

Lemma put_child_saved name content cs :
  Forall savedFile cs →
  Forall savedFile (put_child name (File 438 true content) cs).
Proof.
  intros Hcs. apply Forall_cons. split; [by eexists|].
  rewrite Forall_forall in *. intros p [_ Hp]%list_elem_of_filter. auto.
Qed.

Lemma savedFile_plain cs : Forall savedFile cs → Forall plainFile cs.
Proof.
  intros Hcs. eapply Forall_impl; [exact Hcs|].
  intros p [content Hp]. by eexists _, _.
Qed.

Section MemberFacts.

Variable H : Host.
Variable E : Engine.

Lemma saveImages_saved images : ∀ w w' imgs,
  saveImages H E images w = (OK tt, w') →
  imagesOnly w imgs →
  Forall savedFile imgs →
  ∃ imgs',
    imagesOnly w' imgs'
    ∧ written w' = written w
    ∧ Forall savedFile imgs'
    ∧ ∀ name, name ∈ imgs.*1 ∨ name ∈ images.*2 → name ∈ imgs'.*1.
Proof.
  induction images as [|[imageName tarFileName] rest IH];
    intros w w' imgs Hrun Himgs Hsaved.
  - injection Hrun as <-. exists imgs. repeat split; try done.
    by intros name [?|?%elem_of_nil].
  - cbn [saveImages] in Hrun.
    apply bind_OK in Hrun as ([] & w1 & Hsave%wrapped_OK & Hrun).
    destruct (saveImage_shape H E _ _ _ _ _ Hsave Himgs)
      as (content & Himgs1 & Hw1).
    destruct (IH _ _ _ Hrun Himgs1) as (imgs' & ? & Hw & ? & Hnames);
      [by apply put_child_saved|].
    exists imgs'. repeat split; try done; [congruence|].
    intros name Hname. apply Hnames. rewrite put_child_elem.
    cbn in Hname. rewrite elem_of_cons in Hname. tauto.
Qed.

(** What [assemble] leaves in the output file when it ends well, on a host
    whose separator is the slash: the walk of the working directory with
    its four files and the directory of images. *)
Lemma assemble_members compose imageMap outputFile w w' :
  Separator H = "/"%char →
  assemble H E compose imageMap outputFile w = (OK tt, w') →
  ∃ data script batScript readme imgs,
    hostMarshal H compose = OK data
    ∧ written w'
      = <[outputFile :=
            {| entries :=
                 members_below "/"
                   (children
                      (in_walk_order
                         (Directory 448 true
                            [ ("README.md", File 420 true readme);
                              ("load-images.bat", File 493 true batScript);
                              ("load-images.sh", File 493 true script);
                              ("docker-compose.yml", File 420 true data);
                              ("images", Directory 493 true imgs) ])));
               trailer := true |}]> (written w)
    ∧ Forall savedFile imgs
    ∧ ∀ ref tarFileName,
        imageMap !! ref = Some tarFileName → tarFileName ∈ imgs.*1.
Proof.
  intros Hsep Hrun. unfold assemble in Hrun.
  apply bind_OK in Hrun as ([] & w1 & [= <-] & Hrun).
  apply bind_OK in Hrun as ([] & w2 & Hmk%wrapped_OK & Hrun).
  apply bind_OK in Hmk as ([] & w1' & ->%fault_OK & Hmk).
  injection Hmk as <-.
  apply bind_OK in Hrun as ([] & w3 & Hsave & Hrun).
  destruct (saveImages_saved _ _ _ [] Hsave)
    as (imgs & Himgs & Hw3 & Hsaved & Hnames); [done|constructor|].
  apply bind_OK in Hrun as ([] & w3' & [= <-] & Hrun).
  apply bind_OK in Hrun as ([] & w4 & Hyml%wrapped_OK & Hrun).
  unfold writeComposeFile in Hyml.
  destruct (hostMarshal H compose) as [data|?]; [|done].
  apply (WriteFile_top _ _ _ _ _ _ _ Hyml) in Himgs as [Hd4 Hw4].
  apply bind_OK in Hrun as ([] & w6 & Hscripts%wrapped_OK & Hrun).
  unfold createLoadScript in Hscripts.
  apply bind_OK in Hscripts as ([] & w5 & Hsh & Hbat).
  apply (WriteFile_top _ _ _ _ _ _ _ Hsh) in Hd4 as [Hd5 Hw5].
  apply (WriteFile_top _ _ _ _ _ _ _ Hbat) in Hd5 as [Hd6 Hw6].
  apply bind_OK in Hrun as ([] & w7 & Hreadme%wrapped_OK & Htar%wrapped_OK).
  unfold createReadme in Hreadme.
  apply (WriteFile_top _ _ _ _ _ _ _ Hreadme) in Hd6 as [Hd7 Hw7].
  unfold createTarGz in Htar.
  apply bind_OK in Htar as ([] & w7' & ->%fault_OK & Htar).
  rewrite Hd7, Hsep in Htar. unfold put_child in Htar.
  repeat (rewrite filter_cons_True in Htar by done).
  rewrite filter_nil in Htar.
  rewrite (Walk_tarGzFn_members "/" _ _ []) in Htar.
  - injection Htar as <-. eexists data, _, _, _, imgs.
    split; [done|]. split; [|split; [done|]].
    + cbn [written with_written app]. rewrite Hw7, Hw6, Hw5, Hw4, Hw3. cbn.
      f_equal. apply Close_complete, members_below_sizes.
    + intros ref tarFileName Href. apply Hnames. right.
      apply list_elem_of_fmap. exists (ref, tarFileName). split; [done|].
      by apply hostRange_elem.
  - by left.
  - cbn [all_readable forallb snd andb]. rewrite andb_true_r.
    apply forallb_forall. intros p Hp%list_elem_of_In.
    rewrite Forall_forall in Hsaved.
    by destruct (Hsaved p Hp) as [content ->].
  - cbn. intros Hdot. repeat (apply elem_of_cons in Hdot as [?|Hdot]; [done|]).
    by apply elem_of_nil in Hdot.
Qed.

End MemberFacts.

Ltac pick_entry :=
  repeat match goal with d := _ |- _ => subst d end;
  cbn [children]; rewrite !elem_of_cons; auto 10.

(** X14.  The archive of a run that ends well, on a host whose separator
    is the slash, is a complete stream that holds: the manifest as the
    resolver left it, marshalled, under docker-compose.yml with mode 0644;
    README.md with mode 0644 and the two load scripts with mode 0755; the
    directory images with mode 0755; and for every key of the map of
    images a regular file under images/ named by the sanitized key followed
    by .tar.  The modes are those the code asks for when it makes the
    files; the umask of the host is left aside. *)
Theorem Bundle_archive_members (H : Host) (E : Engine)
    (composeFile outputFile : string) (w w' : World) :
  Separator H = "/"%char →
  Bundle H E composeFile outputFile w = (OK tt, w') →
  ∃ compose xb compose' imageMap w1 stream data,
    hostReadYaml H composeFile = OK compose
    ∧ validateXBundle compose = OK xb
    ∧ processServices H E (hostRange H _ (Services compose))
        (Dir H composeFile) (Name xb) (Version xb) compose ∅ w
      = (OK (compose', imageMap), w1)
    ∧ hostMarshal H compose' = OK data
    ∧ written w' !! outputFile = Some stream
    ∧ trailer stream = true
    ∧ member "docker-compose.yml" (File 420 true data) ∈ entries stream
    ∧ (∃ readme, member "README.md" (File 420 true readme) ∈ entries stream)
    ∧ (∃ script,
         member "load-images.sh" (File 493 true script) ∈ entries stream)
    ∧ (∃ batScript,
         member "load-images.bat" (File 493 true batScript)
         ∈ entries stream)
    ∧ member "images" (Directory 493 true []) ∈ entries stream
    ∧ ∀ ref,
        is_Some (imageMap !! ref) →
        ∃ content,
          member ("images/" +:+ sanitizeFilename ref +:+ ".tar")
            (File 438 true content)
          ∈ entries stream.
Proof.
  intros Hsep Hrun. unfold Bundle, bundleThen in Hrun.
  apply bind_OK in Hrun as (compose & w0 & Hparse%wrapped_OK & Hrun).
  unfold parseComposeFile, lift in Hparse. injection Hparse as Hread <-.
  apply bind_OK in Hrun as (xb & w0 & [= Hval <-] & Hrun).
  apply bind_OK in Hrun as ([compose' imageMap] & w1 & Hproc & Hrun).
  apply bind_OK in Hrun as ([] & w2 & ->%wrapped_OK%fault_OK & Hrun).
  unfold deferRemoveAll in Hrun.
  destruct ((assemble H E compose' imageMap outputFile
             ≫= λ _ : (), cleanup H E compose') w1) as [r w3] eqn:Hbody.
  injection Hrun as -> <-.
  apply bind_OK in Hbody as ([] & w4 & Hasm & Hclean).
  destruct (cleanup_total H E compose' w4) as (w5 & Hclean' & Hw5).
  rewrite Hclean' in Hclean. injection Hclean as <-.
  destruct (assemble_members H E _ _ _ _ _ Hsep Hasm)
    as (data & script & batScript & readme & imgs & Hdata & Hw4 & Hsaved
        & Hnames).
  pose proof (processServices_names H E _ _ _ _ _ _ _ _ _ _ Hproc) as Htar.
  set (dir := Directory 448 true
                [ ("README.md", File 420 true readme);
                  ("load-images.bat", File 493 true batScript);
                  ("load-images.sh", File 493 true script);
                  ("docker-compose.yml", File 420 true data);
                  ("images", Directory 493 true imgs) ]) in Hw4.
  assert (Htop : ∀ name n,
    (name, n) ∈ children dir →
    member name (in_walk_order n)
    ∈ members_below "/" (children (in_walk_order dir))).
  { intros name n Hin.
    apply (members_below_elem _ _ name (in_walk_order n)).
    - by apply in_walk_order_child.
    - apply (members_head "/" [name]). }
  eexists compose, xb, compose', imageMap, w1, _, data.
  repeat (split; [done|]).
  split; [cbn; by rewrite Hw5, Hw4, lookup_insert_eq|].
  cbn [trailer entries]. split; [done|].
  split; [apply (Htop _ (File 420 true data)); pick_entry|].
  split; [exists readme; apply (Htop _ (File 420 true readme)); pick_entry|].
  split; [exists script; apply (Htop _ (File 493 true script)); pick_entry|].
  split; [exists batScript; apply (Htop _ (File 493 true batScript));
          pick_entry|].
  split; [apply (Htop _ (Directory 493 true imgs)); pick_entry|].
  intros ref [tarFileName Href].
  assert (tarFileName = sanitizeFilename ref +:+ ".tar") as Hname.
  { eapply Htar; [|exact Href]. by intros k v ?%lookup_empty_Some. }
  apply Hnames in Href.
  apply list_elem_of_fmap in Href as ([k c] & Hk & Hin). cbn in Hk. subst k.
  rewrite Forall_forall in Hsaved.
  destruct (Hsaved _ Hin) as [content Hc]. cbn in Hc. subst c.
  exists content. rewrite <- Hname.
  apply (members_below_elem _ _ "images"
           (in_walk_order (Directory 493 true imgs))).
  - apply in_walk_order_child. pick_entry.
  - destruct (sorted_children 493 true imgs) as (sorted & Hs & _).
    pose proof (in_walk_order_child 493 true imgs _ _ Hin) as Hchild.
    rewrite Hs in Hchild |- *. cbn [children] in Hchild.
    apply (members_child "/" ["images"] _ _ _ _ _ _ Hchild).
    apply (members_head "/" ["images"; tarFileName]).
Qed.

(** ** The file name of a built image *)

Lemma sanitize_app s t :
  sanitizeFilename (s +:+ t) = sanitizeFilename s +:+ sanitizeFilename t.
Proof.
  induction s as [|c s IH]; [done|].
  by rewrite string_app_cons, !sanitize_cons, string_app_cons, IH.
Qed.

Lemma all_bytes_impl (p q : ascii → bool) s :
  (∀ c, p c = true → q c = true) →
  all_bytes p s = true → all_bytes q s = true.
Proof.
  intros Hpq. induction s as [|c s IH]; [done|]. cbn.
  intros [Hc Hs]%andb_true_iff. by rewrite (Hpq c Hc), (IH Hs).
Qed.

Lemma ident_safe c : is_ident c = true → negb (is_unsafe c) = true.
Proof. by destruct c as [[] [] [] [] [] [] [] []]. Qed.

Lemma digit_ident c : is_digit c = true → is_ident c = true.
Proof. by destruct c as [[] [] [] [] [] [] [] []]. Qed.

Lemma digit19_digit c : is_digit19 c = true → is_digit c = true.
Proof. by destruct c as [[] [] [] [] [] [] [] []]. Qed.

Lemma NumericId_safe s :
  NumericId s → all_bytes (λ c, negb (is_unsafe c)) s = true.
Proof.
  intros [->|(d & ds & -> & Hd & Hds)]; [done|]. cbn [all_bytes].
  rewrite (ident_safe d) by by apply digit_ident, digit19_digit.
  apply (all_bytes_impl is_digit); [|done].
  intros c Hc. by apply ident_safe, digit_ident.
Qed.

(** A version the validation accepts holds no byte that [sanitizeFilename]
    replaces. *)
Lemma valid_version_safe version :
  isValidSemver version = true →
  all_bytes (λ c, negb (is_unsafe c)) version = true.
Proof.
  intros (lead & major & minor & patch & pre & build & -> & Hlead & Hmajor
          & Hminor & Hpatch & Hpre & Hbuild)%isValidSemver_grammar.
  rewrite !all_bytes_app.
  rewrite (NumericId_safe major), (NumericId_safe minor),
    (NumericId_safe patch) by done.
  assert (Hmarked : ∀ c part,
    negb (is_unsafe c) = true →
    part = "" ∨ (∃ p, part = String c "" +:+ p ∧ Identifier p) →
    all_bytes (λ c, negb (is_unsafe c)) part = true).
  { intros c part Hc [->|(p & -> & _ & Hp)]; [done|].
    rewrite all_bytes_app. cbn [all_bytes]. rewrite Hc. cbn [andb].
    by apply (all_bytes_impl is_ident); [apply ident_safe|]. }
  rewrite (Hmarked "-"%char pre), (Hmarked "+"%char build) by done.
  by destruct Hlead as [-> | ->].
Qed.

(** X15.  The file that holds the image of a built service: its name in
    the directory of images is bundles-NAME-SERVICE-VERSION.tar, with the
    name of the bundle and the name of the service sanitized and the
    version as it stands in the manifest, for every version the validation
    accepts. *)
Theorem built_image_file_name (bundleName serviceName bundleVersion : string) :
  isValidSemver bundleVersion = true →
  sanitizeFilename
    ("bundles/" +:+ bundleName +:+ "/" +:+ serviceName +:+ ":"
     +:+ bundleVersion) +:+ ".tar"
  = "bundles-" +:+ sanitizeFilename bundleName +:+ "-"
    +:+ sanitizeFilename serviceName +:+ "-" +:+ bundleVersion +:+ ".tar".
Proof.
  intros Hversion%valid_version_safe%sanitize_clean.
  rewrite !sanitize_app, Hversion.
  replace (sanitizeFilename "bundles/") with "bundles-" by done.
  replace (sanitizeFilename "/") with "-" by done.
  replace (sanitizeFilename ":") with "-" by done.
  by rewrite !string_app_assoc.
Qed.

(** ** The exit status *)

Lemma createTarGz_written H outputFile w w' :
  createTarGz H outputFile w = (OK tt, w') →
  is_Some (written w' !! outputFile) ∧ stdout w' = stdout w.
Proof.
  unfold createTarGz. intros ([] & w1 & ->%fault_OK & Hrun)%bind_OK.
  destruct (Walk _ _ _) as [tarWriter [e|]]; [done|].
  injection Hrun as <-. cbn. by rewrite lookup_insert_eq.
Qed.

Lemma Bundle_written H E composeFile outputFile w w' :
  Bundle H E composeFile outputFile w = (OK tt, w') →
  is_Some (written w' !! outputFile) ∧ tempDir w' = None.
Proof.
  intros Hrun. unfold Bundle, bundleThen in Hrun.
  apply bind_OK in Hrun as (compose & w0 & _ & Hrun).
  apply bind_OK in Hrun as (xb & w0' & _ & Hrun).
  apply bind_OK in Hrun as ([compose' imageMap] & w1 & _ & Hrun).
  apply bind_OK in Hrun as ([] & w2 & _ & Hrun).
  unfold deferRemoveAll in Hrun.
  destruct ((assemble H E compose' imageMap outputFile
             ≫= λ _ : (), cleanup H E compose') w2) as [r w3] eqn:Hbody.
  injection Hrun as -> <-. split; [|done].
  apply bind_OK in Hbody as ([] & w4 & Hasm & Hclean).
  destruct (cleanup_total H E compose' w4) as (w5 & Hclean' & Hw5).
  rewrite Hclean' in Hclean. injection Hclean as <-.
  cbn. rewrite Hw5. unfold assemble in Hasm.
  repeat (apply bind_OK in Hasm as ([] & ? & _ & Hasm)).
  by apply wrapped_OK, createTarGz_written in Hasm as [? _].
Qed.

(** X16.  [main] exits with status 0 or 1.  It exits with status 0 only
    when it was given a manifest path, the engine client could be made and
    [Bundle] returned no error; the output file, the third argument or
    bundle.tar.gz when there is none, has then been written, the working
    directory is gone, and the last line printed names the output file. *)
Theorem main_exit_status (H : Host) (E : Engine) (args : list string) :
  (fst (main H E args) = 0 ∨ fst (main H E args) = 1)
  ∧ (fst (main H E args) = 0 →
     ∃ prog composeFile rest,
       args = prog :: composeFile :: rest
       ∧ hostClient H = None
       ∧ fst (Bundle H E composeFile (default "bundle.tar.gz" (head rest))
                NewBundler) = OK tt
       ∧ is_Some (written (snd (main H E args))
                  !! default "bundle.tar.gz" (head rest))
       ∧ tempDir (snd (main H E args)) = None
       ∧ last (stdout (snd (main H E args)))
         = Some ("Successfully created bundle: "
                 +:+ default "bundle.tar.gz" (head rest) +:+ nl)).
Proof.
  unfold main.
  destruct args as [|prog [|composeFile rest]]; [by split; [right|]..|].
  destruct (hostClient H); [by split; [right|]|].
  replace (match rest with [] => "bundle.tar.gz" | o :: _ => o end)
    with (default "bundle.tar.gz" (head rest)) by by destruct rest.
  destruct (Bundle H E composeFile _ NewBundler) as [[[]|e] w'] eqn:Hrun;
    [|by split; [right|]].
  split; [by left|]. intros _. exists prog, composeFile, rest.
  pose proof (Bundle_written _ _ _ _ _ _ Hrun) as [Hw Ht].
  rewrite Hrun. repeat (split; [done|]). cbn. by rewrite last_snoc.
Qed.

(** ** The further facts on sample runs *)

Lemma build_error_frame_stops_witness :
  fst (processServiceWithBundle (exampleHost exampleManifest) failingEngine
         "web" webService "." "example" "0.0.1" NewBundler)
  = Err (Errorf "build error: manifest unknown").
Proof.
  refine (proj1 (build_error_frame_stops (exampleHost exampleManifest)
                   failingEngine "web" webService "." "example" "0.0.1"
                   NewBundler webBuild webConfig errorBody [logFrame]
                   errorFrame [lateFrame] _ _ _ _ _ _)).
  - reflexivity.
  - reflexivity.
  - reflexivity.
  - reflexivity.
  - repeat constructor.
  - discriminate.
Defined.

Lemma pull_failure_record_witness :
  fst (pullImageIfNotExists failingEngine "redis:7-alpine" NewBundler)
  = Err (Errorf "pull error: manifest unknown")
  ∧ freshlyPulledImages
      (snd (pullImageIfNotExists failingEngine "redis:7-alpine" NewBundler))
    = <["redis:7-alpine" := true]> ∅.
Proof.
  refine (proj1 (pull_failure_record failingEngine "redis:7-alpine"
                   NewBundler (Errorf "No such image") _)
            errorBody [logFrame] errorFrame [lateFrame] _ _ _ _).
  - reflexivity.
  - reflexivity.
  - reflexivity.
  - repeat constructor.
  - discriminate.
Defined.

Lemma invalid_build_type_witness :
  processServiceWithBundle (exampleHost exampleManifest) failingEngine
    "odd" oddService "." "example" "0.0.1" NewBundler
  = (Err (Errorf "invalid build configuration type"), NewBundler).
Proof.
  refine (proj1 (invalid_build_type (exampleHost exampleManifest)
                   failingEngine "odd" oddService "." "example" "0.0.1"
                   NewBundler (ASeq []) _ _ _)).
  - reflexivity.
  - discriminate.
  - discriminate.
Defined.

Lemma failed_run_removes_nothing_witness :
  removedNames
    (calls (snd (Bundle (exampleHost redisManifest) failingEngine
                   "docker-compose.yml" "bundle.tar.gz" NewBundler)))
  = [].
Proof.
  apply (failed_run_removes_nothing (exampleHost redisManifest) failingEngine
           "docker-compose.yml" "bundle.tar.gz" NewBundler
           (snd (Bundle (exampleHost redisManifest) failingEngine
                   "docker-compose.yml" "bundle.tar.gz" NewBundler))
           (Errorf "failed to process service redis: pull error: manifest unknown")).
  vm_compute. reflexivity.
Defined.

Lemma removals_are_own_images_witness :
  "redis:7-alpine" ∈ removedNames (calls NewBundler)
  ∨ is_Some (freshlyPulledImages NewBundler !! "redis:7-alpine")
  ∨ HasPrefix "redis:7-alpine" "bundled-" = true
  ∨ "redis:7-alpine"
    ∈ pulledNames
        (calls (snd (Bundle (exampleHost redisManifest)
                       (sampleEngine [] false) "docker-compose.yml"
                       "bundle.tar.gz" NewBundler))).
Proof.
  apply (removals_are_own_images (exampleHost redisManifest)
           (sampleEngine [] false) "docker-compose.yml" "bundle.tar.gz"
           NewBundler
           (snd (Bundle (exampleHost redisManifest) (sampleEngine [] false)
                   "docker-compose.yml" "bundle.tar.gz" NewBundler))
           "redis:7-alpine").
  - vm_compute. reflexivity.
  - vm_compute. constructor.
Defined.

Lemma resolver_rewrites_manifest_witness :
  ∃ compose' imageMap w',
    processServices (exampleHost exampleManifest) (sampleEngine [] false)
      (hostRange (exampleHost exampleManifest) _ (Services exampleManifest))
      "." "example" "0.0.1" exampleManifest ∅ NewBundler
    = (OK (compose', imageMap), w')
    ∧ dom (Services compose') = dom (Services exampleManifest).
Proof.
  destruct (processServices (exampleHost exampleManifest)
              (sampleEngine [] false)
              (hostRange (exampleHost exampleManifest) _
                 (Services exampleManifest))
              "." "example" "0.0.1" exampleManifest ∅ NewBundler)
    as [[[compose' imageMap]|e] w'] eqn:Hrun.
  - exists compose', imageMap, w'. split; [reflexivity|].
    apply (resolver_rewrites_manifest _ _ _ _ _ _ _ _ _ _ Hrun).
  - apply (f_equal (λ r : Result (DockerCompose * gmap string string) * World,
                      match r.1 with OK _ => true | Err _ => false end))
      in Hrun.
    vm_compute in Hrun. discriminate.
Defined.

Lemma image_map_matches_manifest_witness :
  ∃ compose' imageMap w',
    processServices (exampleHost exampleManifest) (sampleEngine [] false)
      (hostRange (exampleHost exampleManifest) _ (Services exampleManifest))
      "." "example" "0.0.1" exampleManifest ∅ NewBundler
    = (OK (compose', imageMap), w')
    ∧ ∀ ref tarFileName,
        imageMap !! ref = Some tarFileName →
        ref ≠ ""
        ∧ tarFileName = sanitizeFilename ref +:+ ".tar"
        ∧ ∃ name svc', Services compose' !! name = Some svc'
                       ∧ Image svc' = ref.
Proof.
  destruct (processServices (exampleHost exampleManifest)
              (sampleEngine [] false)
              (hostRange (exampleHost exampleManifest) _
                 (Services exampleManifest))
              "." "example" "0.0.1" exampleManifest ∅ NewBundler)
    as [[[compose' imageMap]|e] w'] eqn:Hrun.
  - exists compose', imageMap, w'. split; [reflexivity|].
    apply (image_map_matches_manifest _ _ _ _ _ _ _ _ _ _ Hrun).
  - apply (f_equal (λ r : Result (DockerCompose * gmap string string) * World,
                      match r.1 with OK _ => true | Err _ => false end))
      in Hrun.
    vm_compute in Hrun. discriminate.
Defined.

Lemma createTarGz_archives_tree_witness :
  fst (createTarGz (exampleHost exampleManifest) "bundle.tar.gz"
         contextWorld)
  = OK tt.
Proof.
  rewrite (createTarGz_archives_tree (exampleHost exampleManifest)
             "bundle.tar.gz" contextWorld 493
             [ ("server.js", File 420 true "const http = require('http');");
               ("Dockerfile", File 420 true "FROM node:20-alpine");
               (".gitignore", File 420 true "node_modules");
               (".dockerignore", File 420 true "node_modules");
               (".git",
                Directory 493 true [("HEAD", File 420 true "ref: main")]) ]).
  - reflexivity.
  - left. reflexivity.
  - reflexivity.
  - reflexivity.
  - reflexivity.
  - intros Hdot.
    repeat (apply elem_of_cons in Hdot as [Hdot|Hdot]; [discriminate|]).
    by apply elem_of_nil in Hdot.
Defined.

Lemma build_context_members_witness :
  memberNames (fst (createBuildContextTar "/" (Some exampleContext)))
  = ["."; ".dockerignore"].
Proof.
  unfold exampleContext. rewrite build_context_members.
  - vm_compute. reflexivity.
  - left. reflexivity.
  - reflexivity.
Defined.

Lemma build_context_without_git_witness :
  Forall (λ e, HasPrefix (hdr_name e) ".git" = false)
    (entries (fst (createBuildContextTar "\" (Some exampleContext)))).
Proof.
  apply (build_context_without_git "\"%char (Some exampleContext)).
  right. reflexivity.
Defined.

Lemma member_names_without_separator_witness :
  Forall (λ e, all_bytes (λ c, negb (Ascii.eqb c "\")) (hdr_name e) = true)
    (fst (Walk (Some exampleContext) (tarGzFn "\") []))
  ∧ Forall (λ e, all_bytes (λ c, negb (Ascii.eqb c "\")) (hdr_name e) = true)
      (entries (fst (createBuildContextTar "\" (Some exampleContext)))).
Proof.
  apply (member_names_without_separator "\"%char (Some exampleContext)
           (Some exampleContext)).
  discriminate.
Defined.

Lemma built_image_file_name_witness :
  sanitizeFilename
    ("bundles/" +:+ "example" +:+ "/" +:+ "web" +:+ ":" +:+ "0.0.1")
  +:+ ".tar"
  = "bundles-" +:+ sanitizeFilename "example" +:+ "-"
    +:+ sanitizeFilename "web" +:+ "-" +:+ "0.0.1" +:+ ".tar".
Proof.
  apply (built_image_file_name "example" "web" "0.0.1"). reflexivity.
Defined.

Lemma Bundle_archive_members_witness :
  ∃ stream,
    written (snd (Bundle (exampleHost exampleManifest) (sampleEngine [] false)
                    "docker-compose.yml" "bundle.tar.gz" NewBundler))
    !! "bundle.tar.gz" = Some stream
    ∧ trailer stream = true.
Proof.
  destruct (Bundle_archive_members (exampleHost exampleManifest)
              (sampleEngine [] false) "docker-compose.yml" "bundle.tar.gz"
              NewBundler
              (snd (Bundle (exampleHost exampleManifest)
                      (sampleEngine [] false) "docker-compose.yml"
                      "bundle.tar.gz" NewBundler)))
    as (compose & xb & compose' & imageMap & w1 & stream & data & _ & _ & _
        & _ & Hstream & Htrailer & _).
  - reflexivity.
  - vm_compute. reflexivity.
  - exists stream. split; assumption.
Defined.

Lemma Bundle_archive_layout_witness :
  ∃ stream names,
    written (snd (Bundle (exampleHost exampleManifest) (sampleEngine [] false)
                    "docker-compose.yml" "bundle.tar.gz" NewBundler))
    !! "bundle.tar.gz" = Some stream
    ∧ memberNames stream
      = ["README.md"; "docker-compose.yml"; "images"]
        ++ ((λ k, "images/" +:+ k) <$> names)
        ++ ["load-images.bat"; "load-images.sh"].
Proof.
  destruct (Bundle_archive_layout (exampleHost exampleManifest)
              (sampleEngine [] false) "docker-compose.yml" "bundle.tar.gz"
              NewBundler
              (snd (Bundle (exampleHost exampleManifest)
                      (sampleEngine [] false) "docker-compose.yml"
                      "bundle.tar.gz" NewBundler)))
    as (compose & xb & compose' & imageMap & w1 & stream & names & _ & _ & _
        & Hstream & Hnames & _).
  - reflexivity.
  - vm_compute. reflexivity.
  - exists stream, names. split; assumption.
Defined.
